(** * STL 3D Viewer: a shallow embedding of the React/three.js components

  The development follows the source tree:
  - [Stl]           src/types/stl.ts
  - [StatsOverlay]  src/features/stats-overlay/StatsOverlay.tsx
  - [FileUpload]    src/features/file-upload/FileUpload.tsx
  - [ControlsPanel] the controls panel, second component of FileUpload.tsx
  - [Three]         the parts of three.js that STLViewer.tsx calls, in
                    IEEE arithmetic
  - [STLViewer]     src/features/stl-viewer/STLViewer.tsx
  - [Fullscreen]    the fullscreen handlers of STLViewer.tsx
  - [App]           src/App.tsx

  Definitions come first, the properties proved about them follow. *)

From Stdlib Require Import QArith Qminmax Qround Qabs Qpower Lqa Lia NArith.
From Stdlib Require Import Strings.Ascii Strings.String Strings.Byte.
From Stdlib Require Import DecimalString DecimalN DecimalFacts.
From stdpp Require Import base option list.

Local Open Scope string_scope.
Local Open Scope list_scope.
Local Open Scope nat_scope.

(* ===================================================================== *)
(** * src/types/stl.ts *)
(* ===================================================================== *)

Module Stl.

(** [STLFile]: the uploaded asset. [arrayBuffer] is the raw byte buffer. *)
Record STLFile := {
  name : string;
  size : nat;
  lastModified : nat;
  arrayBuffer : list byte
}.

(** [ArrayBuffer.byteLength]. *)
Definition byteLength (b : list byte) : nat := length b.

(** [ViewerControls]: the control-state snapshot. JavaScript numbers are
    idealised as exact rationals. *)
Record ViewerControls := {
  showWireframe : bool;
  showNormals : bool;
  showGrid : bool;
  showAxes : bool;
  backgroundColor : string;
  modelColor : string;
  lightingIntensity : Q;
  rotationSpeed : Q
}.

End Stl.

(* ===================================================================== *)
(** * src/features/stats-overlay/StatsOverlay.tsx *)
(* ===================================================================== *)

Module StatsOverlay.
Import Stl.

(** [const triangleCount = Math.floor(stlFile.arrayBuffer.byteLength / 50)] *)
Definition triangleCount (f : STLFile) : nat :=
  byteLength (arrayBuffer f) / 50.

(** [{stlFile.arrayBuffer.byteLength > 84 ? 'Binary STL' : 'ASCII STL'}] *)
Definition formatLabel (f : STLFile) : string :=
  if 84 <? byteLength (arrayBuffer f) then "Binary STL" else "ASCII STL".

(** The component renders nothing without a file ([if (!stlFile) return null]);
    otherwise the cards show, among others, these two values. *)
Record Cards := {
  trianglesCard : nat;
  formatCard : string
}.

Definition render (stlFile : option STLFile) : option Cards :=
  match stlFile with
  | None => None
  | Some f => Some {| trianglesCard := triangleCount f;
                      formatCard := formatLabel f |}
  end.

(** A one-facet ASCII STL text, for the examples below. *)
Definition asciiFacet : string :=
  "solid t
facet normal 0 0 1
outer loop
vertex 0 0 0
vertex 1 0 0
vertex 0 1 0
endloop
endfacet
endsolid t
".

Definition asciiSample : STLFile :=
  {| name := "t.stl";
     size := String.length asciiFacet;
     lastModified := 0;
     arrayBuffer := list_byte_of_string asciiFacet |}.

(** ** The other cards *)

(** [String(n)] for a non-negative integer: its decimal digits. *)
Definition decimal (n : N) : string :=
  NilZero.string_of_uint (N.to_uint n).

(** One decimal digit as a character. *)
Definition digitChar (d : N) : ascii := ascii_of_N (48 + d).

(** [(num / den).toFixed(2)] for integers below 2^53 and [den] a power of
    two. The quotient is then an exact double, and [toFixed] takes the
    integer [n] for which [n / 100] is nearest to it, the larger one on a
    tie; it prints [n] with at least one digit before the point and two
    after. *)
Definition hundredths (num den : N) : N := ((200 * num + den) / (2 * den))%N.

Definition fixed2 (h : N) : string :=
  (decimal (h / 100)%N ++ "."
     ++ String (digitChar (h mod 100 / 10)%N)
          (String (digitChar (h mod 10)%N) EmptyString))%string.

Definition toFixed2 (num den : N) : string := fixed2 (hundredths num den).

(** [formatFileSize] *)
Definition formatFileSize (bytes : N) : string :=
  if (bytes <? 1024)%N then (decimal bytes ++ " B")%string
  else if (bytes <? 1024 * 1024)%N then (toFixed2 bytes 1024 ++ " KB")%string
  else (toFixed2 bytes (1024 * 1024) ++ " MB")%string.

(** [{stlFile.name.length > 20 ? stlFile.name.substring(0, 20) + '...' :
    stlFile.name}]; a character of the name stands for one code unit. *)
Definition displayName (f : STLFile) : string :=
  if 20 <? String.length (name f)
  then (substring 0 20 (name f) ++ "...")%string
  else name f.

(** [{triangleCount > 100000 ? 'High' : triangleCount > 10000 ? 'Medium' :
    'Low'}] *)
Definition resolutionLabel (f : STLFile) : string :=
  let count := N.of_nat (triangleCount f) in
  if (100000 <? count)%N then "High"
  else if (10000 <? count)%N then "Medium" else "Low".

(** The cards whose text does not depend on the browser's locale: the name
    with its [title] attribute, the size, the format and the resolution. *)
Record Panel := {
  fileNameValue : string;
  fileNameTitle : string;
  fileSizeValue : string;
  formatValue : string;
  resolutionValue : string
}.

Definition renderPanel (stlFile : option STLFile) : option Panel :=
  match stlFile with
  | None => None
  | Some f => Some {| fileNameValue := displayName f;
                      fileNameTitle := name f;
                      fileSizeValue := formatFileSize (N.of_nat (size f));
                      formatValue := formatLabel f;
                      resolutionValue := resolutionLabel f |}
  end.

End StatsOverlay.

(* ===================================================================== *)
(** * src/features/file-upload/FileUpload.tsx *)
(* ===================================================================== *)

Module FileUpload.

(** A browser [File]: only the name matters to the intake filter. *)
Record File := {
  fileName : string;
  fileBytes : list byte
}.

(** [String.prototype.toLowerCase] on one code unit. Only the Latin capitals
    A-Z are mapped; other code units are left alone (no code unit outside
    A-Z lower-cases to ".", "s", "t" or "l"). *)
Definition lowerChar (c : ascii) : ascii :=
  let n := nat_of_ascii c in
  if (65 <=? n) && (n <=? 90) then ascii_of_nat (n + 32) else c.

Fixpoint toLowerCase (s : string) : string :=
  match s with
  | EmptyString => EmptyString
  | String c r => String (lowerChar c) (toLowerCase r)
  end.

(** [String.prototype.endsWith]: some tail of [s] is [suffix]. *)
Fixpoint endsWith (s suffix : string) : bool :=
  if String.eqb s suffix then true
  else match s with
       | EmptyString => false
       | String _ r => endsWith r suffix
       end.

(** What a handler does to the outside: DOM calls and the [onFileUpload]
    prop. The component has no error channel at all. *)
Inductive Call :=
| PreventDefault
| SetIsDragOver (b : bool)
| OnFileUpload (f : File).

(** [file && file.name.toLowerCase().endsWith('.stl')] *)
Definition accepts (f : File) : bool :=
  endsWith (toLowerCase (fileName f)) ".stl".

(** [handleFileSelect]: [event.target.files?.[0]] is the head of the list. *)
Definition handleFileSelect (files : list File) : list Call :=
  match files with
  | f :: _ => if accepts f then [OnFileUpload f] else []
  | [] => []
  end.

(** [handleDrop]: [event.dataTransfer.files?.[0]]. *)
Definition handleDrop (files : list File) : list Call :=
  [PreventDefault; SetIsDragOver false] ++
  match files with
  | f :: _ => if accepts f then [OnFileUpload f] else []
  | [] => []
  end.

(** The files a run of a handler forwards for loading. *)
Fixpoint forwarded (cs : list Call) : list File :=
  match cs with
  | [] => []
  | OnFileUpload f :: r => f :: forwarded r
  | _ :: r => forwarded r
  end.

(** [handleDragOver] and [handleDragLeave] *)
Definition handleDragOver : list Call := [PreventDefault; SetIsDragOver true].

Definition handleDragLeave : list Call := [PreventDefault; SetIsDragOver false].

(** The events that the drop zone and the hidden file input listen to, with
    the file list each one carries. *)
Inductive DomEvent :=
| EvDragOver
| EvDragLeave
| EvDrop (files : list File)
| EvChange (files : list File).

Definition handle (e : DomEvent) : list Call :=
  match e with
  | EvDragOver => handleDragOver
  | EvDragLeave => handleDragLeave
  | EvDrop files => handleDrop files
  | EvChange files => handleFileSelect files
  end.

(** The [isDragOver] state cell after one call. *)
Definition setState (isDragOver : bool) (c : Call) : bool :=
  match c with
  | SetIsDragOver b => b
  | _ => isDragOver
  end.

(** The component over a sequence of events: the final [isDragOver] and
    the calls made, in order. *)
Definition runEvents (evs : list DomEvent) (isDragOver : bool) : bool * list Call :=
  let calls := concat (map handle evs) in
  (fold_left setState calls isDragOver, calls).

(** The claim's wording: the name ends in ".stl", letters in either case. *)
Definition isLetter (lower upper c : ascii) : Prop := c = lower \/ c = upper.

Definition endsInStlAnyCase (s : string) : Prop :=
  exists pre c1 c2 c3,
    s = (pre ++ String "." (String c1 (String c2 (String c3 EmptyString))))%string /\
    isLetter "s" "S" c1 /\ isLetter "t" "T" c2 /\ isLetter "l" "L" c3.

End FileUpload.

(* ===================================================================== *)
(** * ControlsPanel (the second component of FileUpload.tsx) *)
(* ===================================================================== *)

Module ControlsPanel.
Import Stl.

(** The keys each handler is called with. *)
Inductive ToggleKey := ShowWireframe | ShowNormals | ShowGrid | ShowAxes.
Inductive ColorKey := BackgroundColor | ModelColor.
Inductive SliderKey := LightingIntensity | RotationSpeed.

(** [controls[key]] *)
Definition getToggle (key : ToggleKey) (c : ViewerControls) : bool :=
  match key with
  | ShowWireframe => showWireframe c
  | ShowNormals => showNormals c
  | ShowGrid => showGrid c
  | ShowAxes => showAxes c
  end.

(** [{...controls, [key]: v}] *)
Definition withToggle (key : ToggleKey) (v : bool) (c : ViewerControls)
  : ViewerControls :=
  {| showWireframe := match key with ShowWireframe => v | _ => showWireframe c end;
     showNormals := match key with ShowNormals => v | _ => showNormals c end;
     showGrid := match key with ShowGrid => v | _ => showGrid c end;
     showAxes := match key with ShowAxes => v | _ => showAxes c end;
     backgroundColor := backgroundColor c;
     modelColor := modelColor c;
     lightingIntensity := lightingIntensity c;
     rotationSpeed := rotationSpeed c |}.

Definition withColor (key : ColorKey) (v : string) (c : ViewerControls)
  : ViewerControls :=
  {| showWireframe := showWireframe c;
     showNormals := showNormals c;
     showGrid := showGrid c;
     showAxes := showAxes c;
     backgroundColor := match key with BackgroundColor => v | _ => backgroundColor c end;
     modelColor := match key with ModelColor => v | _ => modelColor c end;
     lightingIntensity := lightingIntensity c;
     rotationSpeed := rotationSpeed c |}.

Definition withSlider (key : SliderKey) (v : Q) (c : ViewerControls)
  : ViewerControls :=
  {| showWireframe := showWireframe c;
     showNormals := showNormals c;
     showGrid := showGrid c;
     showAxes := showAxes c;
     backgroundColor := backgroundColor c;
     modelColor := modelColor c;
     lightingIntensity := match key with LightingIntensity => v | _ => lightingIntensity c end;
     rotationSpeed := match key with RotationSpeed => v | _ => rotationSpeed c end |}.

(** The handlers: each returns what it passes to [onControlsChange].
    [controls] is the prop of the render that created the handler. *)
Definition handleToggle (controls : ViewerControls) (key : ToggleKey)
  : ViewerControls :=
  withToggle key (negb (getToggle key controls)) controls.

Definition handleColorChange (controls : ViewerControls) (key : ColorKey)
           (value : string) : ViewerControls :=
  withColor key value controls.

Definition handleSliderChange (controls : ViewerControls) (key : SliderKey)
           (value : Q) : ViewerControls :=
  withSlider key value controls.

(** One user action on the panel. The parent stores what the handler
    passes on ([onControlsChange={setControls}]), and the next action sees
    it. *)
Inductive Change :=
| Toggle (key : ToggleKey)
| PickColor (key : ColorKey) (value : string)
| MoveSlider (key : SliderKey) (value : Q).

Definition change (ch : Change) (controls : ViewerControls) : ViewerControls :=
  match ch with
  | Toggle key => handleToggle controls key
  | PickColor key value => handleColorChange controls key value
  | MoveSlider key value => handleSliderChange controls key value
  end.

(** The fields of [ViewerControls] and what they hold. *)
Inductive Field :=
| ToggleField (key : ToggleKey)
| ColorField (key : ColorKey)
| SliderField (key : SliderKey).

Inductive Value := BoolValue (b : bool) | ColorValue (s : string) | NumberValue (q : Q).

Definition field (fd : Field) (c : ViewerControls) : Value :=
  match fd with
  | ToggleField key => BoolValue (getToggle key c)
  | ColorField BackgroundColor => ColorValue (backgroundColor c)
  | ColorField ModelColor => ColorValue (modelColor c)
  | SliderField LightingIntensity => NumberValue (lightingIntensity c)
  | SliderField RotationSpeed => NumberValue (rotationSpeed c)
  end.

(** The field an action is about. *)
Definition target (ch : Change) : Field :=
  match ch with
  | Toggle key => ToggleField key
  | PickColor key _ => ColorField key
  | MoveSlider key _ => SliderField key
  end.

(** [colorPresets] and [modelColorPresets]: label and value. *)
Definition colorPresets : list (string * string) :=
  [("Ocean", "#0f172a"); ("Midnight", "#1e1b4b"); ("Charcoal", "#1f2937");
   ("Forest", "#064e3b")].

Definition modelColorPresets : list (string * string) :=
  [("Blue", "#3b82f6"); ("Emerald", "#10b981"); ("Amber", "#f59e0b");
   ("Rose", "#f43f5e"); ("Violet", "#8b5cf6")].

(** A preset button carries the class [active] when
    [controls.backgroundColor === preset.value] (or [modelColor]): the
    labels of the active buttons. *)
Definition activePresets (current : string) (presets : list (string * string))
  : list string :=
  map fst (List.filter (fun p => String.eqb current (snd p)) presets).

End ControlsPanel.

(* ===================================================================== *)
(** * three.js: the numbers, vectors, boxes and buffer geometries used by
    STLViewer.tsx *)
(* ===================================================================== *)

Module Three.
Local Open Scope Q_scope.

(** JavaScript numbers: the finite doubles, as the rationals they denote,
    and the three IEEE specials. Every arithmetic operation rounds its
    exact result to the nearest double, ties to even; a value written to
    a [Float32Array] is rounded once more, to the nearest single. The
    sign of zero is not kept: the code divides by the last row of an
    affine matrix, which is 1 or NaN, and by [maxDim], a maximum of
    differences [max - min] and of zeros, which is +0 when it is zero. *)
Inductive num := Fin (q : Q) | PInf | NInf | NaN.

(** ** Rounding to a binary format *)

Definition pow2 (e : Z) : Q := (2 # 1) ^ e.

(** The exponent [k] with [2 ^ k <= a < 2 ^ (k + 1)], for [a > 0]. *)
Definition binade (a : Q) : Z :=
  let k := (Z.log2 (Qnum a) - Z.log2 (Zpos (Qden a)))%Z in
  if Qle_bool (pow2 k) a then k else (k - 1)%Z.

(** The integer nearest to [y], the even one of two that are equally near. *)
Definition nearestEven (y : Q) : Z :=
  let f := Qfloor y in
  match Qcompare (y - inject_Z f) (1 # 2) with
  | Lt => f
  | Gt => (f + 1)%Z
  | Eq => if Z.even f then f else (f + 1)%Z
  end.

(** A binary format: [prec] significand bits, least unit [2 ^ emin],
    greatest binade [emax]. *)
Record Format := { prec : Z; emin : Z; emax : Z }.

Definition binary32 : Format := {| prec := 24; emin := -149; emax := 127 |}.
Definition binary64 : Format := {| prec := 53; emin := -1074; emax := 1023 |}.

(** The magnitude [a > 0] rounded to a multiple of its unit in the last
    place. *)
Definition roundMag (fmt : Format) (a : Q) : Q :=
  let e := Z.max (binade a - (prec fmt - 1)) (emin fmt) in
  inject_Z (nearestEven (a / pow2 e)) * pow2 e.

(** Round to nearest, ties to even; a result of [2 ^ (emax + 1)] or more
    overflows to the infinity of its sign. *)
Definition roundTo (fmt : Format) (q : Q) : num :=
  match Qnum q with
  | Z0 => Fin 0
  | _ =>
      let r := roundMag fmt (Qabs q) in
      if Qle_bool (pow2 (emax fmt + 1)) r
      then (if (0 <? Qnum q)%Z then PInf else NInf)
      else Fin (Qred (if (0 <? Qnum q)%Z then r else - r))
  end.

(** The result of an arithmetic operation on doubles. *)
Definition dround : Q -> num := roundTo binary64.

(** [Math.fround]: what a [Float32Array] keeps of a number written to it. *)
Definition toFloat32 (a : num) : num :=
  match a with
  | Fin q => roundTo binary32 q
  | _ => a
  end.

Definition isFinite (a : num) : bool :=
  match a with Fin _ => true | _ => false end.

Definition nneg (a : num) : num :=
  match a with
  | Fin q => Fin (- q)
  | PInf => NInf
  | NInf => PInf
  | NaN => NaN
  end.

Definition nadd (a b : num) : num :=
  match a, b with
  | NaN, _ | _, NaN => NaN
  | Fin p, Fin q => dround (p + q)
  | PInf, NInf | NInf, PInf => NaN
  | PInf, _ | _, PInf => PInf
  | NInf, _ | _, NInf => NInf
  end.

Definition nsub (a b : num) : num := nadd a (nneg b).

(** The infinity with the sign of [q], or NaN for zero. *)
Definition signedInf (q : Q) (positive : bool) : num :=
  match q ?= 0 with
  | Eq => NaN
  | Gt => if positive then PInf else NInf
  | Lt => if positive then NInf else PInf
  end.

Definition nmul (a b : num) : num :=
  match a, b with
  | NaN, _ | _, NaN => NaN
  | Fin p, Fin q => dround (p * q)
  | Fin p, PInf | PInf, Fin p => signedInf p true
  | Fin p, NInf | NInf, Fin p => signedInf p false
  | PInf, PInf | NInf, NInf => PInf
  | PInf, NInf | NInf, PInf => NInf
  end.

Definition ndiv (a b : num) : num :=
  match a, b with
  | NaN, _ | _, NaN => NaN
  | Fin p, Fin q =>
      match q ?= 0 with
      | Eq => signedInf p true          (* x / 0 *)
      | _ => dround (p / q)
      end
  | Fin _, (PInf | NInf) => Fin 0
  | PInf, Fin q => match q ?= 0 with Lt => NInf | _ => PInf end
  | NInf, Fin q => match q ?= 0 with Lt => PInf | _ => NInf end
  | (PInf | NInf), (PInf | NInf) => NaN
  end.

(** [a < b]; false as soon as one side is NaN. *)
Definition nltb (a b : num) : bool :=
  match a, b with
  | NaN, _ | _, NaN => false
  | Fin p, Fin q => match p ?= q with Lt => true | _ => false end
  | NInf, NInf | PInf, _ | _, NInf => false
  | _, PInf | NInf, _ => true
  end.

(** [Math.min] and [Math.max]. *)
Definition nmin (a b : num) : num :=
  match a, b with
  | NaN, _ | _, NaN => NaN
  | Fin p, Fin q => Fin (Qmin p q)
  | NInf, _ | _, NInf => NInf
  | PInf, c | c, PInf => c
  end.

Definition nmax (a b : num) : num :=
  match a, b with
  | NaN, _ | _, NaN => NaN
  | Fin p, Fin q => Fin (Qmax p q)
  | PInf, _ | _, PInf => PInf
  | NInf, c | c, NInf => c
  end.

Record Vector3 := vec { vx : num; vy : num; vz : num }.

Definition vzero : Vector3 := vec (Fin 0) (Fin 0) (Fin 0).

Definition vecFinite (p : Vector3) : bool :=
  isFinite (vx p) && isFinite (vy p) && isFinite (vz p).

(** [Matrix4], by rows as [Matrix4.set] takes them: [elements[0]],
    [elements[4]], [elements[8]] and [elements[12]] are [n11] to [n14]. *)
Record Matrix4 := {
  n11 : num; n12 : num; n13 : num; n14 : num;
  n21 : num; n22 : num; n23 : num; n24 : num;
  n31 : num; n32 : num; n33 : num; n34 : num;
  n41 : num; n42 : num; n43 : num; n44 : num
}.

(** [Matrix4.makeTranslation(x, y, z)]. *)
Definition makeTranslation (t : Vector3) : Matrix4 :=
  {| n11 := Fin 1; n12 := Fin 0; n13 := Fin 0; n14 := vx t;
     n21 := Fin 0; n22 := Fin 1; n23 := Fin 0; n24 := vy t;
     n31 := Fin 0; n32 := Fin 0; n33 := Fin 1; n34 := vz t;
     n41 := Fin 0; n42 := Fin 0; n43 := Fin 0; n44 := Fin 1 |}.

(** [Matrix4.makeScale(x, y, z)]. *)
Definition makeScale (s : Vector3) : Matrix4 :=
  {| n11 := vx s;  n12 := Fin 0; n13 := Fin 0; n14 := Fin 0;
     n21 := Fin 0; n22 := vy s;  n23 := Fin 0; n24 := Fin 0;
     n31 := Fin 0; n32 := Fin 0; n33 := vz s;  n34 := Fin 0;
     n41 := Fin 0; n42 := Fin 0; n43 := Fin 0; n44 := Fin 1 |}.

(** One row of the product: [a * x + b * y + c * z + d], summed from the
    left as JavaScript evaluates it. *)
Definition row (a b c d : num) (p : Vector3) : num :=
  nadd (nadd (nadd (nmul a (vx p)) (nmul b (vy p))) (nmul c (vz p))) d.

(** [Vector3.applyMatrix4]: the perspective divide is always made. *)
Definition applyMatrix4 (m : Matrix4) (p : Vector3) : Vector3 :=
  let w := ndiv (Fin 1) (row (n41 m) (n42 m) (n43 m) (n44 m) p) in
  vec (nmul (row (n11 m) (n12 m) (n13 m) (n14 m) p) w)
      (nmul (row (n21 m) (n22 m) (n23 m) (n24 m) p) w)
      (nmul (row (n31 m) (n32 m) (n33 m) (n34 m) p) w).

(** [BufferAttribute.setXYZ] on a [Float32Array]. *)
Definition setXYZ (p : Vector3) : Vector3 :=
  vec (toFloat32 (vx p)) (toFloat32 (vy p)) (toFloat32 (vz p)).

(** [BufferAttribute.applyMatrix4]: every vertex is read, transformed and
    written back. *)
Definition attributeApplyMatrix4 (m : Matrix4) (ps : list Vector3)
  : list Vector3 :=
  map (fun p => setXYZ (applyMatrix4 m p)) ps.

(** [Box3]. *)
Record Box3 := { bmin : Vector3; bmax : Vector3 }.

(** [Box3.makeEmpty]: min = +Infinity, max = -Infinity. *)
Definition makeEmpty : Box3 :=
  {| bmin := vec PInf PInf PInf; bmax := vec NInf NInf NInf |}.

(** [Box3.expandByPoint]: [min.min(p); max.max(p)]. *)
Definition expandByPoint (b : Box3) (p : Vector3) : Box3 :=
  {| bmin := vec (nmin (vx (bmin b)) (vx p)) (nmin (vy (bmin b)) (vy p))
                 (nmin (vz (bmin b)) (vz p));
     bmax := vec (nmax (vx (bmax b)) (vx p)) (nmax (vy (bmax b)) (vy p))
                 (nmax (vz (bmax b)) (vz p)) |}.

(** [Box3.setFromBufferAttribute]: start empty, expand by every vertex. *)
Definition setFromPoints (ps : list Vector3) : Box3 :=
  fold_left expandByPoint ps makeEmpty.

(** [Box3.isEmpty]. *)
Definition isEmpty (b : Box3) : bool :=
  nltb (vx (bmax b)) (vx (bmin b)) || nltb (vy (bmax b)) (vy (bmin b))
  || nltb (vz (bmax b)) (vz (bmin b)).

(** [Box3.getCenter]: the origin for an empty box, else (min + max) * 0.5. *)
Definition getCenter (b : Box3) : Vector3 :=
  if isEmpty b then vzero
  else vec (nmul (nadd (vx (bmin b)) (vx (bmax b))) (Fin (1 # 2)))
           (nmul (nadd (vy (bmin b)) (vy (bmax b))) (Fin (1 # 2)))
           (nmul (nadd (vz (bmin b)) (vz (bmax b))) (Fin (1 # 2))).

(** [Box3.getSize]: zero for an empty box, else max - min. *)
Definition getSize (b : Box3) : Vector3 :=
  if isEmpty b then vzero
  else vec (nsub (vx (bmax b)) (vx (bmin b)))
           (nsub (vy (bmax b)) (vy (bmin b)))
           (nsub (vz (bmax b)) (vz (bmin b))).

(** [Math.max(v.x, v.y, v.z)]. *)
Definition maxComponent (v : Vector3) : num :=
  nmax (nmax (vx v) (vy v)) (vz v).

(** [BufferGeometry]: the position attribute, a [Float32Array] of three
    vertices per triangle, and the cached bounding box, [null] until
    computed. Normals are left out. *)
Record BufferGeometry := {
  positions : list Vector3;
  boundingBox : option Box3
}.

(** [geometry.computeBoundingBox()]. *)
Definition computeBoundingBox (g : BufferGeometry) : BufferGeometry :=
  {| positions := positions g;
     boundingBox := Some (setFromPoints (positions g)) |}.

(** [BufferGeometry.applyMatrix4] transforms the position attribute and
    recomputes a bounding box that is already cached. *)
Definition geometryApplyMatrix4 (m : Matrix4) (g : BufferGeometry)
  : BufferGeometry :=
  let ps := attributeApplyMatrix4 m (positions g) in
  {| positions := ps;
     boundingBox := match boundingBox g with
                    | Some _ => Some (setFromPoints ps)
                    | None => None
                    end |}.

(** [geometry.translate(x, y, z)]. *)
Definition translate (t : Vector3) : BufferGeometry -> BufferGeometry :=
  geometryApplyMatrix4 (makeTranslation t).

(** [geometry.scale(x, y, z)]. *)
Definition scale (s : Vector3) : BufferGeometry -> BufferGeometry :=
  geometryApplyMatrix4 (makeScale s).


End Three.

(* ===================================================================== *)
(** * src/features/stl-viewer/STLViewer.tsx *)
(* ===================================================================== *)

Module STLViewer.
Import Stl Three.

(** ** The scene graph *)

(** Objects live in a store and are named by their address, so that a ref
    and the scene's child list can hold the same object. *)
Abbreviation addr := nat.

Inductive Class :=
| Mesh | LineSegments | VertexNormalsHelper | GridHelper | AxesHelper
| AmbientLight | DirectionalLight.

Definition Class_eqb (a b : Class) : bool :=
  match a, b with
  | Mesh, Mesh | LineSegments, LineSegments
  | VertexNormalsHelper, VertexNormalsHelper | GridHelper, GridHelper
  | AxesHelper, AxesHelper | AmbientLight, AmbientLight
  | DirectionalLight, DirectionalLight => true
  | _, _ => false
  end.

(** [object instanceof THREE.Light] *)
Definition isLight (c : Class) : bool :=
  match c with AmbientLight | DirectionalLight => true | _ => false end.

(** The properties of an [Object3D] that the component reads or writes.
    Placement in space (positions, the camera) is not modelled. *)
Record Object3D := {
  cls : Class;
  visible : bool;
  intensity : Q;
  color : string;
  rotationY : Q;
  geometry : option BufferGeometry
}.

Definition set_visible (v : bool) (o : Object3D) : Object3D :=
  {| cls := cls o; visible := v; intensity := intensity o; color := color o;
     rotationY := rotationY o; geometry := geometry o |}.

Definition set_intensity (v : Q) (o : Object3D) : Object3D :=
  {| cls := cls o; visible := visible o; intensity := v; color := color o;
     rotationY := rotationY o; geometry := geometry o |}.

Definition set_color (v : string) (o : Object3D) : Object3D :=
  {| cls := cls o; visible := visible o; intensity := intensity o; color := v;
     rotationY := rotationY o; geometry := geometry o |}.

Definition set_rotationY (v : Q) (o : Object3D) : Object3D :=
  {| cls := cls o; visible := visible o; intensity := intensity o;
     color := color o; rotationY := v; geometry := geometry o |}.

(** [THREE.Scene]: the child list and the background colour. *)
Record Scene := {
  children : list addr;
  background : option string
}.

(** ** Calls that leave the component, in program order *)

Inductive Event :=
| NewScene | NewCamera | NewRenderer | NewOrbitControls
| NewObject (a : addr)             (* an Object3D constructed at [a] *)
| NewColor (c : string)            (* [new THREE.Color(c)] *)
| SceneAdd (a : addr)
| SceneRemove (a : addr)
| DisposeGeometry (a : addr)
| DisposeMaterial (a : addr)
| DisposeHelper (a : addr)
| ControlsDispose
| RendererDispose
| RequestFrame (id : nat)
| CancelFrame (id : nat)
| ControlsUpdate
| Render
| AddResizeListener
| RemoveResizeListener
| FrameCamera                      (* camera and orbit target set from the bounding sphere *)
| ConsoleError
| OnError (msg : string).

(** ** The component instance: refs, the React state cell, the object
    store and the browser's frame queue *)

Record State := mkState {
  isInitialized : bool;
  canvasRef : bool;
  sceneRef : option Scene;
  cameraRef : bool;
  rendererRef : bool;
  controlsRef : bool;
  meshRef : option addr;
  wireframeRef : option addr;
  normalsHelperRef : option addr;
  gridHelperRef : option addr;
  axesHelperRef : option addr;
  animationFrameRef : nat;
  heap : list Object3D;
  frameQueue : list (nat * ViewerControls);
  nextFrameId : nat;
  resizeListeners : nat;
  trace : list Event
}.

Definition set_isInitialized (v : bool) (st : State) : State :=
  mkState v (canvasRef st) (sceneRef st) (cameraRef st) (rendererRef st)
    (controlsRef st) (meshRef st) (wireframeRef st) (normalsHelperRef st)
    (gridHelperRef st) (axesHelperRef st) (animationFrameRef st) (heap st)
    (frameQueue st) (nextFrameId st) (resizeListeners st) (trace st).
Definition set_canvasRef (v : bool) (st : State) : State :=
  mkState (isInitialized st) v (sceneRef st) (cameraRef st) (rendererRef st)
    (controlsRef st) (meshRef st) (wireframeRef st) (normalsHelperRef st)
    (gridHelperRef st) (axesHelperRef st) (animationFrameRef st) (heap st)
    (frameQueue st) (nextFrameId st) (resizeListeners st) (trace st).
Definition set_sceneRef (v : option Scene) (st : State) : State :=
  mkState (isInitialized st) (canvasRef st) v (cameraRef st) (rendererRef st)
    (controlsRef st) (meshRef st) (wireframeRef st) (normalsHelperRef st)
    (gridHelperRef st) (axesHelperRef st) (animationFrameRef st) (heap st)
    (frameQueue st) (nextFrameId st) (resizeListeners st) (trace st).
Definition set_cameraRef (v : bool) (st : State) : State :=
  mkState (isInitialized st) (canvasRef st) (sceneRef st) v (rendererRef st)
    (controlsRef st) (meshRef st) (wireframeRef st) (normalsHelperRef st)
    (gridHelperRef st) (axesHelperRef st) (animationFrameRef st) (heap st)
    (frameQueue st) (nextFrameId st) (resizeListeners st) (trace st).
Definition set_rendererRef (v : bool) (st : State) : State :=
  mkState (isInitialized st) (canvasRef st) (sceneRef st) (cameraRef st) v
    (controlsRef st) (meshRef st) (wireframeRef st) (normalsHelperRef st)
    (gridHelperRef st) (axesHelperRef st) (animationFrameRef st) (heap st)
    (frameQueue st) (nextFrameId st) (resizeListeners st) (trace st).
Definition set_controlsRef (v : bool) (st : State) : State :=
  mkState (isInitialized st) (canvasRef st) (sceneRef st) (cameraRef st)
    (rendererRef st) v (meshRef st) (wireframeRef st) (normalsHelperRef st)
    (gridHelperRef st) (axesHelperRef st) (animationFrameRef st) (heap st)
    (frameQueue st) (nextFrameId st) (resizeListeners st) (trace st).
Definition set_meshRef (v : option addr) (st : State) : State :=
  mkState (isInitialized st) (canvasRef st) (sceneRef st) (cameraRef st)
    (rendererRef st) (controlsRef st) v (wireframeRef st) (normalsHelperRef
    st) (gridHelperRef st) (axesHelperRef st) (animationFrameRef st) (heap
    st) (frameQueue st) (nextFrameId st) (resizeListeners st) (trace st).
Definition set_wireframeRef (v : option addr) (st : State) : State :=
  mkState (isInitialized st) (canvasRef st) (sceneRef st) (cameraRef st)
    (rendererRef st) (controlsRef st) (meshRef st) v (normalsHelperRef st)
    (gridHelperRef st) (axesHelperRef st) (animationFrameRef st) (heap st)
    (frameQueue st) (nextFrameId st) (resizeListeners st) (trace st).
Definition set_normalsHelperRef (v : option addr) (st : State) : State :=
  mkState (isInitialized st) (canvasRef st) (sceneRef st) (cameraRef st)
    (rendererRef st) (controlsRef st) (meshRef st) (wireframeRef st) v
    (gridHelperRef st) (axesHelperRef st) (animationFrameRef st) (heap st)
    (frameQueue st) (nextFrameId st) (resizeListeners st) (trace st).
Definition set_gridHelperRef (v : option addr) (st : State) : State :=
  mkState (isInitialized st) (canvasRef st) (sceneRef st) (cameraRef st)
    (rendererRef st) (controlsRef st) (meshRef st) (wireframeRef st)
    (normalsHelperRef st) v (axesHelperRef st) (animationFrameRef st) (heap
    st) (frameQueue st) (nextFrameId st) (resizeListeners st) (trace st).
Definition set_axesHelperRef (v : option addr) (st : State) : State :=
  mkState (isInitialized st) (canvasRef st) (sceneRef st) (cameraRef st)
    (rendererRef st) (controlsRef st) (meshRef st) (wireframeRef st)
    (normalsHelperRef st) (gridHelperRef st) v (animationFrameRef st) (heap
    st) (frameQueue st) (nextFrameId st) (resizeListeners st) (trace st).
Definition set_animationFrameRef (v : nat) (st : State) : State :=
  mkState (isInitialized st) (canvasRef st) (sceneRef st) (cameraRef st)
    (rendererRef st) (controlsRef st) (meshRef st) (wireframeRef st)
    (normalsHelperRef st) (gridHelperRef st) (axesHelperRef st) v (heap st)
    (frameQueue st) (nextFrameId st) (resizeListeners st) (trace st).
Definition set_heap (v : list Object3D) (st : State) : State :=
  mkState (isInitialized st) (canvasRef st) (sceneRef st) (cameraRef st)
    (rendererRef st) (controlsRef st) (meshRef st) (wireframeRef st)
    (normalsHelperRef st) (gridHelperRef st) (axesHelperRef st)
    (animationFrameRef st) v (frameQueue st) (nextFrameId st)
    (resizeListeners st) (trace st).
Definition set_frameQueue (v : list (nat * ViewerControls)) (st : State) : State :=
  mkState (isInitialized st) (canvasRef st) (sceneRef st) (cameraRef st)
    (rendererRef st) (controlsRef st) (meshRef st) (wireframeRef st)
    (normalsHelperRef st) (gridHelperRef st) (axesHelperRef st)
    (animationFrameRef st) (heap st) v (nextFrameId st) (resizeListeners st)
    (trace st).
Definition set_nextFrameId (v : nat) (st : State) : State :=
  mkState (isInitialized st) (canvasRef st) (sceneRef st) (cameraRef st)
    (rendererRef st) (controlsRef st) (meshRef st) (wireframeRef st)
    (normalsHelperRef st) (gridHelperRef st) (axesHelperRef st)
    (animationFrameRef st) (heap st) (frameQueue st) v (resizeListeners st)
    (trace st).
Definition set_resizeListeners (v : nat) (st : State) : State :=
  mkState (isInitialized st) (canvasRef st) (sceneRef st) (cameraRef st)
    (rendererRef st) (controlsRef st) (meshRef st) (wireframeRef st)
    (normalsHelperRef st) (gridHelperRef st) (axesHelperRef st)
    (animationFrameRef st) (heap st) (frameQueue st) (nextFrameId st) v
    (trace st).
Definition set_trace (v : list Event) (st : State) : State :=
  mkState (isInitialized st) (canvasRef st) (sceneRef st) (cameraRef st)
    (rendererRef st) (controlsRef st) (meshRef st) (wireframeRef st)
    (normalsHelperRef st) (gridHelperRef st) (axesHelperRef st)
    (animationFrameRef st) (heap st) (frameQueue st) (nextFrameId st)
    (resizeListeners st) v.

(** What a closure created during one render sees: that render's props and
    state. *)
Record Env := {
  envInitialized : bool;
  envControls : ViewerControls;
  envFile : option STLFile
}.

(** The component right after its first render: the canvas is mounted and
    nothing else exists. *)
Definition mounted : State :=
  mkState false true None false false false None None None None None
          0 [] [] 1 0 [].

(** ** Primitive statements *)

(** A ref or a nullable value is set ([x] is truthy). *)
Definition present {A : Type} (o : option A) : bool :=
  match o with Some _ => true | None => false end.

Definition emit (e : Event) (st : State) : State :=
  set_trace (trace st ++ [e]) st.

(** [new THREE.X(...)]: the fresh object's address and the new state. *)
Definition newObject (o : Object3D) (st : State) : addr * State :=
  let a := length (heap st) in
  (a, emit (NewObject a) (set_heap (heap st ++ [o]) st)).

Definition modifyObject (a : addr) (f : Object3D -> Object3D) (st : State) : State :=
  set_heap (alter f a (heap st)) st.

(** [scene.add(o)] on an object that has no parent yet. *)
Definition sceneAdd (a : addr) (st : State) : State :=
  match sceneRef st with
  | Some sc =>
      emit (SceneAdd a)
        (set_sceneRef (Some {| children := children sc ++ [a];
                               background := background sc |}) st)
  | None => st
  end.

(** [Array.prototype.indexOf] and [splice]: drop the first occurrence. *)
Fixpoint removeFirst (a : addr) (l : list addr) : list addr :=
  match l with
  | [] => []
  | b :: r => if Nat.eqb a b then r else b :: removeFirst a r
  end.

(** [scene.remove(o)] *)
Definition sceneRemove (a : addr) (st : State) : State :=
  match sceneRef st with
  | Some sc =>
      emit (SceneRemove a)
        (set_sceneRef (Some {| children := removeFirst a (children sc);
                               background := background sc |}) st)
  | None => st
  end.

(** [scene.background = new THREE.Color(c)] *)
Definition setBackground (c : string) (st : State) : State :=
  match sceneRef st with
  | Some sc =>
      emit (NewColor c)
        (set_sceneRef (Some {| children := children sc;
                               background := Some c |}) st)
  | None => st
  end.

(** [cancelAnimationFrame(id)] *)
Definition cancelAnimationFrame (id : nat) (st : State) : State :=
  emit (CancelFrame id)
    (set_frameQueue (filter (fun cb => fst cb <> id) (frameQueue st)) st).

(** ** The animation loop (lines 85-100)

    [animate] is a closure: the [controls] it reads are the ones of the
    render in which [initThreeJS] created it. A pending callback is
    therefore queued together with those controls. *)
Definition animate (controls : ViewerControls) (st : State) : State :=
  (* animationFrameRef.current = requestAnimationFrame(animate) *)
  let id := nextFrameId st in
  let st := emit (RequestFrame id)
              (set_animationFrameRef id
                (set_nextFrameId (S id)
                  (set_frameQueue (frameQueue st ++ [(id, controls)]) st))) in
  (* if (meshRef.current && controls.rotationSpeed > 0) rotation.y += speed * 0.01 *)
  let st := match meshRef st with
            | Some m =>
                if Qlt_le_dec 0 (rotationSpeed controls)
                then modifyObject m
                       (fun o => set_rotationY
                                   (rotationY o + rotationSpeed controls * (1 # 100)) o) st
                else st
            | None => st
            end in
  (* if (controlsRef.current) controlsRef.current.update() *)
  let st := if controlsRef st then emit ControlsUpdate st else st in
  (* if (renderer && scene && camera) renderer.render(scene, camera) *)
  if rendererRef st && present (sceneRef st) && cameraRef st
  then emit Render st else st.

(** One display refresh: the browser runs the callbacks that were pending
    when the frame began; what they request goes to the next frame. *)
Definition runFrame (st : State) : State :=
  fold_left (fun s cb => animate (snd cb) s) (frameQueue st)
            (set_frameQueue [] st).

Fixpoint runFrames (n : nat) (st : State) : State :=
  match n with
  | O => st
  | S k => runFrames k (runFrame st)
  end.

(** ** [initThreeJS] (lines 32-103) *)

Definition light (c : Class) (i : Q) : Object3D :=
  {| cls := c; visible := true; intensity := i; color := "#ffffff";
     rotationY := 0; geometry := None |}.

Definition helper (c : Class) : Object3D :=
  {| cls := c; visible := true; intensity := 0; color := "";
     rotationY := 0; geometry := None |}.

Definition initThreeJS (r : Env) (st : State) : State :=
  (* if (!canvasRef.current || isInitialized) return; *)
  if negb (canvasRef st) || envInitialized r then st else
  let st := emit NewScene
              (set_sceneRef (Some {| children := []; background := None |}) st) in
  let st := emit NewCamera (set_cameraRef true st) in
  let st := emit NewRenderer (set_rendererRef true st) in
  let st := emit NewOrbitControls (set_controlsRef true st) in
  let '(a, st) := newObject (light AmbientLight (6 # 10)) st in
  let st := sceneAdd a st in
  let '(d, st) := newObject (light DirectionalLight (8 # 10)) st in
  let st := sceneAdd d st in
  let '(g, st) := newObject (helper GridHelper) st in
  let st := set_gridHelperRef (Some g) (sceneAdd g st) in
  let '(x, st) := newObject (helper AxesHelper) st in
  let st := set_axesHelperRef (Some x) (sceneAdd x st) in
  let st := setBackground (backgroundColor (envControls r)) st in
  let st := animate (envControls r) st in
  (* setIsInitialized(true) *)
  set_isInitialized true st.

(** ** The initialise/teardown effect (lines 148-193) *)

Definition initEffect (r : Env) (st : State) : State :=
  let st := initThreeJS r st in
  emit AddResizeListener (set_resizeListeners (S (resizeListeners st)) st).

Definition disposeMesh (st : State) : State :=
  match meshRef st with
  | Some m => emit (DisposeMaterial m) (emit (DisposeGeometry m) st)
  | None => st
  end.

Definition disposeWireframe (st : State) : State :=
  match wireframeRef st with
  | Some w => emit (DisposeMaterial w) (emit (DisposeGeometry w) st)
  | None => st
  end.

Definition disposeNormals (st : State) : State :=
  match normalsHelperRef st with
  | Some n => emit (DisposeHelper n) st
  | None => st
  end.

(** The function the effect returns. *)
Definition cleanup (st : State) : State :=
  let st := emit RemoveResizeListener
              (set_resizeListeners (pred (resizeListeners st)) st) in
  let st := cancelAnimationFrame (animationFrameRef st) st in
  let st := if controlsRef st then emit ControlsDispose st else st in
  let st := if rendererRef st then emit RendererDispose st else st in
  disposeNormals (disposeWireframe (disposeMesh st)).

(** React re-runs the effect when [initThreeJS] changes identity, that is
    when [isInitialized] or [controls.backgroundColor] changed between two
    renders: first the previous cleanup, then the effect of the new render. *)
Definition rerunInitEffect (r : Env) (st : State) : State :=
  initEffect r (cleanup st).

(** ** The control-state effect (lines 295-335) *)

(** [scene.traverse(cb)] with [cb] setting the intensity of every light. *)
Definition setLightIntensity (v : Q) (st : State) (a : addr) : State :=
  match heap st !! a with
  | Some o => if isLight (cls o) then modifyObject a (set_intensity v) st else st
  | None => st
  end.

Definition traverseLights (v : Q) (st : State) : State :=
  match sceneRef st with
  | Some sc => fold_left (setLightIntensity v) (children sc) st
  | None => st
  end.

Definition onRef (ref : option addr) (f : Object3D -> Object3D) (st : State) : State :=
  match ref with
  | Some a => modifyObject a f st
  | None => st
  end.

Definition controlsEffect (r : Env) (st : State) : State :=
  (* if (!sceneRef.current || !isInitialized) return; *)
  if negb (present (sceneRef st)) || negb (envInitialized r) then st else
  let c := envControls r in
  (* the mesh material is always the MeshPhongMaterial that loadSTL made *)
  let st := onRef (meshRef st) (set_color (modelColor c)) st in
  let st := onRef (wireframeRef st) (set_visible (showWireframe c)) st in
  let st := onRef (normalsHelperRef st) (set_visible (showNormals c)) st in
  let st := onRef (gridHelperRef st) (set_visible (showGrid c)) st in
  let st := onRef (axesHelperRef st) (set_visible (showAxes c)) st in
  let st := setBackground (backgroundColor c) st in
  traverseLights (lightingIntensity c) st.

(** ** Loading a file (lines 195-293) *)

(** [geometry.computeBoundingBox(); boundingBox.getCenter(center);
    geometry.translate(-center.x, -center.y, -center.z)] *)
Definition centerGeometry (g : BufferGeometry) : BufferGeometry :=
  let g := computeBoundingBox g in
  let center := match boundingBox g with
                | Some b => getCenter b
                | None => vzero
                end in
  translate (vec (nneg (vx center)) (nneg (vy center)) (nneg (vz center))) g.

(** [boundingBox.getSize(size); maxDim = Math.max(size.x, size.y, size.z);
    scale = 2 / maxDim; geometry.scale(scale, scale, scale)] *)
Definition scaleToFit (g : BufferGeometry) : BufferGeometry :=
  let size := match boundingBox g with
              | Some b => getSize b
              | None => vzero
              end in
  let maxDim := maxComponent size in
  let s := ndiv (Fin 2) maxDim in
  scale (vec s s s) g.

Definition normalizeGeometry (g : BufferGeometry) : BufferGeometry :=
  scaleToFit (centerGeometry g).

(** Statements inside the [try] block may raise. A computation runs on the
    component state and either returns or raises; what it changed before
    raising stays changed. *)
Definition M (A : Type) : Type := State -> State * option A.

#[global] Instance M_ret : MRet M := fun A a st => (st, Some a).

#[global] Instance M_bind : MBind M := fun A B k m st =>
  match m st with
  | (st', Some a) => k a st'
  | (st', None) => (st', None)
  end.

Definition raise {A : Type} : M A := fun st => (st, None).

Definition run (f : State -> State) : M unit := fun st => (f st, Some tt).

Definition tryCatch (body handler : M unit) : M unit := fun st =>
  match body st with
  | (st', Some _) => (st', Some tt)
  | (st', None) => handler st'
  end.

(** [new THREE.Mesh(geometry, new THREE.MeshPhongMaterial({color:
    controls.modelColor, ...}))] *)
Definition meshObject (c : ViewerControls) (g : BufferGeometry) : Object3D :=
  {| cls := Mesh; visible := true; intensity := 0; color := modelColor c;
     rotationY := 0; geometry := Some g |}.

(** [new THREE.LineSegments(new THREE.WireframeGeometry(geometry), ...)] with
    [wireframe.visible = controls.showWireframe]. The overlay keeps the
    geometry it was derived from; the edge list itself is not modelled. *)
Definition wireframeObject (c : ViewerControls) (g : BufferGeometry) : Object3D :=
  {| cls := LineSegments; visible := showWireframe c; intensity := 0;
     color := "#ffffff"; rotationY := 0; geometry := Some g |}.

(** [new VertexNormalsHelper(mesh, 0.1, 0xff0000)] with
    [normalsHelper.visible = controls.showNormals]. *)
Definition normalsObject (c : ViewerControls) (g : BufferGeometry) : Object3D :=
  {| cls := VertexNormalsHelper; visible := showNormals c; intensity := 0;
     color := "#ff0000"; rotationY := 0; geometry := Some g |}.

(** The places of the [try] block where a library call can raise. *)
Inductive Step :=
| AtParse | AtCenter | AtScale
| AtClearMesh | AtClearWireframe | AtClearNormals
| AtNewMesh | AtNewWireframe | AtNewNormals | AtCamera.

Definition errorMessage : string :=
  "Failed to parse STL file. Please ensure it is a valid STL file.".

Section Load.
(** [STLLoader.parse] belongs to three.js: [None] stands for a raised
    exception. [throws] tells which of the other library calls raise on
    this run. *)
Variable parse : list byte -> option BufferGeometry.
Variable throws : Step -> bool.

Definition step (s : Step) : M unit := fun st =>
  if throws s then (st, None) else (st, Some tt).

(** [sceneRef.current.add(o)]: a TypeError without a scene. *)
Definition addToScene (a : addr) : M unit := fun st =>
  match sceneRef st with
  | Some _ => (sceneAdd a st, Some tt)
  | None => (st, None)
  end.

Definition parseStep (f : STLFile) : M BufferGeometry :=
  step AtParse ;;
  match parse (arrayBuffer f) with
  | Some g => mret g
  | None => raise
  end.

Definition clearMesh : M unit :=
  step AtClearMesh ;;
  run (fun st => match meshRef st with
                 | Some m => emit (DisposeMaterial m)
                               (emit (DisposeGeometry m) (sceneRemove m st))
                 | None => st
                 end).

Definition clearWireframe : M unit :=
  step AtClearWireframe ;;
  run (fun st => match wireframeRef st with
                 | Some w => emit (DisposeMaterial w)
                               (emit (DisposeGeometry w) (sceneRemove w st))
                 | None => st
                 end).

Definition clearNormals : M unit :=
  step AtClearNormals ;;
  run (fun st => match normalsHelperRef st with
                 | Some n => emit (DisposeHelper n) (sceneRemove n st)
                 | None => st
                 end).

Definition newMesh (c : ViewerControls) (g : BufferGeometry) : M unit :=
  step AtNewMesh ;;
  m ← (fun st => let '(m, st') := newObject (meshObject c g) st in (st', Some m)) ;
  addToScene m ;;
  run (set_meshRef (Some m)).

Definition newWireframe (c : ViewerControls) (g : BufferGeometry) : M unit :=
  step AtNewWireframe ;;
  w ← (fun st => let '(w, st') := newObject (wireframeObject c g) st in (st', Some w)) ;
  addToScene w ;;
  run (set_wireframeRef (Some w)).

Definition newNormals (c : ViewerControls) (g : BufferGeometry) : M unit :=
  step AtNewNormals ;;
  n ← (fun st => let '(n, st') := newObject (normalsObject c g) st in (st', Some n)) ;
  addToScene n ;;
  run (set_normalsHelperRef (Some n)).

Definition resetCamera : M unit :=
  step AtCamera ;;
  run (fun st => if cameraRef st && controlsRef st
                 then emit ControlsUpdate (emit FrameCamera st) else st).

(** The body of the [try] block. *)
Definition loadBody (c : ViewerControls) (f : STLFile) : M unit :=
  g ← parseStep f ;
  step AtCenter ;;
  let g := centerGeometry g in
  step AtScale ;;
  let g := scaleToFit g in
  clearMesh ;; clearWireframe ;; clearNormals ;;
  newMesh c g ;; newWireframe c g ;; newNormals c g ;;
  resetCamera.

(** The [catch] block. *)
Definition reportFailure : M unit :=
  run (fun st => emit (OnError errorMessage) (emit ConsoleError st)).

Definition loadSTL (c : ViewerControls) (f : STLFile) : M unit :=
  tryCatch (loadBody c f) reportFailure.

(** The effect: [if (!sceneRef.current || !stlFile || !isInitialized)
    return; loadSTL()]. *)
Definition loadEffect (r : Env) (st : State) : State :=
  match sceneRef st, envFile r with
  | Some _, Some f =>
      if envInitialized r then fst (loadSTL (envControls r) f st) else st
  | _, _ => st
  end.

End Load.

(** ** Observations on the live scene *)

Definition sceneChildren (st : State) : list addr :=
  match sceneRef st with
  | Some sc => children sc
  | None => []
  end.

Definition classAt (st : State) (a : addr) : option Class :=
  cls <$> heap st !! a.

(** The number of scene children of a class. *)
Definition countClass (c : Class) (st : State) : nat :=
  length (List.filter (fun a => match classAt st a with
                                | Some k => Class_eqb k c
                                | None => false
                                end) (sceneChildren st)).

(** ** The state a load leaves when nothing raises *)

Definition removeRef (ref : option addr) (l : list addr) : list addr :=
  match ref with
  | Some a => removeFirst a l
  | None => l
  end.

(** The calls of the clearing step, in order. *)
Definition clearEvents (st : State) : list Event :=
  match meshRef st with
  | Some m => [SceneRemove m; DisposeGeometry m; DisposeMaterial m]
  | None => []
  end ++
  match wireframeRef st with
  | Some w => [SceneRemove w; DisposeGeometry w; DisposeMaterial w]
  | None => []
  end ++
  match normalsHelperRef st with
  | Some n => [SceneRemove n; DisposeHelper n]
  | None => []
  end.

(** The calls that construct and install the new set at addresses [a],
    [a + 1] and [a + 2]. *)
Definition installEvents (a : addr) : list Event :=
  [NewObject a; SceneAdd a; NewObject (S a); SceneAdd (S a);
   NewObject (S (S a)); SceneAdd (S (S a))].

Definition cameraEvents (st : State) : list Event :=
  if cameraRef st && controlsRef st then [FrameCamera; ControlsUpdate] else [].

Definition afterLoad (c : ViewerControls) (g : BufferGeometry) (sc : Scene)
           (st : State) : State :=
  let a := length (heap st) in
  mkState (isInitialized st) (canvasRef st)
    (Some {| children :=
               removeRef (normalsHelperRef st)
                 (removeRef (wireframeRef st)
                    (removeRef (meshRef st) (children sc)))
               ++ [a; S a; S (S a)];
             background := background sc |})
    (cameraRef st) (rendererRef st) (controlsRef st)
    (Some a) (Some (S a)) (Some (S (S a)))
    (gridHelperRef st) (axesHelperRef st) (animationFrameRef st)
    (heap st ++ [meshObject c g; wireframeObject c g; normalsObject c g])
    (frameQueue st) (nextFrameId st) (resizeListeners st)
    (trace st ++ clearEvents st ++ installEvents a ++ cameraEvents st).

Definition refersTo (ref : option addr) (a : addr) : bool :=
  match ref with
  | Some b => Nat.eqb b a
  | None => false
  end.

(** ** The object store after the control-state effect *)

Definition altRef (ref : option addr) (f : Object3D -> Object3D)
           (h : list Object3D) : list Object3D :=
  match ref with
  | Some a => alter f a h
  | None => h
  end.

(** What [setLightIntensity] does to the store. *)
Definition lightStep (v : Q) (h : list Object3D) (a : addr) : list Object3D :=
  match h !! a with
  | Some o => if isLight (cls o) then alter (set_intensity v) a h else h
  | None => h
  end.

Definition appliedHeap (c : ViewerControls) (m w n g x : option addr)
           (ch : list addr) (h : list Object3D) : list Object3D :=
  fold_left (lightStep (lightingIntensity c)) ch
    (altRef x (set_visible (showAxes c))
       (altRef g (set_visible (showGrid c))
          (altRef n (set_visible (showNormals c))
             (altRef w (set_visible (showWireframe c))
                (altRef m (set_color (modelColor c)) h))))).

(** [setLightIntensity] on one object; [hit] tells whether the traversal
    reaches it. *)
Definition lightCell (v : Q) (hit : bool) (o : Object3D) : Object3D :=
  if isLight (cls o) && hit then set_intensity v o else o.

(** What the effect does to one object at address [a]. *)
Definition appliedCell (c : ViewerControls) (m w n g x : option addr)
           (ch : list addr) (a : addr) (o : Object3D) : Object3D :=
  let o := if refersTo m a then set_color (modelColor c) o else o in
  let o := if refersTo w a then set_visible (showWireframe c) o else o in
  let o := if refersTo n a then set_visible (showNormals c) o else o in
  let o := if refersTo g a then set_visible (showGrid c) o else o in
  let o := if refersTo x a then set_visible (showAxes c) o else o in
  lightCell (lightingIntensity c) (existsb (Nat.eqb a) ch) o.

(** The release calls that [cleanup] makes after cancelling the frame, in
    order. *)
Definition releases (st : State) : list Event :=
  (if controlsRef st then [ControlsDispose] else []) ++
  (if rendererRef st then [RendererDispose] else []) ++
  match meshRef st with
  | Some m => [DisposeGeometry m; DisposeMaterial m]
  | None => []
  end ++
  match wireframeRef st with
  | Some w => [DisposeGeometry w; DisposeMaterial w]
  | None => []
  end ++
  match normalsHelperRef st with
  | Some n => [DisposeHelper n]
  | None => []
  end.

(** Calls that construct something or request a frame. *)
Definition isCreation (e : Event) : bool :=
  match e with
  | NewScene | NewCamera | NewRenderer | NewOrbitControls
  | NewObject _ | RequestFrame _ => true
  | _ => false
  end.

(** The closure environment of a render made in state [st] with the given
    props. *)
Definition renderEnv (c : ViewerControls) (f : option STLFile) (st : State) : Env :=
  {| envInitialized := isInitialized st; envControls := c; envFile := f |}.

(** How a run of the load effect ended: [None] when the guard returned at
    once, [Some true] when the [try] block completed, [Some false] when the
    [catch] block ran. *)
Definition loadOutcome (parse : list byte -> option BufferGeometry)
           (throws : Step -> bool) (r : Env) (st : State) : option bool :=
  match sceneRef st, envFile r with
  | Some _, Some f =>
      if envInitialized r
      then Some (match snd (loadBody parse throws (envControls r) f st) with
                 | Some _ => true
                 | None => false
                 end)
      else None
  | _, _ => None
  end.

(** Whether the control-state effect gets past its guard. *)
Definition controlsApply (r : Env) (st : State) : bool :=
  present (sceneRef st) && envInitialized r.

Definition isOnError (e : Event) : bool :=
  match e with OnError _ => true | _ => false end.

(** The number of messages sent to [onError] so far. *)
Definition errorsReported (st : State) : nat :=
  length (List.filter isOnError (trace st)).

(** A computation is quiet when it sends nothing to [onError]. *)
Definition quiet {A : Type} (m : M A) : Prop :=
  forall st, errorsReported (fst (m st)) = errorsReported st.

(** Calls that release a resource. *)
Definition isRelease (e : Event) : bool :=
  match e with
  | ControlsDispose | RendererDispose
  | DisposeGeometry _ | DisposeMaterial _ | DisposeHelper _ => true
  | _ => false
  end.

(** ** Invariants of the component state *)

(** At most one frame callback is pending, and [animationFrameRef] holds its
    handle. *)
Definition loopInv (st : State) : bool :=
  match frameQueue st with
  | [] => true
  | [cb] => Nat.eqb (fst cb) (animationFrameRef st)
  | _ => false
  end.

(** A scene child exists in the store, and a mesh, wireframe or normals
    overlay among the children is the one its ref holds. *)
Definition childOk (st : State) (a : addr) : bool :=
  match classAt st a with
  | Some Mesh => refersTo (meshRef st) a
  | Some LineSegments => refersTo (wireframeRef st) a
  | Some VertexNormalsHelper => refersTo (normalsHelperRef st) a
  | Some _ => true
  | None => false
  end.

Definition sceneInv (st : State) : bool :=
  forallb (childOk st) (sceneChildren st) && bool_decide (NoDup (sceneChildren st)).

(** A ref that is set holds an object of its kind. *)
Definition refOk (st : State) (k : Class) (ref : option addr) : bool :=
  match ref with
  | Some a => match classAt st a with
              | Some k' => Class_eqb k' k
              | None => false
              end
  | None => true
  end.

Definition refsInv (st : State) : bool :=
  refOk st Mesh (meshRef st) && refOk st LineSegments (wireframeRef st)
  && refOk st VertexNormalsHelper (normalsHelperRef st)
  && refOk st GridHelper (gridHelperRef st)
  && refOk st AxesHelper (axesHelperRef st).

(** ** The component in the middle of a load

    Six statements of the [try] block change the component: three clear
    the previous set, three install the new one. [duringLoad i] is the
    state after the first [i] of them. *)
Definition duringEvents (i : nat) (st : State) : list Event :=
  (if 1 <=? i
   then match meshRef st with
        | Some m => [SceneRemove m; DisposeGeometry m; DisposeMaterial m]
        | None => []
        end
   else []) ++
  (if 2 <=? i
   then match wireframeRef st with
        | Some w => [SceneRemove w; DisposeGeometry w; DisposeMaterial w]
        | None => []
        end
   else []) ++
  (if 3 <=? i
   then match normalsHelperRef st with
        | Some n => [SceneRemove n; DisposeHelper n]
        | None => []
        end
   else []) ++
  firstn (2 * (i - 3)) (installEvents (length (heap st))).

(** Pushing elements one by one, as [scene.add] and the store do. *)
Definition pushAll {A : Type} (l xs : list A) : list A :=
  fold_left (fun l x => l ++ [x]) xs l.

Definition duringLoad (i : nat) (c : ViewerControls) (g : BufferGeometry)
           (sc : Scene) (st : State) : State :=
  let a := length (heap st) in
  let ch1 := if 1 <=? i then removeRef (meshRef st) (children sc) else children sc in
  let ch2 := if 2 <=? i then removeRef (wireframeRef st) ch1 else ch1 in
  let ch3 := if 3 <=? i then removeRef (normalsHelperRef st) ch2 else ch2 in
  mkState (isInitialized st) (canvasRef st)
    (Some {| children := pushAll ch3 (firstn (i - 3) [a; S a; S (S a)]);
             background := background sc |})
    (cameraRef st) (rendererRef st) (controlsRef st)
    (if 4 <=? i then Some a else meshRef st)
    (if 5 <=? i then Some (S a) else wireframeRef st)
    (if 6 <=? i then Some (S (S a)) else normalsHelperRef st)
    (gridHelperRef st) (axesHelperRef st) (animationFrameRef st)
    (pushAll (heap st)
       (firstn (i - 3) [meshObject c g; wireframeObject c g; normalsObject c g]))
    (frameQueue st) (nextFrameId st) (resizeListeners st)
    (trace st ++ duringEvents i st).

(** ** Vocabulary for the invariants of the scene graph *)

(** The ref that holds the object of a class, if the component keeps one. *)
Definition slotRef (k : Class) (st : State) : option addr :=
  match k with
  | Mesh => meshRef st
  | LineSegments => wireframeRef st
  | VertexNormalsHelper => normalsHelperRef st
  | GridHelper => gridHelperRef st
  | AxesHelper => axesHelperRef st
  | AmbientLight | DirectionalLight => None
  end.

(** The classes of the objects that a load replaces. *)
Definition replaced (k : Class) : bool :=
  match k with
  | Mesh | LineSegments | VertexNormalsHelper => true
  | _ => false
  end.

(** The scene graph is well formed: no child twice, every child in the
    store, a replaceable child is the one its ref holds, and a ref that is
    set holds an object of its class. *)
Definition graphInv (st : State) : Prop :=
  NoDup (sceneChildren st) /\
  (forall x, x ∈ sceneChildren st ->
             exists k, classAt st x = Some k /\
                       (replaced k = true -> slotRef k st = Some x)) /\
  (forall k a, slotRef k st = Some a -> classAt st a = Some k).

(** No scene child is of class [k]. *)
Definition noClass (k : Class) (st : State) : Prop :=
  forall x, x ∈ sceneChildren st -> classAt st x <> Some k.

(** Two states with the same scene graph: the same children, the same
    class at every address, the same refs. *)
Definition sameShape (st st' : State) : Prop :=
  sceneChildren st' = sceneChildren st /\
  present (sceneRef st') = present (sceneRef st) /\
  (forall a, classAt st' a = classAt st a) /\
  meshRef st' = meshRef st /\ wireframeRef st' = wireframeRef st /\
  normalsHelperRef st' = normalsHelperRef st /\
  gridHelperRef st' = gridHelperRef st /\ axesHelperRef st' = axesHelperRef st.

(** The four classes of objects that [initThreeJS] installs once. *)
Definition fixedOnce (st : State) : Prop :=
  countClass AmbientLight st = 1 /\ countClass DirectionalLight st = 1 /\
  countClass GridHelper st = 1 /\ countClass AxesHelper st = 1.

(** What neither a load nor the control-state effect touches: the frame
    loop and the listener count. *)
Definition sameLoop (st st' : State) : Prop :=
  frameQueue st' = frameQueue st /\ animationFrameRef st' = animationFrameRef st /\
  nextFrameId st' = nextFrameId st /\ resizeListeners st' = resizeListeners st.

(** The statements completed when the library call at [s] raises. *)
Definition completedAt (s : Step) : nat :=
  match s with
  | AtParse | AtCenter | AtScale | AtClearMesh => 0
  | AtClearWireframe => 1
  | AtClearNormals => 2
  | AtNewMesh => 3
  | AtNewWireframe => 4
  | AtNewNormals => 5
  | AtCamera => 6
  end.

(** ** The life of a mounted component

    After the mount, React runs the effects again as their dependencies
    change: the init effect (its cleanup first), the load effect, the
    control-state effect; the browser runs display refreshes in between. Any
    order and any render environment is allowed here. *)
Inductive Action :=
| RerunInit (r : Env)
| RunLoad (throws : Step -> bool) (r : Env)
| RunControls (r : Env)
| Tick.

Definition perform (parse : list byte -> option BufferGeometry) (a : Action)
           (st : State) : State :=
  match a with
  | RerunInit r => rerunInitEffect r st
  | RunLoad throws r => loadEffect parse throws r st
  | RunControls r => controlsEffect r st
  | Tick => runFrame st
  end.

(** The component after the mount with props [c] and [f] and the given
    actions. *)
Definition life (parse : list byte -> option BufferGeometry)
           (c : ViewerControls) (f : option STLFile) (acts : list Action) : State :=
  fold_left (fun st a => perform parse a st) acts
            (initEffect (renderEnv c f mounted) mounted).

End STLViewer.

(* ===================================================================== *)
(** * Fullscreen mode of the viewer (STLViewer.tsx, lines 105-146) *)
(* ===================================================================== *)

Module Fullscreen.

(** Calls that leave the component. *)
Inductive Call :=
| RequestFullscreen
| ExitFullscreen
| ConsoleError
| OnError (msg : string).

(** The part of the component and of the document that fullscreen mode
    involves: the container ref, the [isFullscreen] state cell, and whether
    [document.fullscreenElement] is set. *)
Record State := mkState {
  containerRef : bool;
  isFullscreen : bool;
  fullscreenElement : bool;
  calls : list Call
}.

Definition initial : State := mkState true false false [].

Definition setIsFullscreen (v : bool) (s : State) : State :=
  mkState (containerRef s) v (fullscreenElement s) (calls s).

Definition call (c : Call) (s : State) : State :=
  mkState (containerRef s) (isFullscreen s) (fullscreenElement s) (calls s ++ [c]).

Definition deniedMessage : string :=
  "Fullscreen mode is not supported or was denied.".

(** [handleFullscreenChange]: [setIsFullscreen(!!document.fullscreenElement)] *)
Definition handleFullscreenChange (s : State) : State :=
  setIsFullscreen (fullscreenElement s) s.

(** The browser changes [document.fullscreenElement] and fires
    [fullscreenchange], to which the component listens. *)
Definition documentChange (v : bool) (s : State) : State :=
  handleFullscreenChange
    (mkState (containerRef s) (isFullscreen s) v (calls s)).

(** A granted request or exit does two things in an order that the
    component does not control: the [fullscreenchange] event is delivered
    and the promise callback runs. *)
Definition settle (eventFirst : bool) (v : bool) (s : State) : State :=
  if eventFirst
  then setIsFullscreen v (documentChange v s)
  else handleFullscreenChange
         (mkState (containerRef s) v v (calls s)).

(** [toggleFullscreen]; [granted] is the browser's answer to
    [requestFullscreen]. *)
Definition toggleFullscreen (granted eventFirst : bool) (s : State) : State :=
  if negb (containerRef s) then s
  else if negb (fullscreenElement s)
  then if granted
       then settle eventFirst true (call RequestFullscreen s)
       else call (OnError deniedMessage)
              (call ConsoleError (call RequestFullscreen s))
  else settle eventFirst false (call ExitFullscreen s).

(** [handleKeyDown]: [if (event.key === 'Escape' &&
    document.fullscreenElement) document.exitFullscreen()] *)
Definition handleKeyDown (key : string) (s : State) : State :=
  if String.eqb key "Escape" && fullscreenElement s
  then documentChange false (call ExitFullscreen s)
  else s.

(** What can happen to a mounted viewer: a click on the button, a key, or
    the browser leaving fullscreen mode by itself. *)
Inductive Action :=
| Click (granted eventFirst : bool)
| Key (key : string)
| BrowserExit.

Definition perform (a : Action) (s : State) : State :=
  match a with
  | Click granted eventFirst => toggleFullscreen granted eventFirst s
  | Key key => handleKeyDown key s
  | BrowserExit => documentChange false s
  end.

Definition performAll (acts : list Action) (s : State) : State :=
  fold_left (fun s a => perform a s) acts s.

Definition isOnError (c : Call) : bool :=
  match c with OnError _ => true | _ => false end.

(** A click that asks for fullscreen mode and is refused. *)
Definition refused (s : State) (a : Action) : bool :=
  match a with
  | Click false _ => containerRef s && negb (fullscreenElement s)
  | _ => false
  end.

End Fullscreen.

(* ===================================================================== *)
(** * App (src/App.tsx) *)
(* ===================================================================== *)

Module App.
Import Stl STLViewer.

Record AppState := {
  stlFile : option STLFile;
  isLoading : bool;
  error : option string;
  controls : ViewerControls;
  isHeaderCollapsed : bool
}.

Definition initialControls : ViewerControls :=
  {| showWireframe := false; showNormals := false; showGrid := true;
     showAxes := true; backgroundColor := "#0f172a"; modelColor := "#3b82f6";
     lightingIntensity := 1; rotationSpeed := 0 |}.

Definition initial : AppState :=
  {| stlFile := None; isLoading := false; error := None;
     controls := initialControls; isHeaderCollapsed := false |}.

Definition loadFailed : string := "Failed to load STL file. Please try again.".

(** What the browser tells about a picked [File] besides its name. *)
Record Picked := {
  picked : FileUpload.File;
  pickedSize : nat;
  pickedLastModified : nat
}.

(** The [STLFile] that [handleFileUpload] builds from a picked file and the
    bytes read from it. *)
Definition pickedFile (file : Picked) (buffer : list byte) : STLFile :=
  {| name := FileUpload.fileName (picked file); size := pickedSize file;
     lastModified := pickedLastModified file; arrayBuffer := buffer |}.

(** [handleFileUpload] up to its [await]: *)
Definition uploadStarted (a : AppState) : AppState :=
  {| stlFile := stlFile a; isLoading := true; error := None;
     controls := controls a; isHeaderCollapsed := isHeaderCollapsed a |}.

(** and from the moment [file.arrayBuffer()] settles, with the buffer or,
    for [None], with a rejection. *)
Definition uploadSettled (file : Picked) (read : option (list byte))
           (a : AppState) : AppState :=
  match read with
  | Some buffer =>
      {| stlFile := Some {| name := FileUpload.fileName (picked file);
                            size := pickedSize file;
                            lastModified := pickedLastModified file;
                            arrayBuffer := buffer |};
         isLoading := false; error := error a;
         controls := controls a; isHeaderCollapsed := isHeaderCollapsed a |}
  | None =>
      {| stlFile := stlFile a; isLoading := false; error := Some loadFailed;
         controls := controls a; isHeaderCollapsed := isHeaderCollapsed a |}
  end.

(** One upload with nothing else happening during the read. *)
Definition handleFileUpload (file : Picked) (read : option (list byte))
           (a : AppState) : AppState :=
  uploadSettled file read (uploadStarted a).

Definition handleReset (a : AppState) : AppState :=
  {| stlFile := None; isLoading := isLoading a; error := None;
     controls := initialControls; isHeaderCollapsed := isHeaderCollapsed a |}.

Definition toggleHeaderCollapse (a : AppState) : AppState :=
  {| stlFile := stlFile a; isLoading := isLoading a; error := error a;
     controls := controls a; isHeaderCollapsed := negb (isHeaderCollapsed a) |}.

(** [onControlsChange={setControls}] *)
Definition setControls (c : ViewerControls) (a : AppState) : AppState :=
  {| stlFile := stlFile a; isLoading := isLoading a; error := error a;
     controls := c; isHeaderCollapsed := isHeaderCollapsed a |}.

(** [onError={(err) => setError(err)}] *)
Definition onError (msg : string) (a : AppState) : AppState :=
  {| stlFile := stlFile a; isLoading := isLoading a; error := Some msg;
     controls := controls a; isHeaderCollapsed := isHeaderCollapsed a |}.

(** What the render shows: [{error && ...}], [{stlFile && ...}] around the
    controls panel and the statistics overlay, [{!stlFile && !isLoading &&
    ...}] around the welcome card, [disabled={isLoading}] on Reset. *)
Definition showsError (a : AppState) : bool :=
  match error a with
  | Some msg => negb (String.eqb msg "")
  | None => false
  end.

Definition showsPanels (a : AppState) : bool := present (stlFile a).

Definition showsWelcome (a : AppState) : bool :=
  negb (present (stlFile a)) && negb (isLoading a).

Definition resetDisabled (a : AppState) : bool := isLoading a.

(** The props of the viewer in a render of [a]: [stlFile={stlFile}
    controls={controls}]. *)
Definition viewerEnv (a : AppState) (st : State) : Env :=
  renderEnv (controls a) (stlFile a) st.

(** The messages among the viewer's calls reach [setError] in order. *)
Definition reported (events : list Event) (a : AppState) : AppState :=
  fold_left (fun a e => match e with
                        | OnError msg => onError msg a
                        | _ => a
                        end) events a.

End App.

(* ===================================================================== *)
(** * Sample data for the examples *)
(* ===================================================================== *)

Module Samples.
Import Stl Three STLViewer.

(** The triangle that [StatsOverlay.asciiFacet] describes. *)
Definition facetGeometry : BufferGeometry :=
  {| positions := [vec (Fin 0) (Fin 0) (Fin 0); vec (Fin 1) (Fin 0) (Fin 0);
                   vec (Fin 0) (Fin 1) (Fin 0)];
     boundingBox := None |}.




(** One facet with a vertex at infinity on the x axis, as a binary STL can
    hold. *)
Definition infiniteGeometry : BufferGeometry :=
  {| positions := [vec (Fin 0) (Fin 0) (Fin 0); vec PInf (Fin 0) (Fin 0);
                   vec (Fin 0) (Fin 1) (Fin 0)];
     boundingBox := None |}.

(** A stand-in for [STLLoader.parse] that knows the sample text only and
    raises on every other buffer. *)
Definition parseSample (b : list byte) : option BufferGeometry :=
  if String.eqb (string_of_list_byte b) StatsOverlay.asciiFacet
  then Some facetGeometry else None.


(** The initial control state of App. *)
Definition defaultControls : ViewerControls :=
  {| showWireframe := false; showNormals := false; showGrid := true;
     showAxes := true; backgroundColor := "#0f172a"; modelColor := "#3b82f6";
     lightingIntensity := 1; rotationSpeed := 0 |}.

(** The same with the rotation slider at 5. *)
Definition spinControls : ViewerControls :=
  {| showWireframe := false; showNormals := false; showGrid := true;
     showAxes := true; backgroundColor := "#0f172a"; modelColor := "#3b82f6";
     lightingIntensity := 1; rotationSpeed := 5 |}.

Definition noThrow : Step -> bool := fun _ => false.


(** The environments of four successive renders: the mount, the render
    after [setIsInitialized(true)], the render after an upload, and the
    render after the rotation slider moved. *)
Definition mountEnv : Env :=
  {| envInitialized := false; envControls := defaultControls; envFile := None |}.
Definition readyEnv : Env :=
  {| envInitialized := true; envControls := defaultControls; envFile := None |}.
Definition fileEnv : Env :=
  {| envInitialized := true; envControls := defaultControls;
     envFile := Some StatsOverlay.asciiSample |}.
Definition spinEnv : Env :=
  {| envInitialized := true; envControls := spinControls;
     envFile := Some StatsOverlay.asciiSample |}.

(** After [initThreeJS] alone. *)
Definition initialized : State := initEffect mountEnv mounted.

(** After one successful load on top of it. *)
Definition populated : State := loadEffect parseSample noThrow fileEnv initialized.

(** The component's life up to a moved rotation slider, effect by effect:
    the mount; the re-render caused by [setIsInitialized(true)], which
    re-runs the init effect and runs the control effect; the upload; the
    slider change, on which the parent re-renders, so that the load effect
    (it depends on [onError], a new function at every parent render) and
    the control effect both run. *)
Definition spinning : State :=
  let st := initEffect mountEnv mounted in
  let st := rerunInitEffect readyEnv st in
  let st := controlsEffect readyEnv st in
  let st := loadEffect parseSample noThrow fileEnv st in
  let st := loadEffect parseSample noThrow spinEnv st in
  controlsEffect spinEnv st.

End Samples.

(* ===================================================================== *)
(** * Vocabulary for the bounding-box properties *)
(* ===================================================================== *)

Module Bounds.
Import Three.
Local Open Scope Q_scope.
Definition allFinite (l : list num) : Prop :=
  Forall (fun a => isFinite a = true) l.
Definition pointsFinite (ps : list Vector3) : Prop :=
  Forall (fun p => vecFinite p = true) ps.
(** The vertex that is NaN on every axis. *)
Definition allNaN : Vector3 := vec NaN NaN NaN.
End Bounds.

(* ===================================================================== *)
(** * Properties of the statistics overlay *)
(* ===================================================================== *)

Section StatsOverlayFacts.
Import Stl StatsOverlay.

Lemma triangleCount_floor (f : STLFile) :
  50 * triangleCount f <= byteLength (arrayBuffer f) < 50 * triangleCount f + 50.
Proof.
  unfold triangleCount.
  pose proof (Nat.div_mod_eq (byteLength (arrayBuffer f)) 50).
  pose proof (Nat.mod_upper_bound (byteLength (arrayBuffer f)) 50).
  lia.
Qed.

(** C8. The triangle count on the statistics card is floor(byteLength / 50),
    computed from the buffer length alone; for a binary STL buffer of [n]
    records (84 + 50 n bytes) it is [n + 1], never the exact count [n]. *)
Theorem stats_triangle_count_is_length_estimate :
  forall (f : STLFile) (cards : Cards),
    render (Some f) = Some cards ->
    50 * trianglesCard cards <= byteLength (arrayBuffer f) < 50 * trianglesCard cards + 50 /\
    (forall g, byteLength (arrayBuffer g) = byteLength (arrayBuffer f) ->
               triangleCount g = trianglesCard cards) /\
    (forall n, byteLength (arrayBuffer f) = 84 + 50 * n ->
               (byteLength (arrayBuffer f) - 84) / 50 = n /\
               trianglesCard cards = n + 1 /\ trianglesCard cards <> n).
Proof.
  intros f cards Hr. inversion Hr; subst; clear Hr. cbn [trianglesCard].
  split; [apply triangleCount_floor|]. split.
  - intros g Hg. unfold triangleCount. now rewrite Hg.
  - intros n Hn. unfold triangleCount. rewrite Hn.
    assert (H1 : (84 + 50 * n - 84) / 50 = n)
      by (symmetry; apply (Nat.div_unique _ 50 n 0); lia).
    assert (H2 : (84 + 50 * n) / 50 = n + 1)
      by (symmetry; apply (Nat.div_unique _ 50 (n + 1) 34); lia).
    rewrite H1, H2. lia.
Qed.

Lemma formatLabel_cases (f : STLFile) :
  (84 < byteLength (arrayBuffer f) /\ formatLabel f = "Binary STL") \/
  (byteLength (arrayBuffer f) <= 84 /\ formatLabel f = "ASCII STL").
Proof.
  unfold formatLabel.
  destruct (Nat.ltb_spec 84 (byteLength (arrayBuffer f))); [left|right]; easy.
Qed.

(** C10. For a file that is set the statistics view is rendered, and its
    format card reads "Binary STL" exactly when the buffer is longer than 84
    bytes and "ASCII STL" otherwise; the label is a function of the length
    alone, so the ASCII text [asciiFacet] (more than 84 bytes, starting with
    the keyword solid) is shown as binary. *)
Theorem format_label_decided_by_length :
  forall f : STLFile,
    (formatLabel f = "Binary STL" <-> 84 < byteLength (arrayBuffer f)) /\
    (formatLabel f = "ASCII STL" <-> byteLength (arrayBuffer f) <= 84) /\
    (exists cards, render (Some f) = Some cards /\
                   formatCard cards = formatLabel f /\
                   (formatCard cards = "Binary STL" <-> 84 < byteLength (arrayBuffer f)) /\
                   (formatCard cards = "ASCII STL" <-> byteLength (arrayBuffer f) <= 84)) /\
    (forall cards, render (Some f) = Some cards -> formatCard cards = formatLabel f) /\
    (forall g, byteLength (arrayBuffer g) = byteLength (arrayBuffer f) ->
               formatLabel g = formatLabel f) /\
    (firstn 5 (arrayBuffer asciiSample) = list_byte_of_string "solid" /\
     formatLabel asciiSample = "Binary STL" /\
     formatCard <$> render (Some asciiSample) = Some "Binary STL").
Proof.
  intros f.
  assert (B : formatLabel f = "Binary STL" <-> 84 < byteLength (arrayBuffer f))
    by (destruct (formatLabel_cases f) as [[H ->]|[H ->]]; split; intros; try easy; lia).
  assert (A : formatLabel f = "ASCII STL" <-> byteLength (arrayBuffer f) <= 84)
    by (destruct (formatLabel_cases f) as [[H ->]|[H ->]]; split; intros; try easy; lia).
  split; [exact B|]. split; [exact A|].
  split; [|split; [|split; [|split; [|split]; reflexivity]]].
  - eexists. split; [reflexivity|]. cbn [formatCard].
    split; [reflexivity|]. split; [exact B|exact A].
  - intros cards Hc. now inversion Hc.
  - intros g Hg.
    destruct (formatLabel_cases f) as [[H ->]|[H ->]];
      destruct (formatLabel_cases g) as [[H' ->]|[H' ->]]; try reflexivity; lia.
Qed.

End StatsOverlayFacts.

(* ===================================================================== *)
(** * Properties of the file intake *)
(* ===================================================================== *)

Section FileUploadFacts.
Import FileUpload.

Lemma endsWith_unfold (s suffix : string) :
  endsWith s suffix =
  if String.eqb s suffix then true
  else match s with
       | EmptyString => false
       | String _ r => endsWith r suffix
       end.
Proof. destruct s; reflexivity. Qed.

Lemma endsWith_spec (s suffix : string) :
  endsWith s suffix = true <-> exists pre, s = (pre ++ suffix)%string.
Proof.
  split.
  - induction s as [|c r IH]; rewrite endsWith_unfold; intros H.
    + destruct (String.eqb_spec EmptyString suffix) as [E|E];
        [exists EmptyString; exact E | discriminate].
    + destruct (String.eqb_spec (String c r) suffix) as [E|E];
        [exists EmptyString; exact E|].
      destruct (IH H) as [pre Hp]. exists (String c pre). simpl. now rewrite <- Hp.
  - intros [pre ->]. induction pre as [|c p IH]; rewrite endsWith_unfold; cbn [append].
    + now rewrite String.eqb_refl.
    + destruct (String.eqb _ _); [reflexivity|exact IH].
Qed.

Lemma toLowerCase_app (a b : string) :
  toLowerCase (a ++ b)%string = (toLowerCase a ++ toLowerCase b)%string.
Proof. induction a as [|c a IH]; simpl; [reflexivity|now rewrite IH]. Qed.

Lemma toLowerCase_split (a b s : string) :
  toLowerCase s = (a ++ b)%string ->
  exists s1 s2, s = (s1 ++ s2)%string /\ toLowerCase s1 = a /\ toLowerCase s2 = b.
Proof.
  revert s. induction a as [|c a IH]; intros s H.
  - exists EmptyString, s. now simpl in *.
  - destruct s as [|d s]; simpl in H; [discriminate|].
    injection H as Hc Hs. destruct (IH _ Hs) as (s1 & s2 & -> & H1 & H2).
    exists (String d s1), s2. simpl. now rewrite Hc, H1.
Qed.

Ltac all_chars c :=
  destruct c as [[] [] [] [] [] [] [] []]; vm_compute.

Lemma lowerChar_dot c : lowerChar c = "."%char <-> c = "."%char.
Proof. all_chars c; split; intros H; first [reflexivity | discriminate H]. Qed.

Lemma lowerChar_letter (lo up c : ascii) :
  (lo = "s"%char /\ up = "S"%char) \/ (lo = "t"%char /\ up = "T"%char) \/
  (lo = "l"%char /\ up = "L"%char) ->
  lowerChar c = lo <-> isLetter lo up c.
Proof.
  unfold isLetter. intros [[-> ->]|[[-> ->]|[-> ->]]]; all_chars c;
    (split; [intros H; first [discriminate H | left; reflexivity | right; reflexivity]
            | intros [H|H]; first [discriminate H | reflexivity]]).
Qed.

Lemma accepts_spec (f : File) :
  accepts f = true <-> endsInStlAnyCase (fileName f).
Proof.
  unfold accepts, endsInStlAnyCase. rewrite endsWith_spec. split.
  - intros [pre H]. apply toLowerCase_split in H as (s1 & s2 & Hs & _ & H2).
    destruct s2 as [|d [|c1 [|c2 [|c3 [|? ?]]]]]; simpl in H2; try discriminate.
    injection H2 as Hd H1 H2 H3.
    apply lowerChar_dot in Hd as ->.
    exists s1, c1, c2, c3. split; [exact Hs|].
    repeat split; eapply lowerChar_letter; eauto.
  - intros (pre & c1 & c2 & c3 & -> & H1 & H2 & H3).
    exists (toLowerCase pre). rewrite toLowerCase_app. simpl.
    apply lowerChar_letter in H1, H2, H3; eauto.
    rewrite H1, H2, H3. reflexivity.
Qed.

(** C9 (amended). Of the files that a selection or a drop offers, only the
    first is looked at. It is forwarded to [onFileUpload] exactly when its
    name ends in ".stl" in any letter case; otherwise the handler makes no
    call that concerns a file, and no error call exists. No other file of
    the event is ever forwarded, whatever its name, and an event without
    files forwards nothing. *)
Theorem stl_extension_filter :
  forall (f : File) (others : list File),
    ((endsInStlAnyCase (fileName f) /\
      handleFileSelect (f :: others) = [OnFileUpload f] /\
      handleDrop (f :: others) = [PreventDefault; SetIsDragOver false; OnFileUpload f] /\
      forwarded (handleFileSelect (f :: others)) = [f] /\
      forwarded (handleDrop (f :: others)) = [f])
     \/
     (~ endsInStlAnyCase (fileName f) /\
      handleFileSelect (f :: others) = [] /\
      handleDrop (f :: others) = [PreventDefault; SetIsDragOver false] /\
      forwarded (handleFileSelect (f :: others)) = [] /\
      forwarded (handleDrop (f :: others)) = [])) /\
    (forall g, In g (forwarded (handleFileSelect (f :: others))) -> g = f) /\
    (forall g, In g (forwarded (handleDrop (f :: others))) -> g = f) /\
    handleFileSelect (f :: others) = handleFileSelect [f] /\
    handleDrop (f :: others) = handleDrop [f] /\
    handleFileSelect [] = [] /\
    handleDrop [] = [PreventDefault; SetIsDragOver false].
Proof.
  intros f others. split; [|split; [|split; [|now repeat split]]].
  - unfold handleFileSelect, handleDrop.
    destruct (accepts f) eqn:E.
    + left. split; [now apply accepts_spec|]. now repeat split.
    + right. split; [|now repeat split].
      intros H. apply accepts_spec in H. congruence.
  - unfold handleFileSelect. destruct (accepts f); cbn; intros g H; intuition.
  - unfold handleDrop. destruct (accepts f); cbn; intros g H; intuition.
Qed.

(** C9 as stated fails: a drop of two files whose second name ends in ".stl"
    forwards nothing, because the first name does not. *)
Lemma second_file_is_ignored_counterexample :
  endsInStlAnyCase (fileName {| fileName := "part.stl"; fileBytes := [] |}) /\
  ~ endsInStlAnyCase (fileName {| fileName := "notes.txt"; fileBytes := [] |}) /\
  forwarded (handleDrop [{| fileName := "notes.txt"; fileBytes := [] |};
                         {| fileName := "part.stl"; fileBytes := [] |}]) = [] /\
  forwarded (handleFileSelect [{| fileName := "notes.txt"; fileBytes := [] |};
                               {| fileName := "part.stl"; fileBytes := [] |}]) = [] /\
  forwarded (handleDrop [{| fileName := "part.stl"; fileBytes := [] |};
                         {| fileName := "notes.txt"; fileBytes := [] |}])
  = [{| fileName := "part.stl"; fileBytes := [] |}].
Proof.
  split; [apply accepts_spec; reflexivity|].
  split; [intros H; apply accepts_spec in H; discriminate H|].
  now repeat split.
Qed.

End FileUploadFacts.


(* ===================================================================== *)
(** * Properties of rounding *)
(* ===================================================================== *)

Section RoundingFacts.
Import Three.
Local Open Scope Q_scope.

Lemma pow2_pos (e : Z) : 0 < pow2 e.
Proof. apply Qpower_0_lt. reflexivity. Qed.


Lemma pow2_sub (a b : Z) : pow2 (a - b) == pow2 a / pow2 b.
Proof. apply Qpower_minus. discriminate. Qed.

Lemma pow2_Z (k : Z) : (0 <= k)%Z -> inject_Z (2 ^ k) == pow2 k.
Proof. intros H. now rewrite Zpower_Qpower. Qed.

Lemma pow2_le (a b : Z) : (a <= b)%Z -> pow2 a <= pow2 b.
Proof. intros H. apply Qpower_le_compat_l; [exact H|discriminate]. Qed.

Lemma Qmake_div (n : Z) (d : positive) : n # d == inject_Z n / inject_Z (Zpos d).
Proof. apply Qmake_Qdiv. Qed.

Lemma binade_le (a : Q) : 0 < a -> pow2 (binade a) <= a.
Proof.
  intros Ha. unfold binade.
  destruct (Qle_bool (pow2 (Z.log2 (Qnum a) - Z.log2 (Z.pos (Qden a)))) a) eqn:E.
  - now apply Qle_bool_iff.
  - clear E. destruct a as [n d]. cbn [Qnum Qden].
    assert (Hn : (0 < n)%Z) by (unfold Qlt in Ha; cbn in Ha; lia).
    pose proof (Z.log2_spec n Hn) as [Ln _].
    pose proof (Z.log2_spec (Z.pos d) eq_refl) as [_ Ld].
    pose proof (Z.log2_nonneg n) as Nn.
    pose proof (Z.log2_nonneg (Z.pos d)) as Nd.
    set (ln := Z.log2 n) in *. set (ld := Z.log2 (Z.pos d)) in *.
    replace (ln - ld - 1)%Z with (ln - (ld + 1))%Z by lia.
    rewrite pow2_sub, Qmake_div.
    assert (P1 : pow2 ln <= inject_Z n).
    { rewrite <- pow2_Z by exact Nn. now rewrite <- Zle_Qle. }
    assert (P2 : inject_Z (Z.pos d) <= pow2 (ld + 1)).
    { rewrite <- pow2_Z by lia. rewrite <- Zle_Qle. lia. }
    assert (P3 : 0 < inject_Z (Z.pos d)) by (rewrite <- (Zlt_Qlt 0); reflexivity).
    pose proof (pow2_pos ln) as P4. pose proof (pow2_pos (ld + 1)) as P5.
    apply Qle_shift_div_l; [exact P3|].
    unfold Qdiv. rewrite <- Qmult_assoc, (Qmult_comm (/ _)), Qmult_assoc.
    apply Qle_shift_div_r; [exact P5|].
    apply Qle_trans with (inject_Z n * inject_Z (Z.pos d)).
    + apply Qmult_le_compat_r; [exact P1|now apply Qlt_le_weak].
    + rewrite !(Qmult_comm (inject_Z n)).
      apply Qmult_le_compat_r; [exact P2|].
      rewrite <- (Zle_Qle 0). lia.
Qed.


Lemma nearestEven_nonneg (y : Q) : 0 <= y -> (0 <= nearestEven y)%Z.
Proof.
  intros H. unfold nearestEven.
  assert (F : (0 <= Qfloor y)%Z).
  { change 0%Z with (Qfloor 0). now apply Qfloor_resp_le. }
  destruct (Qcompare (y - inject_Z (Qfloor y)) (1 # 2)); [destruct (Z.even _)| |]; lia.
Qed.

Lemma roundTo_zero (fmt : Format) (q : Q) : q == 0 -> roundTo fmt q = Fin 0.
Proof.
  intros H. unfold roundTo. destruct q as [n d]. unfold Qeq in H. cbn in H.
  assert (n = 0%Z) by lia. subst n. reflexivity.
Qed.




Lemma binade_lt (a : Q) : 0 < a -> a < pow2 (binade a + 1).
Proof.
  intros Ha. unfold binade.
  destruct a as [n d].
  assert (Hn : (0 < n)%Z) by (unfold Qlt in Ha; cbn in Ha; lia).
  cbn [Qnum Qden].
  pose proof (Z.log2_spec n Hn) as [Ln Un].
  pose proof (Z.log2_spec (Z.pos d) eq_refl) as [Ld Ud].
  pose proof (Z.log2_nonneg n) as Nn.
  pose proof (Z.log2_nonneg (Z.pos d)) as Nd.
  set (ln := Z.log2 n) in *. set (ld := Z.log2 (Z.pos d)) in *.
  assert (P3 : 0 < inject_Z (Z.pos d)) by (rewrite <- (Zlt_Qlt 0); reflexivity).
  destruct (Qle_bool (pow2 (ln - ld)) (n # d)) eqn:E.
  - replace (ln - ld + 1)%Z with ((ln + 1) - ld)%Z by lia.
    rewrite pow2_sub, Qmake_div.
    assert (P1 : inject_Z n < pow2 (ln + 1)).
    { rewrite <- pow2_Z by lia. rewrite <- Zlt_Qlt. lia. }
    assert (P2 : pow2 ld <= inject_Z (Z.pos d)).
    { rewrite <- pow2_Z by exact Nd. now rewrite <- Zle_Qle. }
    pose proof (pow2_pos ld) as P4. pose proof (pow2_pos (ln + 1)) as P5.
    apply Qlt_shift_div_r; [exact P3|].
    unfold Qdiv. rewrite <- Qmult_assoc, (Qmult_comm (/ _)), Qmult_assoc.
    apply Qlt_shift_div_l; [exact P4|].
    apply Qlt_le_trans with (pow2 (ln + 1) * pow2 ld).
    + apply Qmult_lt_compat_r; [exact P4|exact P1].
    + rewrite !(Qmult_comm (pow2 (ln + 1))).
      apply Qmult_le_compat_r; [exact P2|now apply Qlt_le_weak].
  - replace (ln - ld - 1 + 1)%Z with (ln - ld)%Z by lia.
    apply Qnot_le_lt. intros H. apply Qle_bool_iff in H. congruence.
Qed.

(** [binade a] is the exponent of the binade of [a]. *)
Lemma binade_spec (a : Q) :
  0 < a -> pow2 (binade a) <= a < pow2 (binade a + 1).
Proof. intros Ha. split; [now apply binade_le|now apply binade_lt]. Qed.

(** Rounding on known values: 1/3 and 1/10 as singles, 1/10 as a double,
    ties to even at [2 ^ 24 + 1] and at half the least subnormal, overflow
    at the midpoint above the greatest single. *)
Example roundTo_samples :
  roundTo binary32 (1 # 3) = Fin (11184811 # 33554432) /\
  roundTo binary32 (1 # 10) = Fin (13421773 # 134217728) /\
  roundTo binary64 (1 # 10) = Fin (3602879701896397 # 36028797018963968) /\
  roundTo binary32 (-16777217 # 1) = Fin (-16777216 # 1) /\
  roundTo binary32 (16777219 # 1) = Fin (16777220 # 1) /\
  roundTo binary32 (pow2 (-150)) = Fin 0 /\
  roundTo binary32 (3 * pow2 (-150)) = Fin (pow2 (-148)) /\
  roundTo binary32 (pow2 128 - pow2 104)
  = Fin (340282346638528859811704183484516925440 # 1) /\
  roundTo binary32 (pow2 128 - pow2 103) = PInf /\
  roundTo binary64 (- pow2 1024) = NInf.
Proof. vm_compute. repeat split. Qed.





End RoundingFacts.

(* ===================================================================== *)
(** * Properties of the normalisation step of [loadSTL] *)
(* ===================================================================== *)

Section NormalizeFacts.
Import Three STLViewer Bounds.
Local Open Scope Q_scope.

Lemma fold_expand (ps : list Vector3) (b : Box3) :
  fold_left expandByPoint ps b =
  {| bmin := vec (fold_left nmin (map vx ps) (vx (bmin b)))
                 (fold_left nmin (map vy ps) (vy (bmin b)))
                 (fold_left nmin (map vz ps) (vz (bmin b)));
     bmax := vec (fold_left nmax (map vx ps) (vx (bmax b)))
                 (fold_left nmax (map vy ps) (vy (bmax b)))
                 (fold_left nmax (map vz ps) (vz (bmax b))) |}.
Proof.
  revert b. induction ps as [|p ps IH]; intros b.
  - destruct b as [[] []]; reflexivity.
  - simpl. rewrite IH. reflexivity.
Qed.







Lemma axes_pointsFinite (ps : list Vector3) :
  allFinite (map vx ps) -> allFinite (map vy ps) -> allFinite (map vz ps) ->
  pointsFinite ps.
Proof.
  induction ps as [|p ps IH]; simpl; intros Hx Hy Hz; [constructor|].
  inversion Hx; inversion Hy; inversion Hz; subst.
  constructor; [|now apply IH].
  unfold vecFinite. now repeat (apply andb_true_intro; split).
Qed.


























End NormalizeFacts.

(* ===================================================================== *)
(** * Reduction of component states

    The setters rebuild the whole record, so the reductions below run with
    sharing and unfold the component's own definitions only. *)
(* ===================================================================== *)

Import Stl Three STLViewer.

Ltac st_red :=
  lazy beta iota zeta delta
    [isInitialized canvasRef sceneRef cameraRef rendererRef controlsRef meshRef
     wireframeRef normalsHelperRef gridHelperRef axesHelperRef animationFrameRef
     heap frameQueue nextFrameId resizeListeners trace
     set_isInitialized set_canvasRef set_sceneRef set_cameraRef set_rendererRef
     set_controlsRef set_meshRef set_wireframeRef set_normalsHelperRef
     set_gridHelperRef set_axesHelperRef set_animationFrameRef set_heap
     set_frameQueue set_nextFrameId set_resizeListeners set_trace
     children background envInitialized envControls envFile
     emit newObject modifyObject sceneAdd sceneRemove setBackground
     cancelAnimationFrame animate initThreeJS initEffect cleanup disposeMesh
     disposeWireframe disposeNormals rerunInitEffect onRef controlsEffect
     traverseLights releases
     mbind M_bind mret M_ret raise run tryCatch step addToScene parseStep
     clearMesh clearWireframe clearNormals newMesh newWireframe newNormals
     resetCamera loadBody reportFailure loadSTL loadEffect loadOutcome
     sceneChildren present removeRef clearEvents installEvents cameraEvents
     afterLoad altRef appliedHeap fst snd negb orb andb].

Ltac st_proj :=
  lazy beta iota zeta delta
    [isInitialized canvasRef sceneRef cameraRef rendererRef controlsRef meshRef
     wireframeRef normalsHelperRef gridHelperRef axesHelperRef animationFrameRef
     heap frameQueue nextFrameId resizeListeners trace
     set_isInitialized set_canvasRef set_sceneRef set_cameraRef set_rendererRef
     set_controlsRef set_meshRef set_wireframeRef set_normalsHelperRef
     set_gridHelperRef set_axesHelperRef set_animationFrameRef set_heap
     set_frameQueue set_nextFrameId set_resizeListeners set_trace
     children background emit present negb orb andb].

(* ===================================================================== *)
(** * Properties of the viewer: initialisation, the frame loop, teardown *)
(* ===================================================================== *)

Section LifecycleFacts.
Import Stl Three STLViewer Samples.

Lemma cleanup_shape (st : State) :
  cleanup st =
  set_trace (trace st ++ [RemoveResizeListener; CancelFrame (animationFrameRef st)]
               ++ releases st)
    (set_frameQueue (filter (fun cb => fst cb <> animationFrameRef st) (frameQueue st))
       (set_resizeListeners (pred (resizeListeners st)) st)).
Proof.
  destruct st as [i cv sc cam ren ctl m w n g x af h q nf rl t].
  destruct ctl, ren, m, w, n; st_red; rewrite <- ?app_assoc; reflexivity.
Qed.

Lemma releases_are_releases (st : State) :
  forallb isRelease (releases st) = true.
Proof.
  unfold releases.
  destruct (controlsRef st), (rendererRef st), (meshRef st), (wireframeRef st),
    (normalsHelperRef st); reflexivity.
Qed.

Lemma loopInv_filter (st : State) :
  loopInv st = true ->
  filter (fun cb => fst cb <> animationFrameRef st) (frameQueue st) = [].
Proof.
  unfold loopInv. destruct (frameQueue st) as [|cb [|cb' q]]; intros H.
  - reflexivity.
  - apply Nat.eqb_eq in H. rewrite filter_cons.
    destruct (decide (fst cb <> animationFrameRef st)); [congruence|reflexivity].
  - discriminate.
Qed.

Lemma set_frameQueue_same (st : State) : set_frameQueue (frameQueue st) st = st.
Proof. now destruct st. Qed.

Lemma runFrame_idle (st : State) : frameQueue st = [] -> runFrame st = st.
Proof.
  intros H. unfold runFrame. rewrite H. cbn [fold_left].
  rewrite <- H. apply set_frameQueue_same.
Qed.

Lemma runFrames_idle (n : nat) (st : State) :
  frameQueue st = [] -> runFrames n st = st.
Proof.
  intros H. induction n as [|n IH]; cbn [runFrames]; [reflexivity|].
  now rewrite runFrame_idle.
Qed.

(** C4. Teardown cancels the pending frame callback first and releases
    resources afterwards: the calls it makes are the listener removal, one
    [cancelAnimationFrame] on the stored handle, and then only release
    calls. No callback is left pending, so no later display refresh runs
    [animate] or renders. *)
Theorem teardown_cancels_before_release :
  forall st : State,
    loopInv st = true ->
    trace (cleanup st) =
      trace st ++ [RemoveResizeListener; CancelFrame (animationFrameRef st)]
               ++ releases st /\
    forallb isRelease (releases st) = true /\
    frameQueue (cleanup st) = [] /\
    forall n, runFrames n (cleanup st) = cleanup st.
Proof.
  intros st Hinv.
  assert (Hq : frameQueue (cleanup st) = []).
  { rewrite cleanup_shape. st_red. now apply loopInv_filter. }
  split; [now rewrite cleanup_shape|].
  split; [apply releases_are_releases|].
  split; [exact Hq|].
  intros n. now apply runFrames_idle.
Qed.

Lemma teardown_cancels_before_release_witness :
  loopInv populated = true /\
  trace (cleanup populated) =
    trace populated ++ [RemoveResizeListener; CancelFrame 1;
                        ControlsDispose; RendererDispose;
                        DisposeGeometry 4; DisposeMaterial 4;
                        DisposeGeometry 5; DisposeMaterial 5; DisposeHelper 6] /\
  runFrames 3 (cleanup populated) = cleanup populated.
Proof.
  split; [reflexivity|].
  destruct (teardown_cancels_before_release populated eq_refl) as (Ht & _ & _ & Hn).
  split; [exact Ht|apply Hn].
Defined.

Lemma initThreeJS_guard (r : Env) (st : State) :
  envInitialized r = true -> initThreeJS r st = st.
Proof. intros H. unfold initThreeJS. rewrite H. now rewrite orb_true_r. Qed.

Lemma animate_queue (c : ViewerControls) (st : State) :
  frameQueue (animate c st) = frameQueue st ++ [(nextFrameId st, c)] /\
  animationFrameRef (animate c st) = nextFrameId st /\
  nextFrameId (animate c st) = S (nextFrameId st).
Proof.
  destruct st as [i cv sc cam ren ctl m w n g x af h q nf rl t].
  unfold animate.
  destruct m; [destruct (Qlt_le_dec 0 (rotationSpeed c))|];
    destruct ctl, ren, cam, sc; st_red; repeat split; reflexivity.
Qed.

(** The frame loop keeps itself alive without multiplying. *)
Lemma loopInv_runFrame (st : State) :
  loopInv st = true -> loopInv (runFrame st) = true.
Proof.
  unfold loopInv at 1. destruct (frameQueue st) as [|cb [|cb' q]] eqn:E; intros H.
  - now rewrite runFrame_idle; [unfold loopInv; rewrite E|].
  - unfold runFrame. rewrite E. cbn [fold_left].
    destruct (animate_queue (snd cb) (set_frameQueue [] st)) as (Hq & Hr & _).
    unfold loopInv. rewrite Hq, Hr.
    replace (frameQueue (set_frameQueue [] st)) with (@nil (nat * ViewerControls))
      by now destruct st.
    cbn [app fst]. apply Nat.eqb_refl.
  - discriminate.
Qed.

Lemma frameQueue_set_isInitialized (v : bool) (st : State) :
  frameQueue (set_isInitialized v st) = frameQueue st.
Proof. reflexivity. Qed.

Lemma ref_set_isInitialized (v : bool) (st : State) :
  animationFrameRef (set_isInitialized v st) = animationFrameRef st.
Proof. reflexivity. Qed.

(** Initialising a fresh component starts exactly one loop. *)
Lemma loopInv_initThreeJS (r : Env) (st : State) :
  frameQueue st = [] -> loopInv (initThreeJS r st) = true.
Proof.
  intros Hq. unfold initThreeJS.
  destruct (negb (canvasRef st) || envInitialized r).
  - unfold loopInv. now rewrite Hq.
  - lazy beta iota zeta delta [newObject].
    match goal with
    | |- loopInv (set_isInitialized true (animate ?c ?s)) = true =>
        destruct (animate_queue c s) as (Ha & Hb & _);
        assert (Hs : frameQueue s = []) by exact Hq
    end.
    unfold loopInv. rewrite frameQueue_set_isInitialized, ref_set_isInitialized.
    rewrite Ha, Hb, Hs. cbn [app fst]. apply Nat.eqb_refl.
Qed.

Lemma forallb_app_true {A : Type} (p : A -> bool) (l1 l2 : list A) :
  forallb p l1 = true -> forallb p l2 = true -> forallb p (l1 ++ l2) = true.
Proof. intros H1 H2. rewrite forallb_app. now rewrite H1, H2. Qed.

(** C7. Initialising again while [isInitialized] holds changes nothing: no
    scene, camera, renderer, controller or object is constructed and no
    frame is requested. Re-running the whole effect in that state
    constructs nothing either, requests no frame, and leaves one resize
    listener where there was one. *)
Theorem initialize_again_is_noop :
  forall (c : ViewerControls) (f : option STLFile) (st : State),
    isInitialized st = true ->
    0 < resizeListeners st ->
    initThreeJS (renderEnv c f st) st = st /\
    (exists calls,
        trace (rerunInitEffect (renderEnv c f st) st) = trace st ++ calls /\
        forallb (fun e => negb (isCreation e)) calls = true) /\
    length (frameQueue (rerunInitEffect (renderEnv c f st) st))
      <= length (frameQueue st) /\
    resizeListeners (rerunInitEffect (renderEnv c f st) st) = resizeListeners st /\
    sceneRef (rerunInitEffect (renderEnv c f st) st) = sceneRef st /\
    heap (rerunInitEffect (renderEnv c f st) st) = heap st.
Proof.
  intros c f st Hi Hl.
  assert (Hr : envInitialized (renderEnv c f st) = true) by exact Hi.
  split; [now apply initThreeJS_guard|].
  unfold rerunInitEffect, initEffect.
  rewrite (initThreeJS_guard _ (cleanup st) Hr), cleanup_shape.
  destruct st as [i cv sc cam ren ctl m w n g x af h q nf rl t].
  cbn [resizeListeners] in Hl.
  split; [|split; [|split; [|split]]].
  - exists ([RemoveResizeListener; CancelFrame af]
            ++ releases (mkState i cv sc cam ren ctl m w n g x af h q nf rl t)
            ++ [AddResizeListener]).
    split; [st_red; now rewrite <- !app_assoc|].
    apply forallb_app_true; [reflexivity|].
    apply forallb_app_true; [|reflexivity].
    destruct ctl, ren, m, w, n; reflexivity.
  - st_red. apply length_filter.
  - st_red. lia.
  - reflexivity.
  - reflexivity.
Qed.

Lemma initialize_again_is_noop_witness :
  isInitialized populated = true /\
  initThreeJS (renderEnv spinControls None populated) populated = populated.
Proof.
  split; [reflexivity|].
  apply (initialize_again_is_noop spinControls None populated eq_refl).
  vm_compute. lia.
Defined.

End LifecycleFacts.

(* ===================================================================== *)
(** * Properties of the animation callback *)
(* ===================================================================== *)

Section AnimateFacts.
Import Stl Three STLViewer Samples.

(** A tick turns the mesh by the speed that the callback captured, and queues
    the next tick with the same captured controls. *)
Lemma animate_rotation (c : ViewerControls) (st : State) (m : addr) (o : Object3D) :
  meshRef st = Some m -> heap st !! m = Some o ->
  heap (animate c st) !! m =
    Some (if Qlt_le_dec 0 (rotationSpeed c)
          then set_rotationY (rotationY o + rotationSpeed c * (1 # 100)) o
          else o) /\
  frameQueue (animate c st) = frameQueue st ++ [(nextFrameId st, c)].
Proof.
  intros Hm Ho. split; [|apply animate_queue].
  destruct st as [i cv sc cam ren ctl m' w n g x af h q nf rl t].
  cbn [meshRef heap] in Hm, Ho. subst m'. unfold animate.
  destruct (Qlt_le_dec 0 (rotationSpeed c)); destruct ctl, ren, cam, sc; st_red;
    first [ rewrite list_lookup_alter_eq, Ho; reflexivity | exact Ho ].
Qed.

(** Every tick re-queues the callback with the controls it was created
    with: the loop never picks up another control state. *)
Lemma loop_keeps_captured_controls (c : ViewerControls) (st : State) :
  Forall (fun cb : nat * ViewerControls => snd cb = c) (frameQueue st) ->
  Forall (fun cb : nat * ViewerControls => snd cb = c) (frameQueue (runFrame st)).
Proof.
  intros H. unfold runFrame.
  assert (G : forall q s,
             Forall (fun cb : nat * ViewerControls => snd cb = c) q ->
             Forall (fun cb : nat * ViewerControls => snd cb = c) (frameQueue s) ->
             Forall (fun cb : nat * ViewerControls => snd cb = c)
               (frameQueue (fold_left (fun s cb => animate (snd cb) s) q s))).
  { induction q as [|cb q IH]; intros s Hq Hs; cbn [fold_left]; [exact Hs|].
    apply Forall_cons in Hq as [Hcb Hq]. apply IH; [exact Hq|].
    destruct (animate_queue (snd cb) s) as (-> & _ & _).
    apply Forall_app. split; [exact Hs|]. now repeat constructor. }
  apply G; [exact H|]. replace (frameQueue (set_frameQueue [] st))
    with (@nil (nat * ViewerControls)) by now destruct st.
  constructor.
Qed.

(** The re-render that follows [setIsInitialized(true)] re-runs the init
    effect, whose cleanup cancels the loop that [initThreeJS] had started;
    nothing starts it again. *)
Lemma rerender_stops_the_loop :
  frameQueue initialized = [(1, defaultControls)] /\
  frameQueue (rerunInitEffect readyEnv initialized) = [] /\
  forall n, runFrames n (rerunInitEffect readyEnv initialized)
            = rerunInitEffect readyEnv initialized.
Proof.
  split; [vm_compute; reflexivity|].
  assert (H : frameQueue (rerunInitEffect readyEnv initialized) = [])
    by (vm_compute; reflexivity).
  split; [exact H|].
  intros n. apply runFrames_idle, H.
Qed.

(** C6 (the code departs from the claim). The frame callback is created once,
    by [initThreeJS] at the mount, and reads the controls of that render
    (rotation speed 0). With a mesh displayed and the applied control state at
    speed 5, running that callback leaves the rotation at 0 instead of
    advancing it by 5 * 0.01; besides, no callback is pending any more. *)
Theorem rotation_ignores_applied_speed :
  frameQueue initialized = [(1, defaultControls)] /\
  meshRef spinning = Some 7 /\ In 7 (sceneChildren spinning) /\
  rotationSpeed (envControls spinEnv) = 5%Q /\
  rotationY <$> heap spinning !! 7 = Some 0%Q /\
  rotationY <$> heap (animate defaultControls spinning) !! 7 = Some 0%Q /\
  rotationY <$> heap (runFrame spinning) !! 7 = Some 0%Q /\
  frameQueue spinning = [] /\
  ~ (0 == 0 + 5 * (1 # 100))%Q.
Proof.
  repeat match goal with |- _ /\ _ => split end;
    try (vm_compute; reflexivity).
  - vm_compute. tauto.
  - intros H. discriminate H.
Qed.

End AnimateFacts.

(* ===================================================================== *)
(** * Properties of loading: failures *)
(* ===================================================================== *)

Section LoadFailureFacts.
Import Stl Three STLViewer Samples.

Variable parse : list byte -> option BufferGeometry.
Variable throws : Step -> bool.

Lemma trace_emit (e : Event) (st : State) : trace (emit e st) = trace st ++ [e].
Proof. reflexivity. Qed.

Lemma errors_emit (e : Event) (st : State) :
  errorsReported (emit e st) = (if isOnError e then 1 else 0) + errorsReported st.
Proof.
  unfold errorsReported. rewrite trace_emit, List.filter_app, length_app.
  cbn [List.filter]. destruct (isOnError e); cbn [length]; lia.
Qed.


Lemma errors_sceneAdd (a : addr) (st : State) :
  errorsReported (sceneAdd a st) = errorsReported st.
Proof.
  unfold sceneAdd. destruct (sceneRef st); [|reflexivity]. now rewrite errors_emit.
Qed.

Lemma quiet_ret {A : Type} (a : A) : quiet (mret a).
Proof. intros st. reflexivity. Qed.

Lemma quiet_raise {A : Type} : quiet (@raise A).
Proof. intros st. reflexivity. Qed.


Lemma quiet_step (s : Step) : quiet (step throws s).
Proof. intros st. unfold step. now destruct (throws s). Qed.


Lemma quiet_addToScene (a : addr) : quiet (addToScene a).
Proof.
  intros st. unfold addToScene. destruct (sceneRef st) eqn:E; [|reflexivity].
  cbn [fst]. apply errors_sceneAdd.
Qed.

Lemma quiet_newObject (o : Object3D) :
  quiet (fun st => let '(a, st') := newObject o st in (st', Some a)).
Proof. intros st. unfold newObject. cbn [fst]. now rewrite errors_emit. Qed.

Create HintDb quiet.
#[local] Hint Resolve quiet_ret quiet_raise quiet_step quiet_addToScene
  quiet_newObject : quiet.



(** A failure before the clearing step leaves the component as it was. *)
Lemma early_failure_body (c : ViewerControls) (f : STLFile) (st : State) :
  throws AtParse = true \/ parse (arrayBuffer f) = None \/
  throws AtCenter = true \/ throws AtScale = true ->
  loadBody parse throws c f st = (st, None).
Proof.
  intros H. unfold loadBody, parseStep, step, mbind, M_bind, mret, M_ret, raise.
  destruct (throws AtParse); [reflexivity|].
  destruct (parse (arrayBuffer f)); [|reflexivity].
  destruct (throws AtCenter); [reflexivity|].
  destruct (throws AtScale); [reflexivity|].
  destruct H as [H|[H|[H|H]]]; discriminate.
Qed.


(** The outcome of the [try] block: it raises, or it leaves [afterLoad]. *)
Lemma loadBody_cases (c : ViewerControls) (f : STLFile) (st : State) (sc : Scene) :
  sceneRef st = Some sc ->
  (exists st', loadBody parse throws c f st = (st', None)) \/
  (exists g, parse (arrayBuffer f) = Some g /\
             loadBody parse throws c f st
             = (afterLoad c (normalizeGeometry g) sc st, Some tt)).
Proof.
  intros Hsc.
  destruct st as [i cv sc' cam ren ctl m w n gh x af h q nf rl t].
  cbn [sceneRef] in Hsc. subst sc'.
  unfold loadBody, parseStep, clearMesh, clearWireframe, clearNormals,
    newMesh, newWireframe, newNormals, resetCamera, normalizeGeometry, step.
  destruct (throws AtParse); [left; st_red; eexists; reflexivity|].
  destruct (parse (arrayBuffer f)) as [g|]; [|left; st_red; eexists; reflexivity].
  destruct (throws AtCenter); [left; st_red; eexists; reflexivity|].
  destruct (throws AtScale); [left; st_red; eexists; reflexivity|].
  destruct (throws AtClearMesh); [left; st_red; eexists; reflexivity|].
  destruct (throws AtClearWireframe);
    [left; destruct m; st_red; eexists; reflexivity|].
  destruct (throws AtClearNormals);
    [left; destruct m, w; st_red; eexists; reflexivity|].
  destruct (throws AtNewMesh);
    [left; destruct m, w, n; st_red; eexists; reflexivity|].
  destruct (throws AtNewWireframe);
    [left; destruct m, w, n; st_red; eexists; reflexivity|].
  destruct (throws AtNewNormals);
    [left; destruct m, w, n; st_red; eexists; reflexivity|].
  destruct (throws AtCamera);
    [left; destruct m, w, n; st_red; eexists; reflexivity|].
  right. exists g. split; [reflexivity|].
  destruct m, w, n, cam, ctl; st_red;
    rewrite ?length_app; cbn [length]; rewrite ?Nat.add_1_r, <- ?app_assoc;
    reflexivity.
Qed.

End LoadFailureFacts.

(* ===================================================================== *)
(** * Properties of loading: the displayed set *)
(* ===================================================================== *)

Section LoadSuccessFacts.
Import Stl Three STLViewer Samples.

Variable parse : list byte -> option BufferGeometry.

Lemma load_success (throws : Step -> bool) (r : Env) (st : State) :
  loadOutcome parse throws r st = Some true ->
  exists f g sc,
    envFile r = Some f /\ parse (arrayBuffer f) = Some g /\ sceneRef st = Some sc /\
    loadEffect parse throws r st
    = afterLoad (envControls r) (normalizeGeometry g) sc st.
Proof.
  unfold loadOutcome, loadEffect, loadSTL, tryCatch.
  destruct (sceneRef st) as [sc|] eqn:Hsc; [|discriminate].
  destruct (envFile r) as [f|]; [|discriminate].
  destruct (envInitialized r); [|discriminate].
  destruct (loadBody_cases parse throws (envControls r) f st sc Hsc)
    as [[st' H]|[g [P H]]]; rewrite H; cbn [fst snd]; [discriminate|].
  intros _. exists f, g, sc. now repeat split.
Qed.

Lemma removeFirst_elem (a x : nat) (l : list nat) :
  x ∈ removeFirst a l -> x ∈ l.
Proof.
  induction l as [|b l IH]; cbn [removeFirst]; [easy|].
  destruct (Nat.eqb a b); rewrite ?elem_of_cons; intuition.
Qed.

Lemma removeFirst_NoDup (a : nat) (l : list nat) :
  NoDup l -> NoDup (removeFirst a l).
Proof.
  induction l as [|b l IH]; cbn [removeFirst]; [easy|].
  rewrite NoDup_cons. intros [Hb Hl].
  destruct (Nat.eqb a b); [exact Hl|].
  rewrite NoDup_cons. split; [|now apply IH].
  intros H. apply Hb. now apply removeFirst_elem in H.
Qed.

Lemma removeFirst_gone (a : nat) (l : list nat) :
  NoDup l -> a ∉ removeFirst a l.
Proof.
  induction l as [|b l IH]; cbn [removeFirst]; [intros _; apply not_elem_of_nil|].
  rewrite NoDup_cons. intros [Hb Hl].
  destruct (Nat.eqb_spec a b) as [->|Hne]; [exact Hb|].
  rewrite not_elem_of_cons. split; [exact Hne|now apply IH].
Qed.

Lemma removeRef_elem (ref : option nat) (x : nat) (l : list nat) :
  x ∈ removeRef ref l -> x ∈ l.
Proof. destruct ref; [apply removeFirst_elem|easy]. Qed.

Lemma removeRef_NoDup (ref : option nat) (l : list nat) :
  NoDup l -> NoDup (removeRef ref l).
Proof. destruct ref; [apply removeFirst_NoDup|easy]. Qed.

Lemma removeRef_gone (ref : option nat) (x : nat) (l : list nat) :
  NoDup l -> refersTo ref x = true -> x ∉ removeRef ref l.
Proof.
  destruct ref as [a|]; cbn [refersTo removeRef]; [|discriminate].
  intros Hl Hx. apply Nat.eqb_eq in Hx. subst. now apply removeFirst_gone.
Qed.

(** What the invariant says about one child. *)
Lemma sceneInv_child (st : State) (x : nat) :
  sceneInv st = true -> x ∈ sceneChildren st ->
  exists o, heap st !! x = Some o /\
            (cls o = Mesh -> refersTo (meshRef st) x = true) /\
            (cls o = LineSegments -> refersTo (wireframeRef st) x = true) /\
            (cls o = VertexNormalsHelper -> refersTo (normalsHelperRef st) x = true).
Proof.
  unfold sceneInv. rewrite andb_true_iff, forallb_forall. intros [H _] Hx.
  specialize (H x (proj1 (list_elem_of_In _ _) Hx)).
  unfold childOk, classAt in H. destruct (heap st !! x) as [o|]; [|discriminate].
  exists o. split; [reflexivity|]. cbn [fmap option_fmap option_map] in H.
  destruct (cls o); repeat split; intros; try discriminate; exact H.
Qed.

Lemma sceneInv_NoDup (st : State) :
  sceneInv st = true -> NoDup (sceneChildren st).
Proof.
  unfold sceneInv. rewrite andb_true_iff. intros [_ H].
  now apply bool_decide_eq_true in H.
Qed.

Lemma filter_none {A : Type} (p : A -> bool) (l : list A) :
  (forall x, In x l -> p x = false) -> List.filter p l = [].
Proof.
  induction l as [|x l IH]; cbn [List.filter]; intros H; [reflexivity|].
  rewrite (H x (or_introl eq_refl)). apply IH. intros y Hy. apply H. now right.
Qed.

Section AfterLoad.
Variables (c : ViewerControls) (g : BufferGeometry) (sc : Scene) (st : State).
Hypothesis Hsc : sceneRef st = Some sc.
Hypothesis Hinv : sceneInv st = true.

Let kept : list nat :=
  removeRef (normalsHelperRef st)
    (removeRef (wireframeRef st) (removeRef (meshRef st) (children sc))).

Let st' : State := afterLoad c g sc st.

Lemma afterLoad_children :
  sceneChildren st' = kept ++ [length (heap st); S (length (heap st)); S (S (length (heap st)))].
Proof. reflexivity. Qed.

Lemma afterLoad_new_classes :
  classAt st' (length (heap st)) = Some Mesh /\
  classAt st' (S (length (heap st))) = Some LineSegments /\
  classAt st' (S (S (length (heap st)))) = Some VertexNormalsHelper.
Proof.
  unfold classAt, st', afterLoad. cbn [heap].
  rewrite !lookup_app_r by lia.
  replace (length (heap st) - length (heap st)) with 0 by lia.
  replace (S (length (heap st)) - length (heap st)) with 1 by lia.
  replace (S (S (length (heap st))) - length (heap st)) with 2 by lia.
  now repeat split.
Qed.

(** A child that survives the clearing step is none of the three kinds. *)
Lemma afterLoad_kept (x : nat) :
  x ∈ kept ->
  x < length (heap st) /\
  exists k, classAt st' x = Some k /\ classAt st x = Some k /\
            k <> Mesh /\ k <> LineSegments /\ k <> VertexNormalsHelper.
Proof.
  intros Hx.
  assert (Hch : sceneChildren st = children sc) by (unfold sceneChildren; now rewrite Hsc).
  pose proof (sceneInv_NoDup st Hinv) as Hnd. rewrite Hch in Hnd.
  assert (H3 : x ∈ removeRef (wireframeRef st) (removeRef (meshRef st) (children sc)))
    by (eapply removeRef_elem; exact Hx).
  assert (H2 : x ∈ removeRef (meshRef st) (children sc))
    by (eapply removeRef_elem; exact H3).
  assert (H1 : x ∈ children sc) by (eapply removeRef_elem; exact H2).
  destruct (sceneInv_child st x Hinv) as (o & Ho & Hm & Hw & Hn);
    [now rewrite Hch|].
  split; [now apply lookup_lt_Some in Ho|].
  exists (cls o). unfold classAt, st', afterLoad. cbn [heap].
  rewrite (lookup_app_l_Some _ _ _ _ Ho), Ho. cbn [fmap option_fmap option_map].
  split; [reflexivity|]. split; [reflexivity|].
  split; [|split]; intros Hk.
  - apply (removeRef_gone (meshRef st) x (children sc) Hnd (Hm Hk)), H2.
  - apply (removeRef_gone (wireframeRef st) x _
             (removeRef_NoDup (meshRef st) _ Hnd) (Hw Hk)), H3.
  - apply (removeRef_gone (normalsHelperRef st) x _
             (removeRef_NoDup (wireframeRef st) _
                (removeRef_NoDup (meshRef st) _ Hnd)) (Hn Hk)), Hx.
Qed.

Lemma afterLoad_counts :
  countClass Mesh st' = 1 /\ countClass LineSegments st' = 1 /\
  countClass VertexNormalsHelper st' = 1.
Proof.
  destruct afterLoad_new_classes as (Em & Ew & En).
  assert (Hnone : forall k, k = Mesh \/ k = LineSegments \/ k = VertexNormalsHelper ->
            List.filter (fun a => match classAt st' a with
                                  | Some k' => Class_eqb k' k
                                  | None => false
                                  end) kept = []).
  { intros k Hk. apply filter_none. intros x Hx.
    apply list_elem_of_In in Hx.
    destruct (afterLoad_kept x Hx) as (_ & k' & Ek & _ & N1 & N2 & N3).
    rewrite Ek.
    destruct Hk as [Hk|[Hk|Hk]]; subst k; destruct k'; try reflexivity; congruence. }
  unfold countClass. rewrite afterLoad_children, !List.filter_app.
  rewrite !Hnone by tauto. cbn [List.filter app]. rewrite Em, Ew, En.
  now repeat split.
Qed.

Lemma afterLoad_sceneInv : sceneInv st' = true.
Proof.
  destruct afterLoad_new_classes as (Em & Ew & En).
  assert (Hch : sceneChildren st = children sc) by (unfold sceneChildren; now rewrite Hsc).
  pose proof (sceneInv_NoDup st Hinv) as Hnd. rewrite Hch in Hnd.
  unfold sceneInv. rewrite afterLoad_children. apply andb_true_intro. split.
  - rewrite forallb_app. apply andb_true_intro. split.
    + apply forallb_forall. intros x Hx. apply list_elem_of_In in Hx.
      destruct (afterLoad_kept x Hx) as (_ & k & Ek & _ & N1 & N2 & N3).
      unfold childOk. rewrite Ek. destruct k; try reflexivity; congruence.
    + cbn [forallb]. unfold childOk. rewrite Em, Ew, En.
      unfold st', afterLoad. cbn [meshRef wireframeRef normalsHelperRef refersTo].
      now rewrite !Nat.eqb_refl.
  - apply bool_decide_eq_true. apply NoDup_app. split; [|split].
    + unfold kept. now repeat apply removeRef_NoDup.
    + intros x Hx. destruct (afterLoad_kept x Hx) as (Hlt & _).
      rewrite !not_elem_of_cons. repeat split; try lia. apply not_elem_of_nil.
    + rewrite !NoDup_cons, !not_elem_of_cons. repeat split; try lia;
        try apply not_elem_of_nil. apply NoDup_nil. exact I.
Qed.

End AfterLoad.

(** A successful load on a well-formed scene keeps it well formed. *)
Lemma sceneInv_load (throws : Step -> bool) (r : Env) (st : State) :
  sceneInv st = true ->
  loadOutcome parse throws r st = Some true ->
  sceneInv (loadEffect parse throws r st) = true.
Proof.
  intros Hinv H.
  destruct (load_success throws r st H) as (f & g & sc & _ & _ & Hsc & E).
  rewrite E. now apply afterLoad_sceneInv.
Qed.

(** C3. After two successful loads in a row the scene holds exactly one mesh,
    one wireframe overlay and one normals overlay, the ones the refs hold.
    The second load first removes and disposes the set of the first load and
    only then constructs and installs its own. *)
Theorem two_loads_leave_one_of_each :
  forall (throws1 throws2 : Step -> bool) (r1 r2 : Env) (st : State),
    sceneInv st = true ->
    loadOutcome parse throws1 r1 st = Some true ->
    loadOutcome parse throws2 r2 (loadEffect parse throws1 r1 st) = Some true ->
    countClass Mesh (loadEffect parse throws2 r2 (loadEffect parse throws1 r1 st)) = 1 /\
    countClass LineSegments
      (loadEffect parse throws2 r2 (loadEffect parse throws1 r1 st)) = 1 /\
    countClass VertexNormalsHelper
      (loadEffect parse throws2 r2 (loadEffect parse throws1 r1 st)) = 1 /\
    exists m1 w1 n1 m2,
      meshRef (loadEffect parse throws1 r1 st) = Some m1 /\
      wireframeRef (loadEffect parse throws1 r1 st) = Some w1 /\
      normalsHelperRef (loadEffect parse throws1 r1 st) = Some n1 /\
      meshRef (loadEffect parse throws2 r2 (loadEffect parse throws1 r1 st)) = Some m2 /\
      wireframeRef (loadEffect parse throws2 r2 (loadEffect parse throws1 r1 st))
        = Some (S m2) /\
      normalsHelperRef (loadEffect parse throws2 r2 (loadEffect parse throws1 r1 st))
        = Some (S (S m2)) /\
      classAt (loadEffect parse throws2 r2 (loadEffect parse throws1 r1 st)) m2
        = Some Mesh /\
      trace (loadEffect parse throws2 r2 (loadEffect parse throws1 r1 st)) =
        trace (loadEffect parse throws1 r1 st)
        ++ [SceneRemove m1; DisposeGeometry m1; DisposeMaterial m1;
            SceneRemove w1; DisposeGeometry w1; DisposeMaterial w1;
            SceneRemove n1; DisposeHelper n1]
        ++ [NewObject m2; SceneAdd m2; NewObject (S m2); SceneAdd (S m2);
            NewObject (S (S m2)); SceneAdd (S (S m2))]
        ++ cameraEvents (loadEffect parse throws1 r1 st).
Proof.
  intros throws1 throws2 r1 r2 st Hinv H1 H2.
  pose proof (sceneInv_load throws1 r1 st Hinv H1) as Hinv1.
  destruct (load_success throws1 r1 st H1) as (f1 & g1 & sc & _ & _ & Hsc & E1).
  destruct (load_success throws2 r2 _ H2) as (f2 & g2 & sc1 & _ & _ & Hsc1 & E2).
  rewrite E2.
  destruct (afterLoad_counts (envControls r2) (normalizeGeometry g2) sc1 _ Hsc1 Hinv1)
    as (Cm & Cw & Cn).
  destruct (afterLoad_new_classes (envControls r2) (normalizeGeometry g2) sc1
              (loadEffect parse throws1 r1 st)) as (Km & _).
  split; [exact Cm|]. split; [exact Cw|]. split; [exact Cn|].
  exists (length (heap st)), (S (length (heap st))), (S (S (length (heap st)))),
    (length (heap (loadEffect parse throws1 r1 st))).
  split; [now rewrite E1|]. split; [now rewrite E1|]. split; [now rewrite E1|].
  split; [reflexivity|]. split; [reflexivity|]. split; [reflexivity|].
  split; [exact Km|].
  unfold afterLoad at 1. cbn [trace]. unfold clearEvents, installEvents.
  rewrite E1. unfold afterLoad at 2 3 4. cbn [meshRef wireframeRef normalsHelperRef].
  rewrite <- !app_assoc. reflexivity.
Qed.

End LoadSuccessFacts.

(* ===================================================================== *)
(** * Properties of loading: where a failed load stops *)
(* ===================================================================== *)

Ltac stage_red :=
  lazy beta iota zeta delta
    [duringLoad duringEvents completedAt installEvents Nat.leb Nat.sub Nat.mul
     Nat.add firstn removeRef pushAll fold_left
     isInitialized canvasRef sceneRef cameraRef rendererRef controlsRef meshRef
     wireframeRef normalsHelperRef gridHelperRef axesHelperRef animationFrameRef
     heap frameQueue nextFrameId resizeListeners trace children background].

Section LoadStageFacts.
Import Stl Three STLViewer Samples.

Variable parse : list byte -> option BufferGeometry.
Variable throws : Step -> bool.


Lemma duringLoad_0 (c : ViewerControls) (g : BufferGeometry) (sc : Scene) (st : State) :
  sceneRef st = Some sc -> duringLoad 0 c g sc st = st.
Proof.
  intros H. destruct st as [i cv sc' cam ren ctl m w n gh x af h q nf rl t].
  cbn [sceneRef] in H. subst sc'. destruct sc as [ch bg].
  stage_red. cbn [app]. now rewrite !app_nil_r.
Qed.

(** The [try] block either completes, leaving [afterLoad], or stops at the
    first library call that raises, leaving the statements completed so
    far. *)
Lemma loadBody_stages (c : ViewerControls) (f : STLFile) (st : State) (sc : Scene) :
  sceneRef st = Some sc ->
  (exists s g, (throws s = true \/ (s = AtParse /\ parse (arrayBuffer f) = None)) /\
               loadBody parse throws c f st
               = (duringLoad (completedAt s) c g sc st, None)) \/
  (exists g, parse (arrayBuffer f) = Some g /\
             loadBody parse throws c f st
             = (afterLoad c (normalizeGeometry g) sc st, Some tt)).
Proof.
  intros Hsc.
  pose (g0 := {| positions := []; boundingBox := None |}).
  destruct (throws AtParse) eqn:T1.
  { left. exists AtParse, g0. split; [now left|].
    cbn [completedAt]. rewrite (duringLoad_0 _ _ _ _ Hsc).
    unfold loadBody, parseStep, step, mbind, M_bind. now rewrite T1. }
  destruct (parse (arrayBuffer f)) as [g|] eqn:P.
  2:{ left. exists AtParse, g0. split; [now right|].
      cbn [completedAt]. rewrite (duringLoad_0 _ _ _ _ Hsc).
      unfold loadBody, parseStep, step, mbind, M_bind, raise. now rewrite T1, P. }
  destruct (throws AtCenter) eqn:T2.
  { left. exists AtCenter, g0. split; [now left|].
    cbn [completedAt]. rewrite (duringLoad_0 _ _ _ _ Hsc).
    unfold loadBody, parseStep, step, mbind, M_bind, mret, M_ret. now rewrite T1, P, T2. }
  destruct (throws AtScale) eqn:T3.
  { left. exists AtScale, g0. split; [now left|].
    cbn [completedAt]. rewrite (duringLoad_0 _ _ _ _ Hsc).
    unfold loadBody, parseStep, step, mbind, M_bind, mret, M_ret. now rewrite T1, P, T2, T3. }
  destruct (throws AtClearMesh) eqn:T4.
  { left. exists AtClearMesh, g0. split; [now left|].
    cbn [completedAt]. rewrite (duringLoad_0 _ _ _ _ Hsc).
    unfold loadBody, parseStep, clearMesh, step, mbind, M_bind, mret, M_ret.
    now rewrite T1, P, T2, T3, T4. }
  destruct st as [i cv sc' cam ren ctl m w n gh x af h q nf rl t].
  cbn [sceneRef] in Hsc. subst sc'. destruct sc as [ch bg].
  unfold loadBody, parseStep, clearMesh, clearWireframe, clearNormals,
    newMesh, newWireframe, newNormals, resetCamera, normalizeGeometry, step.
  rewrite T1, P, T2, T3, T4.
  destruct (throws AtClearWireframe) eqn:T5.
  { left. exists AtClearWireframe, (scaleToFit (centerGeometry g)). split; [now left|].
    destruct m; st_red; stage_red; cbn [app]; rewrite ?app_nil_r, <- ?app_assoc;
      reflexivity. }
  destruct (throws AtClearNormals) eqn:T6.
  { left. exists AtClearNormals, (scaleToFit (centerGeometry g)). split; [now left|].
    destruct m, w; st_red; stage_red; cbn [app]; rewrite ?app_nil_r, <- ?app_assoc;
      reflexivity. }
  destruct (throws AtNewMesh) eqn:T7.
  { left. exists AtNewMesh, (scaleToFit (centerGeometry g)). split; [now left|].
    destruct m, w, n; st_red; stage_red; cbn [app]; rewrite ?app_nil_r, <- ?app_assoc;
      reflexivity. }
  destruct (throws AtNewWireframe) eqn:T8.
  { left. exists AtNewWireframe, (scaleToFit (centerGeometry g)). split; [now left|].
    destruct m, w, n; st_red; stage_red; cbn [app]; rewrite ?app_nil_r, <- ?app_assoc;
      reflexivity. }
  destruct (throws AtNewNormals) eqn:T9.
  { left. exists AtNewNormals, (scaleToFit (centerGeometry g)). split; [now left|].
    destruct m, w, n; st_red; stage_red; cbn [app];
      rewrite ?length_app; cbn [length]; rewrite ?Nat.add_1_r, ?app_nil_r, <- ?app_assoc;
      reflexivity. }
  destruct (throws AtCamera) eqn:T10.
  { left. exists AtCamera, (scaleToFit (centerGeometry g)). split; [now left|].
    destruct m, w, n; st_red; stage_red; cbn [app];
      rewrite ?length_app; cbn [length]; rewrite ?Nat.add_1_r, ?app_nil_r, <- ?app_assoc;
      reflexivity. }
  right. exists g. split; [reflexivity|].
  destruct m, w, n, cam, ctl; st_red;
    rewrite ?length_app; cbn [length]; rewrite ?Nat.add_1_r, <- ?app_assoc;
    reflexivity.
Qed.

(** How a run of the load effect ends: at its guard, in the [catch] block,
    or with the [try] block completed. *)
Lemma loadEffect_cases (r : Env) (st : State) :
  loadEffect parse throws r st = st \/
  (exists sc s g,
      sceneRef st = Some sc /\
      loadOutcome parse throws r st = Some false /\
      (throws s = true \/
       (s = AtParse /\ exists f, envFile r = Some f /\ parse (arrayBuffer f) = None)) /\
      loadEffect parse throws r st
      = emit (OnError errorMessage)
          (emit ConsoleError (duringLoad (completedAt s) (envControls r) g sc st))) \/
  (exists sc f g,
      sceneRef st = Some sc /\ envFile r = Some f /\
      loadOutcome parse throws r st = Some true /\
      parse (arrayBuffer f) = Some g /\
      loadEffect parse throws r st
      = afterLoad (envControls r) (normalizeGeometry g) sc st).
Proof.
  unfold loadEffect, loadOutcome, loadSTL, tryCatch.
  destruct (sceneRef st) as [sc|] eqn:Hsc; [|now left].
  destruct (envFile r) as [f|]; [|now left].
  destruct (envInitialized r); [|now left].
  destruct (loadBody_stages (envControls r) f st sc Hsc)
    as [(s & g & Hs & E)|(g & P & E)]; rewrite E; cbn [fst snd].
  - right; left. exists sc, s, g. split; [reflexivity|]. split; [reflexivity|].
    split; [|reflexivity].
    destruct Hs as [Hs|[Hs P]]; [now left|right]. split; [exact Hs|]. now exists f.
  - right; right. exists sc, f, g.
    split; [reflexivity|]. split; [reflexivity|]. split; [reflexivity|].
    split; [exact P|reflexivity].
Qed.




End LoadStageFacts.

Section LoadExamples.
Import Stl Three STLViewer Samples.

Lemma two_loads_leave_one_of_each_witness :
  sceneInv initialized = true /\
  loadOutcome parseSample noThrow fileEnv initialized = Some true /\
  countClass Mesh
    (loadEffect parseSample noThrow spinEnv
       (loadEffect parseSample noThrow fileEnv initialized)) = 1.
Proof.
  split; [vm_compute; reflexivity|]. split; [vm_compute; reflexivity|].
  apply (two_loads_leave_one_of_each parseSample noThrow noThrow fileEnv spinEnv
           initialized); vm_compute; reflexivity.
Defined.



End LoadExamples.

(* ===================================================================== *)
(** * Properties of the control-state effect *)
(* ===================================================================== *)

Section ControlsFacts.
Import Stl Three STLViewer Samples.

Lemma set_heap_same (st : State) : set_heap (heap st) st = st.
Proof. now destruct st. Qed.

Lemma set_heap_twice (h1 h2 : list Object3D) (st : State) :
  set_heap h2 (set_heap h1 st) = set_heap h2 st.
Proof. reflexivity. Qed.

Lemma setLightIntensity_heap (v : Q) (st : State) (a : nat) :
  setLightIntensity v st a = set_heap (lightStep v (heap st) a) st.
Proof.
  unfold setLightIntensity, lightStep, modifyObject.
  destruct (heap st !! a) as [o|]; [destruct (isLight (cls o))|];
    now rewrite ?set_heap_same.
Qed.

Lemma traverse_heap (v : Q) (ch : list nat) (st : State) :
  fold_left (setLightIntensity v) ch st
  = set_heap (fold_left (lightStep v) ch (heap st)) st.
Proof.
  revert st. induction ch as [|a ch IH]; intros st; cbn [fold_left].
  - now rewrite set_heap_same.
  - rewrite IH, setLightIntensity_heap. reflexivity.
Qed.

Lemma controlsEffect_shape (r : Env) (st : State) (sc : Scene) :
  sceneRef st = Some sc -> envInitialized r = true ->
  controlsEffect r st =
  set_trace (trace st ++ [NewColor (backgroundColor (envControls r))])
    (set_sceneRef (Some {| children := children sc;
                           background := Some (backgroundColor (envControls r)) |})
       (set_heap (appliedHeap (envControls r) (meshRef st) (wireframeRef st)
                    (normalsHelperRef st) (gridHelperRef st) (axesHelperRef st)
                    (children sc) (heap st)) st)).
Proof.
  intros Hsc Hr.
  destruct st as [i cv sc' cam ren ctl m w n g x af h q nf rl t].
  cbn [sceneRef] in Hsc. subst sc'.
  unfold controlsEffect. rewrite Hr.
  destruct m, w, n, g, x; st_red; rewrite traverse_heap; reflexivity.
Qed.

Lemma lookup_altRef (ref : option nat) (f : Object3D -> Object3D)
      (h : list Object3D) (a : nat) :
  altRef ref f h !! a = (fun o => if refersTo ref a then f o else o) <$> h !! a.
Proof.
  destruct ref as [b|]; cbn [altRef refersTo].
  - destruct (Nat.eqb_spec b a) as [->|Hne].
    + now rewrite list_lookup_alter_eq.
    + rewrite list_lookup_alter_ne by exact Hne. now destruct (h !! a).
  - now destruct (h !! a).
Qed.

Lemma lightCell_twice (v : Q) (p q : bool) (o : Object3D) :
  lightCell v p (lightCell v q o) = lightCell v (q || p) o.
Proof.
  unfold lightCell. destruct o as [k vis i col rot geo]. cbn [cls].
  destruct (isLight k) eqn:E, p, q; cbn; rewrite ?E; reflexivity.
Qed.

Lemma lookup_lightStep (v : Q) (h : list Object3D) (b a : nat) :
  lightStep v h b !! a = lightCell v (Nat.eqb a b) <$> h !! a.
Proof.
  unfold lightStep, lightCell.
  destruct (Nat.eqb_spec a b) as [->|Hne].
  - destruct (h !! b) as [o|] eqn:E.
    + destruct (isLight (cls o)) eqn:L.
      * rewrite list_lookup_alter_eq, E. cbn. now rewrite L.
      * rewrite E. cbn. now rewrite L.
    + now rewrite E.
  - assert (Hsame : lightStep v h b !! a = h !! a).
    { unfold lightStep. destruct (h !! b) as [o|]; [|reflexivity].
      destruct (isLight (cls o)); [|reflexivity].
      apply list_lookup_alter_ne. congruence. }
    unfold lightStep in Hsame. rewrite Hsame.
    destruct (h !! a) as [o|]; [|reflexivity]. cbn. now rewrite andb_false_r.
Qed.

Lemma lookup_lights (v : Q) (ch : list nat) (h : list Object3D) (a : nat) :
  fold_left (lightStep v) ch h !! a
  = lightCell v (existsb (Nat.eqb a) ch) <$> h !! a.
Proof.
  revert h. induction ch as [|b ch IH]; intros h; cbn [fold_left existsb].
  - destruct (h !! a) as [o|]; [|reflexivity]. unfold lightCell. cbn.
    now rewrite andb_false_r.
  - rewrite IH, lookup_lightStep. destruct (h !! a) as [o|]; [|reflexivity].
    cbn. now rewrite lightCell_twice.
Qed.

(** The effect acts on every object by itself. *)
Lemma lookup_appliedHeap (c : ViewerControls) (m w n g x : option nat)
      (ch : list nat) (h : list Object3D) (a : nat) :
  appliedHeap c m w n g x ch h !! a = appliedCell c m w n g x ch a <$> h !! a.
Proof.
  unfold appliedHeap. rewrite lookup_lights, !lookup_altRef.
  destruct (h !! a) as [o|]; reflexivity.
Qed.

Lemma appliedCell_idempotent (c : ViewerControls) (m w n g x : option nat)
      (ch : list nat) (a : nat) (o : Object3D) :
  appliedCell c m w n g x ch a (appliedCell c m w n g x ch a o)
  = appliedCell c m w n g x ch a o.
Proof.
  unfold appliedCell, lightCell. destruct o as [k vis i col rot geo].
  destruct (refersTo m a), (refersTo w a), (refersTo n a), (refersTo g a),
    (refersTo x a), (existsb (Nat.eqb a) ch); cbn;
    destruct (isLight k) eqn:E; cbn; rewrite ?E; reflexivity.
Qed.

Lemma appliedHeap_idempotent (c : ViewerControls) (m w n g x : option nat)
      (ch : list nat) (h : list Object3D) :
  appliedHeap c m w n g x ch (appliedHeap c m w n g x ch h)
  = appliedHeap c m w n g x ch h.
Proof.
  apply list_eq. intros a. rewrite !lookup_appliedHeap.
  destruct (h !! a) as [o|]; [|reflexivity].
  cbn. now rewrite appliedCell_idempotent.
Qed.

Lemma controlsEffect_guard (r : Env) (st : State) :
  controlsApply r st = false -> controlsEffect r st = st.
Proof.
  unfold controlsApply, controlsEffect.
  destruct (present (sceneRef st)), (envInitialized r); try discriminate; reflexivity.
Qed.

(** C1 (amended). Applying the same control state a second time leaves the
    scene graph, every object and every ref as the first application left
    them, and constructs or disposes no scene object; the one thing it does is
    construct a fresh colour value, equal to the current one, for the scene
    background. *)
Theorem second_application_only_recolours :
  forall (r : Env) (st : State),
    controlsEffect r (controlsEffect r st) =
      (if controlsApply r st
       then emit (NewColor (backgroundColor (envControls r))) (controlsEffect r st)
       else controlsEffect r st) /\
    heap (controlsEffect r (controlsEffect r st)) = heap (controlsEffect r st) /\
    sceneRef (controlsEffect r (controlsEffect r st)) = sceneRef (controlsEffect r st) /\
    trace (controlsEffect r (controlsEffect r st)) =
      trace (controlsEffect r st)
      ++ (if controlsApply r st
          then [NewColor (backgroundColor (envControls r))] else []).
Proof.
  intros r st.
  assert (E : controlsEffect r (controlsEffect r st) =
              (if controlsApply r st
               then emit (NewColor (backgroundColor (envControls r))) (controlsEffect r st)
               else controlsEffect r st)).
  { destruct (controlsApply r st) eqn:G.
    - unfold controlsApply in G. apply andb_true_iff in G as [Gs Gr].
      destruct (sceneRef st) as [sc|] eqn:Hsc; [|discriminate].
      rewrite (controlsEffect_shape r st sc Hsc Gr).
      destruct st as [i cv sc' cam ren ctl m w n g x af h q nf rl t].
      erewrite controlsEffect_shape; [|reflexivity|exact Gr].
      st_proj. now rewrite appliedHeap_idempotent.
    - now rewrite !(controlsEffect_guard r st G). }
  split; [exact E|]. rewrite E.
  destruct (controlsApply r st); repeat split; try reflexivity.
  now rewrite app_nil_r.
Qed.

(** C1 as stated fails: the second application is not a no-op, it makes one
    more [new THREE.Color] call. *)
Lemma second_application_counterexample :
  controlsEffect readyEnv (controlsEffect readyEnv populated)
    <> controlsEffect readyEnv populated /\
  trace (controlsEffect readyEnv (controlsEffect readyEnv populated))
  = trace (controlsEffect readyEnv populated) ++ [NewColor "#0f172a"].
Proof.
  split; [|vm_compute; reflexivity].
  intros H. apply (f_equal (fun s => length (trace s))) in H.
  vm_compute in H. discriminate H.
Qed.

End ControlsFacts.

(* ===================================================================== *)
(** * Examples for the statistics overlay, the intake filter and the
      normalisation step *)
(* ===================================================================== *)

Section PureExamples.
Import Stl Three STLViewer StatsOverlay FileUpload Samples Bounds.

Example accepts_upper_case :
  accepts {| fileName := "Part.STL"; fileBytes := [] |} = true.
Proof. reflexivity. Qed.

Example rejects_other_extension :
  accepts {| fileName := "part.stl.txt"; fileBytes := [] |} = false.
Proof. reflexivity. Qed.

Example rejects_missing_dot :
  accepts {| fileName := "stl"; fileBytes := [] |} = false.
Proof. reflexivity. Qed.

Lemma stats_triangle_count_is_length_estimate_witness :
  render (Some asciiSample)
    = Some {| trianglesCard := 2; formatCard := "Binary STL" |} /\
  50 * 2 <= byteLength (arrayBuffer asciiSample) < 50 * 2 + 50.
Proof.
  split; [reflexivity|].
  apply (stats_triangle_count_is_length_estimate asciiSample
           {| trianglesCard := 2; formatCard := "Binary STL" |} eq_refl).
Defined.



End PureExamples.

(* ===================================================================== *)
(** * More properties of the statistics overlay *)
(* ===================================================================== *)

Section StatsCardFacts.
Import Stl StatsOverlay.

Lemma N_div_bounds (a b : N) :
  (b <> 0 -> b * (a / b) <= a < b * (a / b) + b)%N.
Proof.
  intros Hb. pose proof (N.div_mod a b Hb) as E. pose proof (N.mod_lt a b Hb) as L.
  remember (a / b)%N as q. remember (a mod b)%N as r. clear Heqq Heqr. nia.
Qed.

Lemma hundredths_nearest (num den : N) :
  (den <> 0 ->
   2 * den * hundredths num den <= 200 * num + den
     < 2 * den * hundredths num den + 2 * den)%N.
Proof.
  intros Hd. unfold hundredths. apply N_div_bounds. lia.
Qed.

Lemma to_uint_not_nil (n : N) : N.to_uint n <> Decimal.Nil.
Proof.
  intros H. pose proof (DecimalN.Unsigned.of_to n) as E. rewrite H in E.
  cbn in E. subst n. discriminate H.
Qed.

Lemma decimal_inj (a b : N) : decimal a = decimal b -> a = b.
Proof.
  unfold decimal. intros H.
  apply DecimalN.Unsigned.to_uint_inj.
  pose proof (NilZero.usu _ (to_uint_not_nil a)) as Ha.
  pose proof (NilZero.usu _ (to_uint_not_nil b)) as Hb.
  rewrite H in Ha. congruence.
Qed.

Lemma list_ascii_app (s t : string) :
  list_ascii_of_string (s ++ t) = list_ascii_of_string s ++ list_ascii_of_string t.
Proof. induction s as [|c s IH]; cbn; [reflexivity|]. now rewrite IH. Qed.

Lemma list_ascii_inj (s t : string) :
  list_ascii_of_string s = list_ascii_of_string t -> s = t.
Proof.
  intros H. rewrite <- (string_of_list_ascii_of_string s), H.
  apply string_of_list_ascii_of_string.
Qed.

(** Strings that agree and end in tails of the same length agree part by
    part. *)
Lemma append_inj_tail (s1 s2 t1 t2 : string) :
  String.length t1 = String.length t2 ->
  (s1 ++ t1)%string = (s2 ++ t2)%string -> s1 = s2 /\ t1 = t2.
Proof.
  intros Hl H. apply (f_equal list_ascii_of_string) in H.
  rewrite !list_ascii_app in H.
  apply app_inj_2 in H as [H1 H2].
  - split; now apply list_ascii_inj.
  - clear H. revert t2 Hl. induction t1 as [|c t1 IH]; intros [|c2 t2]; cbn;
      intros Hl; try discriminate; [reflexivity|]. f_equal. apply IH. lia.
Qed.

Lemma digitChar_inj (a b : N) :
  (a < 10)%N -> (b < 10)%N -> digitChar a = digitChar b -> a = b.
Proof.
  intros Ha Hb H. unfold digitChar in H.
  apply (f_equal N_of_ascii) in H.
  rewrite !N_ascii_embedding in H by lia. lia.
Qed.

Lemma fixed2_inj (h k : N) : fixed2 h = fixed2 k -> h = k.
Proof.
  unfold fixed2. intros H.
  apply append_inj_tail in H as [H1 H2]; [|reflexivity].
  apply decimal_inj in H1. injection H2 as Hd1 Hd2.
  assert (B1 : (h mod 100 < 100)%N) by (apply N.mod_lt; lia).
  assert (B2 : (k mod 100 < 100)%N) by (apply N.mod_lt; lia).
  apply digitChar_inj in Hd1;
    [|apply N.Div0.div_lt_upper_bound; lia|apply N.Div0.div_lt_upper_bound; lia].
  apply digitChar_inj in Hd2; [|apply N.mod_lt; lia|apply N.mod_lt; lia].
  clear B1 B2. zify. Z.to_euclidean_division_equations. lia.
Qed.


Lemma formatFileSize_cases (bytes : N) :
  ((bytes < 1024)%N /\ formatFileSize bytes = (decimal bytes ++ " B")%string) \/
  ((1024 <= bytes < 1024 * 1024)%N /\
   formatFileSize bytes = (fixed2 (hundredths bytes 1024) ++ " KB")%string) \/
  ((1024 * 1024 <= bytes)%N /\
   formatFileSize bytes = (fixed2 (hundredths bytes (1024 * 1024)) ++ " MB")%string).
Proof.
  unfold formatFileSize, toFixed2.
  destruct (N.ltb_spec bytes 1024); [left; easy|].
  destruct (N.ltb_spec bytes (1024 * 1024)); [right; left; easy|right; right; easy].
Qed.


(** X2. The unit is chosen from the byte count, before rounding: the last
    five sizes below 1024 * 1024 bytes are shown as 1024.00 KB, and the next
    one as 1.00 MB. *)
Theorem file_size_just_below_one_megabyte :
  forall bytes : N,
    (1024 * 1024 - 5 <= bytes < 1024 * 1024)%N ->
    formatFileSize bytes = "1024.00 KB" /\
    formatFileSize (1024 * 1024) = "1.00 MB".
Proof.
  intros bytes H.
  destruct (formatFileSize_cases bytes) as [[H' E]|[[H' E]|[H' E]]]; try lia.
  assert (Hh : hundredths bytes 1024 = 102400%N).
  { pose proof (hundredths_nearest bytes 1024). lia. }
  rewrite Hh in E. split; [exact E|reflexivity].
Qed.

Lemma string_append_assoc (s t u : string) :
  ((s ++ t) ++ u = s ++ (t ++ u))%string.
Proof. induction s as [|c s IH]; cbn; [reflexivity|]. now rewrite IH. Qed.

(** Cards with different units differ. *)
Lemma units_differ (x y z : string) :
  (x ++ " B" <> y ++ " KB")%string /\ (x ++ " B" <> z ++ " MB")%string /\
  (y ++ " KB" <> z ++ " MB")%string.
Proof.
  repeat split; intros H.
  - change (y ++ " KB")%string with (y ++ (" " ++ "KB"))%string in H.
    rewrite <- string_append_assoc in H.
    apply append_inj_tail in H as [_ H]; [discriminate H|reflexivity].
  - change (z ++ " MB")%string with (z ++ (" " ++ "MB"))%string in H.
    rewrite <- string_append_assoc in H.
    apply append_inj_tail in H as [_ H]; [discriminate H|reflexivity].
  - apply append_inj_tail in H as [_ H]; [discriminate H|reflexivity].
Qed.

(** X3. What an equal size card tells: two sizes that are shown alike use
    the same unit and differ by less than 0.01 of it; below 1024 bytes they
    are equal. *)
Theorem equal_size_cards_mean_close_sizes :
  forall a b : N,
    (a < 2 ^ 53)%N -> (b < 2 ^ 53)%N ->
    formatFileSize a = formatFileSize b ->
    ((a < 1024)%N /\ a = b) \/
    ((1024 <= a < 1024 * 1024)%N /\ (1024 <= b < 1024 * 1024)%N /\
     (a <= b + 10)%N /\ (b <= a + 10)%N) \/
    ((1024 * 1024 <= a)%N /\ (1024 * 1024 <= b)%N /\
     (a <= b + 10485)%N /\ (b <= a + 10485)%N).
Proof.
  intros a b _ _ H.
  destruct (formatFileSize_cases a) as [[Ha Ea]|[[Ha Ea]|[Ha Ea]]];
    destruct (formatFileSize_cases b) as [[Hb Eb]|[[Hb Eb]|[Hb Eb]]];
    rewrite Ea, Eb in H;
    try (exfalso;
         first [ apply (proj1 (units_differ _ _ "") H)
               | apply (proj1 (units_differ _ _ "") (eq_sym H))
               | apply (proj1 (proj2 (units_differ _ "" _)) H)
               | apply (proj1 (proj2 (units_differ _ "" _)) (eq_sym H))
               | apply (proj2 (proj2 (units_differ "" _ _)) H)
               | apply (proj2 (proj2 (units_differ "" _ _)) (eq_sym H)) ]).
  - left. split; [exact Ha|].
    apply append_inj_tail in H as [H _]; [|reflexivity]. now apply decimal_inj.
  - right; left.
    apply append_inj_tail in H as [H _]; [|reflexivity]. apply fixed2_inj in H.
    pose proof (hundredths_nearest a 1024). pose proof (hundredths_nearest b 1024).
    rewrite H in *. lia.
  - right; right.
    apply append_inj_tail in H as [H _]; [|reflexivity]. apply fixed2_inj in H.
    pose proof (hundredths_nearest a (1024 * 1024)).
    pose proof (hundredths_nearest b (1024 * 1024)).
    rewrite H in *. lia.
Qed.

Lemma equal_size_cards_mean_close_sizes_witness :
  formatFileSize 1536 = "1.50 KB" /\ formatFileSize 1537 = "1.50 KB" /\
  (1536 <= 1537 + 10)%N /\ (1537 <= 1536 + 10)%N.
Proof.
  split; [reflexivity|]. split; [reflexivity|].
  destruct (equal_size_cards_mean_close_sizes 1536 1537 eq_refl eq_refl eq_refl)
    as [[_ H]|[(_ & _ & H1 & H2)|(H & _)]].
  - discriminate H.
  - split; assumption.
  - exfalso. revert H. apply N.lt_nge. reflexivity.
Defined.


Lemma file_size_just_below_one_megabyte_witness :
  formatFileSize 1048575 = "1024.00 KB".
Proof.
  apply (file_size_just_below_one_megabyte 1048575). split.
  - intros H. discriminate H.
  - reflexivity.
Defined.

Lemma N_of_nat_div50 (n : nat) : (N.of_nat (n / 50) = N.of_nat n / 50)%N.
Proof. apply (Nat2N.inj_div n 50). Qed.

Lemma resolutionLabel_cases (f : STLFile) :
  ((5000050 <= N.of_nat (byteLength (arrayBuffer f)))%N /\ resolutionLabel f = "High") \/
  ((500050 <= N.of_nat (byteLength (arrayBuffer f)) < 5000050)%N /\
   resolutionLabel f = "Medium") \/
  ((N.of_nat (byteLength (arrayBuffer f)) < 500050)%N /\ resolutionLabel f = "Low").
Proof.
  unfold resolutionLabel, triangleCount. rewrite N_of_nat_div50.
  pose proof (N_div_bounds (N.of_nat (byteLength (arrayBuffer f))) 50) as B.
  destruct (N.ltb_spec 100000 (N.of_nat (byteLength (arrayBuffer f)) / 50));
    [left; split; [lia|reflexivity]|].
  destruct (N.ltb_spec 10000 (N.of_nat (byteLength (arrayBuffer f)) / 50));
    [right; left; split; [lia|reflexivity]|right; right; split; [lia|reflexivity]].
Qed.

(** X4. The resolution card is decided by the buffer length alone: High from
    5,000,050 bytes on, Medium from 500,050 bytes on, Low below. *)
Theorem resolution_label_by_byte_length :
  forall f : STLFile,
    (resolutionLabel f = "High" <->
     (5000050 <= N.of_nat (byteLength (arrayBuffer f)))%N) /\
    (resolutionLabel f = "Medium" <->
     (500050 <= N.of_nat (byteLength (arrayBuffer f)) < 5000050)%N) /\
    (resolutionLabel f = "Low" <->
     (N.of_nat (byteLength (arrayBuffer f)) < 500050)%N) /\
    (exists p, renderPanel (Some f) = Some p /\
               resolutionValue p = resolutionLabel f).
Proof.
  intros f.
  destruct (resolutionLabel_cases f) as [[H ->]|[[H ->]|[H ->]]];
    (split; [|split; [|split]]);
    try (split; intros; first [discriminate | lia | reflexivity]).
  all: eexists; split; [reflexivity|]; cbn [resolutionValue];
    destruct (resolutionLabel_cases f) as [[H' E]|[[H' E]|[H' E]]]; try lia; exact E.
Qed.

Lemma string_length_append (s t : string) :
  String.length (s ++ t) = String.length s + String.length t.
Proof. induction s as [|c s IH]; cbn; [reflexivity|]. now rewrite IH. Qed.

Lemma length_substring_0 (n : nat) (s : string) :
  String.length (substring 0 n s) = Nat.min n (String.length s).
Proof.
  revert s. induction n as [|n IH]; intros [|c s]; cbn; try reflexivity.
  now rewrite IH.
Qed.

Lemma substring_0_append (u t : string) :
  substring 0 (String.length u) (u ++ t) = u.
Proof.
  induction u as [|c u IH]; cbn.
  - now destruct t.
  - now rewrite IH.
Qed.

(** X5. The name card shows names of up to 20 characters whole and cuts a
    longer name to its first 20 characters followed by three dots; the card
    never exceeds 23 characters, and for names of 21 or 22 characters it is
    longer than the name. The full name stays in the [title] attribute. *)
Theorem display_name_truncation :
  forall f : STLFile,
    (String.length (name f) <= 20 -> displayName f = name f) /\
    (20 < String.length (name f) ->
     displayName f = (substring 0 20 (name f) ++ "...")%string /\
     String.length (displayName f) = 23 /\
     substring 0 20 (displayName f) = substring 0 20 (name f)) /\
    String.length (displayName f) <= 23 /\
    (21 <= String.length (name f) <= 22 ->
     String.length (name f) < String.length (displayName f)) /\
    (exists p, renderPanel (Some f) = Some p /\
               fileNameValue p = displayName f /\ fileNameTitle p = name f).
Proof.
  intros f. unfold displayName.
  assert (L : 20 < String.length (name f) ->
              String.length (substring 0 20 (name f)) = 20).
  { intros H. rewrite length_substring_0. lia. }
  destruct (Nat.ltb_spec 20 (String.length (name f))) as [H|H].
  - specialize (L H).
    assert (L' : String.length (substring 0 20 (name f) ++ "...") = 23)
      by (rewrite string_length_append, L; reflexivity).
    split; [lia|]. split.
    + intros _. split; [reflexivity|]. split; [exact L'|].
      rewrite <- L at 1. apply substring_0_append.
    + split; [lia|]. split; [lia|].
      eexists. split; [reflexivity|]. cbn [fileNameValue fileNameTitle].
      unfold displayName. destruct (Nat.ltb_spec 20 (String.length (name f))); [easy|lia].
  - split; [reflexivity|]. split; [lia|]. split; [lia|]. split; [lia|].
    eexists. split; [reflexivity|]. cbn [fileNameValue fileNameTitle].
    unfold displayName. destruct (Nat.ltb_spec 20 (String.length (name f))); [lia|easy].
Qed.

End StatsCardFacts.

(* ===================================================================== *)
(** * More properties of the file intake and of the controls panel *)
(* ===================================================================== *)

Section DropZoneFacts.
Import FileUpload.

Lemma forwarded_app (a b : list Call) :
  forwarded (a ++ b) = forwarded a ++ forwarded b.
Proof.
  induction a as [|c a IH]; cbn [app forwarded]; [reflexivity|].
  destruct c; cbn [app]; now rewrite IH.
Qed.

Lemma handle_forwards (e : DomEvent) :
  Forall (fun f => accepts f = true) (forwarded (handle e)) /\
  length (forwarded (handle e)) <= 1.
Proof.
  destruct e as [| |[|f fs]|[|f fs]]; cbn; try (split; [constructor|lia]).
  all: destruct (accepts f) eqn:E; cbn; (split; [repeat constructor; assumption|lia]).
Qed.

Lemma runEvents_snoc (evs : list DomEvent) (e : DomEvent) (b : bool) :
  fst (runEvents (evs ++ [e]) b) = fold_left setState (handle e) (fst (runEvents evs b)).
Proof.
  unfold runEvents. cbn [fst].
  rewrite map_app, concat_app, fold_left_app. cbn [map concat].
  now rewrite app_nil_r.
Qed.

(** X6. Whatever the sequence of drag, drop and selection events, every
    file passed to [onFileUpload] has passed the extension filter, and an
    event forwards at most one file. The highlight is on after a drag-over
    and off after a drag-leave or a drop, accepted or not; a selection in the
    file dialog leaves it as it is. The filter looks at the name only: the
    size that the hint mentions plays no part. *)
Theorem events_forward_only_accepted_files :
  forall (evs : list DomEvent) (b : bool),
    Forall (fun f => accepts f = true) (forwarded (snd (runEvents evs b))) /\
    length (forwarded (snd (runEvents evs b))) <= length evs /\
    fst (runEvents (evs ++ [EvDragOver]) b) = true /\
    fst (runEvents (evs ++ [EvDragLeave]) b) = false /\
    (forall files, fst (runEvents (evs ++ [EvDrop files]) b) = false) /\
    (forall files, fst (runEvents (evs ++ [EvChange files]) b)
                   = fst (runEvents evs b)) /\
    (forall n b1 b2, accepts {| fileName := n; fileBytes := b1 |}
                     = accepts {| fileName := n; fileBytes := b2 |}).
Proof.
  intros evs b. split; [|split].
  - unfold runEvents. cbn [snd].
    induction evs as [|e evs IH]; cbn [map concat]; [constructor|].
    rewrite forwarded_app. apply Forall_app. split; [apply handle_forwards|exact IH].
  - unfold runEvents. cbn [snd].
    induction evs as [|e evs IH]; cbn [map concat length forwarded]; [lia|].
    rewrite forwarded_app, length_app.
    pose proof (proj2 (handle_forwards e)). lia.
  - rewrite !runEvents_snoc. split; [reflexivity|]. split; [reflexivity|].
    split; [|split; [|reflexivity]]; intros files; rewrite runEvents_snoc.
    + destruct files as [|f fs]; cbn; [reflexivity|]. now destruct (accepts f).
    + destruct files as [|f fs]; cbn; [reflexivity|]. now destruct (accepts f).
Qed.
End DropZoneFacts.

Section ControlsPanelFacts.
Import Stl ControlsPanel.

(** X7. One action on the panel changes the field it is about and no
    other: a toggle negates its flag, a colour or slider action stores the
    value it carries. *)
Theorem control_change_touches_one_field :
  forall (ch : Change) (c : ViewerControls),
    (forall fd, fd <> target ch -> field fd (change ch c) = field fd c) /\
    field (target ch) (change ch c) =
      match ch with
      | Toggle key => BoolValue (negb (getToggle key c))
      | PickColor _ value => ColorValue value
      | MoveSlider _ value => NumberValue value
      end.
Proof.
  intros ch c. split.
  - intros fd Hne.
    destruct ch as [[]|[] v|[] v], fd as [[]|[]|[]]; try reflexivity;
      exfalso; apply Hne; reflexivity.
  - destruct ch as [[]|[] v|[] v]; reflexivity.
Qed.

(** X8. Actions made one render after the other compose: toggling a flag
    twice restores the controls, a second colour or slider value replaces
    the first, and actions on different fields commute. *)
Theorem control_changes_compose :
  forall (c : ViewerControls),
    (forall key, change (Toggle key) (change (Toggle key) c) = c) /\
    (forall key v1 v2,
        change (PickColor key v2) (change (PickColor key v1) c)
        = change (PickColor key v2) c) /\
    (forall key v1 v2,
        change (MoveSlider key v2) (change (MoveSlider key v1) c)
        = change (MoveSlider key v2) c) /\
    (forall a b, target a <> target b ->
                 change a (change b c) = change b (change a c)).
Proof.
  intros c. destruct c as [w n g x bg mc li rs].
  split; [|split; [|split]].
  - intros []; destruct w, n, g, x; reflexivity.
  - intros [] v1 v2; reflexivity.
  - intros [] v1 v2; reflexivity.
  - intros a b Hne.
    destruct a as [[]|[] v|[] v], b as [[]|[] v'|[] v']; try reflexivity;
      exfalso; apply Hne; reflexivity.
Qed.

(** X9. After a click on a preset exactly that preset button is marked
    active, and the buttons of the other palette are marked as before; a
    colour from the colour input that is no preset value marks none. *)
Theorem preset_click_highlights_that_preset :
  forall (c : ViewerControls) (p : string * string),
    (In p colorPresets ->
     activePresets (backgroundColor (change (PickColor BackgroundColor (snd p)) c))
       colorPresets = [fst p] /\
     activePresets (modelColor (change (PickColor BackgroundColor (snd p)) c))
       modelColorPresets = activePresets (modelColor c) modelColorPresets) /\
    (In p modelColorPresets ->
     activePresets (modelColor (change (PickColor ModelColor (snd p)) c))
       modelColorPresets = [fst p]) /\
    (forall v, ~ In v (map snd colorPresets) ->
               activePresets (backgroundColor (change (PickColor BackgroundColor v) c))
                 colorPresets = []).
Proof.
  intros c p. split; [|split].
  - intros H. split; [|reflexivity].
    cbn in H. decompose [or] H; subst; try contradiction; reflexivity.
  - intros H. cbn in H. decompose [or] H; subst; try contradiction; reflexivity.
  - intros v Hv. cbn [change handleColorChange withColor backgroundColor].
    unfold activePresets, colorPresets. cbn [List.filter snd].
    unfold colorPresets in Hv. cbn [map snd In] in Hv.
    repeat match goal with
           | |- context [String.eqb v ?s] =>
               destruct (String.eqb_spec v s); [exfalso; apply Hv; subst; auto 10|]
           end.
    reflexivity.
Qed.
End ControlsPanelFacts.

(* ===================================================================== *)
(** * The scene graph through the life of the viewer *)
(* ===================================================================== *)

Section ShapeFacts.

Lemma sameShape_refl (st : State) : sameShape st st.
Proof. now repeat split. Qed.

Lemma sameShape_trans (a b c : State) :
  sameShape a b -> sameShape b c -> sameShape a c.
Proof.
  intros (A1 & A2 & A3 & A4 & A5 & A6 & A7 & A8) (B1 & B2 & B3 & B4 & B5 & B6 & B7 & B8).
  repeat split; congruence.
Qed.

Lemma sameShape_countClass (k : Class) (st st' : State) :
  sameShape st st' -> countClass k st' = countClass k st.
Proof.
  intros (A1 & _ & A3 & _). unfold countClass. rewrite A1. f_equal.
  apply filter_ext. intros a. now rewrite A3.
Qed.

Lemma forallb_eq {A : Type} (p q : A -> bool) (l : list A) :
  (forall a, p a = q a) -> forallb p l = forallb q l.
Proof.
  intros H. induction l as [|a l IH]; cbn [forallb]; [reflexivity|].
  now rewrite H, IH.
Qed.

Lemma sameShape_sceneInv (st st' : State) :
  sameShape st st' -> sceneInv st' = sceneInv st.
Proof.
  intros (A1 & _ & A3 & A4 & A5 & A6 & _). unfold sceneInv. rewrite A1. f_equal.
  apply forallb_eq. intros a. unfold childOk. now rewrite A3, A4, A5, A6.
Qed.

Lemma sameShape_refsInv (st st' : State) :
  sameShape st st' -> refsInv st' = refsInv st.
Proof.
  intros (_ & _ & A3 & A4 & A5 & A6 & A7 & A8). unfold refsInv, refOk.
  rewrite A4, A5, A6, A7, A8.
  destruct (meshRef st), (wireframeRef st), (normalsHelperRef st),
    (gridHelperRef st), (axesHelperRef st); rewrite ?A3; reflexivity.
Qed.

Lemma sameShape_emit (e : Event) (st : State) : sameShape st (emit e st).
Proof. now repeat split. Qed.

Lemma sameShape_cleanup (st : State) : sameShape st (cleanup st).
Proof. rewrite cleanup_shape. now repeat split. Qed.

Lemma classAt_alter (f : Object3D -> Object3D) (a b : nat) (h : list Object3D) :
  (forall o, cls (f o) = cls o) ->
  cls <$> alter f a h !! b = cls <$> h !! b.
Proof.
  intros Hf. destruct (Nat.eq_dec a b) as [->|Hne].
  - rewrite list_lookup_alter_eq. destruct (h !! b); cbn; [now rewrite Hf|reflexivity].
  - now rewrite list_lookup_alter_ne.
Qed.

Lemma sameShape_animate (c : ViewerControls) (st : State) : sameShape st (animate c st).
Proof.
  destruct st as [i cv sc cam ren ctl m w n g x af h q nf rl t].
  unfold animate.
  destruct m; [destruct (Qlt_le_dec 0 (rotationSpeed c))|];
    destruct ctl, ren, cam, sc; st_red; repeat split; try reflexivity;
    intros b; unfold classAt; st_red; now apply classAt_alter.
Qed.

Lemma sameShape_fold (q : list (nat * ViewerControls)) (st : State) :
  sameShape st (fold_left (fun s cb => animate (snd cb) s) q st).
Proof.
  revert st. induction q as [|cb q IH]; intros st; cbn [fold_left].
  - apply sameShape_refl.
  - eapply sameShape_trans; [apply sameShape_animate|apply IH].
Qed.

Lemma sameShape_runFrame (st : State) : sameShape st (runFrame st).
Proof.
  unfold runFrame. eapply sameShape_trans; [|apply sameShape_fold].
  now repeat split.
Qed.

Lemma cls_appliedCell (c : ViewerControls) (m w n g x : option nat)
      (ch : list nat) (a : nat) (o : Object3D) :
  cls (appliedCell c m w n g x ch a o) = cls o.
Proof.
  unfold appliedCell, lightCell.
  destruct (refersTo m a), (refersTo w a), (refersTo n a), (refersTo g a),
    (refersTo x a); cbn [cls set_color set_visible];
    match goal with |- context [if ?b then _ else _] => destruct b end; reflexivity.
Qed.

Lemma sameShape_controlsEffect (r : Env) (st : State) :
  sameShape st (controlsEffect r st).
Proof.
  destruct (controlsApply r st) eqn:G.
  - unfold controlsApply in G. apply andb_true_iff in G as [Gs Gr].
    destruct (sceneRef st) as [sc|] eqn:Hsc; [|discriminate].
    rewrite (controlsEffect_shape r st sc Hsc Gr).
    repeat split; try reflexivity.
    + unfold sceneChildren. now rewrite Hsc.
    + cbn. now rewrite Hsc.
    + intros a. unfold classAt. cbn [heap set_trace set_sceneRef set_heap].
      rewrite lookup_appliedHeap. destruct (heap st !! a) as [o|]; [|reflexivity].
      cbn. now rewrite cls_appliedCell.
  - rewrite (controlsEffect_guard r st G). apply sameShape_refl.
Qed.

End ShapeFacts.

Section GraphFacts.

Lemma Class_eqb_eq (a b : Class) : Class_eqb a b = true <-> a = b.
Proof. destruct a, b; cbn; split; intros; congruence. Qed.

Lemma Class_eqb_refl (a : Class) : Class_eqb a a = true.
Proof. now apply Class_eqb_eq. Qed.

Lemma refsInv_slot (st : State) :
  refsInv st = true <-> forall k a, slotRef k st = Some a -> classAt st a = Some k.
Proof.
  unfold refsInv, refOk. rewrite !andb_true_iff. split.
  - intros ((((Hm & Hw) & Hn) & Hg) & Hx) k a Hk.
    destruct k; cbn [slotRef] in Hk; try discriminate; rewrite Hk in *;
      match goal with
      | H : match classAt st a with _ => _ end = true |- _ =>
          destruct (classAt st a) as [k'|]; [|discriminate];
          apply Class_eqb_eq in H; now subst
      end.
  - intros H.
    assert (G : forall k, match slotRef k st with
                          | Some a => match classAt st a with
                                      | Some k' => Class_eqb k' k
                                      | None => false
                                      end
                          | None => true
                          end = true).
    { intros k. destruct (slotRef k st) as [a|] eqn:E; [|reflexivity].
      rewrite (H k a E). apply Class_eqb_refl. }
    repeat split.
    + apply (G Mesh). + apply (G LineSegments). + apply (G VertexNormalsHelper).
    + apply (G GridHelper). + apply (G AxesHelper).
Qed.

Lemma childOk_slot (st : State) (x : nat) :
  childOk st x = true <->
  exists k, classAt st x = Some k /\ (replaced k = true -> slotRef k st = Some x).
Proof.
  unfold childOk. destruct (classAt st x) as [k|]; split.
  - intros H. exists k. split; [reflexivity|]. intros Hr.
    destruct k; try discriminate Hr; cbn [slotRef];
      match goal with
      | H : refersTo ?r x = true |- ?r = Some x =>
          destruct r as [b|]; [|discriminate];
          cbn in H; apply Nat.eqb_eq in H; now subst
      end.
  - intros (k' & E & H). injection E as <-.
    destruct k; try reflexivity; cbn [slotRef replaced] in H;
      rewrite (H eq_refl); cbn; apply Nat.eqb_refl.
  - discriminate.
  - intros (k' & E & _). discriminate.
Qed.

(** The invariant in the component's own terms. *)
Lemma graphInv_iff (st : State) :
  graphInv st <-> sceneInv st = true /\ refsInv st = true.
Proof.
  unfold graphInv, sceneInv. rewrite andb_true_iff, bool_decide_eq_true, refsInv_slot.
  rewrite forallb_forall.
  split.
  - intros (Hn & Hc & Hr). repeat split; try assumption.
    intros x Hx. apply childOk_slot, Hc. now apply list_elem_of_In.
  - intros ((Hc & Hn) & Hr). repeat split; try assumption.
    intros x Hx. apply childOk_slot, Hc. now apply list_elem_of_In.
Qed.

Lemma sameShape_slotRef (st st' : State) (k : Class) :
  sameShape st st' -> slotRef k st' = slotRef k st.
Proof. intros (_ & _ & _ & A4 & A5 & A6 & A7 & A8). destruct k; cbn; congruence. Qed.

Lemma sameShape_graphInv (st st' : State) :
  sameShape st st' -> graphInv st -> graphInv st'.
Proof.
  intros S. rewrite !graphInv_iff.
  now rewrite (sameShape_sceneInv _ _ S), (sameShape_refsInv _ _ S).
Qed.

Lemma classAt_lt (st : State) (x : nat) (k : Class) :
  classAt st x = Some k -> x < length (heap st).
Proof.
  unfold classAt. destruct (heap st !! x) eqn:E; [|discriminate].
  intros _. now apply lookup_lt_Some in E.
Qed.

Lemma count_le_one (p : nat -> bool) (a : nat) (l : list nat) :
  NoDup l -> (forall x, x ∈ l -> p x = true -> x = a) ->
  length (List.filter p l) <= 1.
Proof.
  induction l as [|b l IH]; cbn [List.filter length]; [lia|].
  rewrite NoDup_cons. intros [Hb Hl] H.
  assert (IH' : length (List.filter p l) <= 1).
  { apply IH; [exact Hl|]. intros x Hx. apply H. now right. }
  destruct (p b) eqn:E; [|exact IH'].
  assert (b = a) by (apply H; [now left|exact E]). subst b.
  rewrite filter_none; [cbn; lia|].
  intros x Hx. destruct (p x) eqn:Ex; [|reflexivity].
  apply list_elem_of_In in Hx.
  assert (x = a) by (apply H; [now right|exact Ex]). now subst x.
Qed.

(** A well-formed scene holds at most one object of each replaceable class. *)
Lemma graphInv_at_most_one (st : State) (k : Class) :
  graphInv st -> replaced k = true -> countClass k st <= 1.
Proof.
  intros (Hn & Hc & _) Hk. unfold countClass.
  destruct (slotRef k st) as [a|] eqn:E.
  - apply (count_le_one _ a); [exact Hn|].
    intros x Hx Hp. destruct (Hc x Hx) as (k' & Ek & Hs).
    rewrite Ek in Hp. apply Class_eqb_eq in Hp. subst k'.
    specialize (Hs Hk). congruence.
  - rewrite filter_none; [cbn; lia|].
    intros x Hx. apply list_elem_of_In in Hx.
    destruct (Hc x Hx) as (k' & Ek & Hs). rewrite Ek.
    destruct (Class_eqb k' k) eqn:Ek'; [|reflexivity].
    apply Class_eqb_eq in Ek'. subst k'. specialize (Hs Hk). congruence.
Qed.

Lemma filter_removeFirst (p : nat -> bool) (a : nat) (l : list nat) :
  p a = false -> List.filter p (removeFirst a l) = List.filter p l.
Proof.
  intros Ha. induction l as [|b l IH]; cbn [removeFirst List.filter]; [reflexivity|].
  destruct (Nat.eqb_spec a b) as [->|Hne].
  - now rewrite Ha.
  - cbn [List.filter]. now rewrite IH.
Qed.

(** One clearing statement: the child that the ref of class [k] holds is
    removed. *)
Lemma clear_step (k : Class) (st st' : State) :
  replaced k = true ->
  heap st' = heap st ->
  (forall k', slotRef k' st' = slotRef k' st) ->
  sceneChildren st' = removeRef (slotRef k st) (sceneChildren st) ->
  graphInv st ->
  graphInv st' /\ noClass k st' /\
  (forall k', noClass k' st -> noClass k' st') /\
  (forall k', k' <> k -> countClass k' st' = countClass k' st).
Proof.
  intros Hk Hh Hs Hc (Hn & Hch & Hr).
  assert (Hcl : forall a, classAt st' a = classAt st a)
    by (intros a; unfold classAt; now rewrite Hh).
  assert (Hsub : forall x, x ∈ sceneChildren st' -> x ∈ sceneChildren st).
  { intros x. rewrite Hc. apply removeRef_elem. }
  split; [|split; [|split]].
  - split; [|split].
    + rewrite Hc. now apply removeRef_NoDup.
    + intros x Hx. destruct (Hch x (Hsub x Hx)) as (k' & E & H).
      exists k'. rewrite Hcl, Hs. now split.
    + intros k' a. rewrite Hs, Hcl. apply Hr.
  - intros x Hx Hcx. rewrite Hcl in Hcx.
    destruct (Hch x (Hsub x Hx)) as (k' & E & H).
    assert (k' = k) by congruence. subst k'. specialize (H Hk).
    rewrite Hc, H in Hx. cbn [removeRef] in Hx.
    now apply (removeFirst_gone x (sceneChildren st) Hn).
  - intros k' Hno x Hx. rewrite Hcl. apply Hno, Hsub, Hx.
  - intros k' Hne. unfold countClass. rewrite Hc.
    destruct (slotRef k st) as [a|] eqn:E; cbn [removeRef].
    + rewrite filter_removeFirst.
      * f_equal. apply filter_ext. intros x. now rewrite Hcl.
      * rewrite Hcl, (Hr k a E).
        destruct (Class_eqb k k') eqn:Ek; [|reflexivity].
        apply Class_eqb_eq in Ek. congruence.
    + f_equal. apply filter_ext. intros x. now rewrite Hcl.
Qed.

(** One installing statement: an object of class [k] is constructed, added
    to the scene, and its ref, if the class has one, is set. *)
Lemma install_step (k : Class) (o : Object3D) (a : nat) (st st' : State) :
  cls o = k ->
  a = length (heap st) ->
  heap st' = heap st ++ [o] ->
  sceneChildren st' = sceneChildren st ++ [a] ->
  (forall k', k' <> k -> slotRef k' st' = slotRef k' st) ->
  (slotRef k st' = Some a \/ (slotRef k st' = None /\ replaced k = false)) ->
  graphInv st -> noClass k st ->
  graphInv st' /\
  (forall k', k' <> k -> noClass k' st -> noClass k' st') /\
  (forall k', countClass k' st' = countClass k' st + (if Class_eqb k' k then 1 else 0)).
Proof.
  intros Ho Ha Hh Hc Hs Hk (Hn & Hch & Hr) Hno.
  assert (Hold : forall x k', classAt st x = Some k' -> classAt st' x = Some k').
  { intros x k' E. unfold classAt in *. rewrite Hh.
    destruct (heap st !! x) as [o'|] eqn:E'; [|discriminate].
    now rewrite (lookup_app_l_Some _ _ _ _ E'). }
  assert (Hnew : classAt st' a = Some k).
  { unfold classAt. rewrite Hh, Ha, lookup_app_r by lia.
    replace (length (heap st) - length (heap st)) with 0 by lia. cbn. now rewrite Ho. }
  assert (Hlt : forall x, x ∈ sceneChildren st -> x < a).
  { intros x Hx. destruct (Hch x Hx) as (k' & E & _). rewrite Ha.
    now apply classAt_lt in E. }
  assert (Hin : forall x, x ∈ sceneChildren st' -> x ∈ sceneChildren st \/ x = a).
  { intros x. rewrite Hc, elem_of_app, list_elem_of_singleton. tauto. }
  split; [|split].
  - split; [|split].
    + rewrite Hc. apply NoDup_app. split; [exact Hn|]. split; [|apply NoDup_singleton].
      intros x Hx. rewrite list_elem_of_singleton. specialize (Hlt x Hx). lia.
    + intros x Hx. destruct (Hin x Hx) as [Hx'| ->].
      * destruct (Hch x Hx') as (k' & E & H). exists k'. split; [now apply Hold|].
        intros Hrep. rewrite Hs; [now apply H|].
        intros ->. now apply (Hno x Hx').
      * exists k. split; [exact Hnew|]. intros Hrep.
        destruct Hk as [Hk|[_ Hk]]; [exact Hk|congruence].
    + intros k' b Hb. destruct (Class_eqb k' k) eqn:E.
      * apply Class_eqb_eq in E. subst k'.
        destruct Hk as [Hk|[Hk _]]; [|congruence].
        assert (b = a) by congruence. now subst b.
      * assert (k' <> k) by (intros ->; now rewrite Class_eqb_refl in E).
        rewrite Hs in Hb by assumption. now apply Hold, Hr.
  - intros k' Hne Hno' x Hx. destruct (Hin x Hx) as [Hx'| ->].
    + destruct (Hch x Hx') as (k'' & E & _). rewrite (Hold _ _ E).
      specialize (Hno' x Hx'). congruence.
    + rewrite Hnew. congruence.
  - intros k'. unfold countClass. rewrite Hc, List.filter_app, length_app.
    cbn [List.filter]. rewrite Hnew.
    assert (Class_eqb k k' = Class_eqb k' k) as -> by (now destruct k, k').
    f_equal; [|now destruct (Class_eqb k' k)].
    f_equal. apply filter_ext_in. intros x Hx. apply list_elem_of_In in Hx.
    destruct (Hch x Hx) as (k'' & E & _). now rewrite (Hold _ _ E), E.
Qed.

End GraphFacts.

Section DuringLoadFacts.
Variables (c : ViewerControls) (g : BufferGeometry) (sc : Scene) (st : State).
Hypothesis Hsc : sceneRef st = Some sc.
Hypothesis Hinv : graphInv st.

Let fixedCounts (st' : State) : Prop :=
  forall k, replaced k = false -> countClass k st' = countClass k st.

Ltac slots_but := intros [] Hne; try reflexivity; exfalso; apply Hne; reflexivity.

Lemma duringLoad_0_inv :
  graphInv (duringLoad 0 c g sc st) /\ fixedCounts (duringLoad 0 c g sc st).
Proof.
  rewrite (duringLoad_0 c g sc st Hsc). split; [exact Hinv|]. now intros k _.
Qed.

Lemma children_st : sceneChildren st = children sc.
Proof. unfold sceneChildren. now rewrite Hsc. Qed.

Lemma duringLoad_1_inv :
  graphInv (duringLoad 1 c g sc st) /\ noClass Mesh (duringLoad 1 c g sc st) /\
  fixedCounts (duringLoad 1 c g sc st).
Proof.
  assert (Hc : sceneChildren (duringLoad 1 c g sc st)
               = removeRef (slotRef Mesh st) (sceneChildren st))
    by now rewrite children_st.
  destruct (clear_step Mesh st (duringLoad 1 c g sc st) eq_refl eq_refl
              (fun _ => eq_refl) Hc Hinv) as (J & N & _ & C).
  split; [exact J|]. split; [exact N|].
  intros k Hk. apply C. intros ->. discriminate.
Qed.

Lemma duringLoad_2_inv :
  graphInv (duringLoad 2 c g sc st) /\ noClass Mesh (duringLoad 2 c g sc st) /\
  noClass LineSegments (duringLoad 2 c g sc st) /\
  fixedCounts (duringLoad 2 c g sc st).
Proof.
  destruct duringLoad_1_inv as (J1 & N1 & C1).
  destruct (clear_step LineSegments (duringLoad 1 c g sc st) (duringLoad 2 c g sc st)
              eq_refl eq_refl (fun _ => eq_refl) eq_refl J1) as (J & N & K & C).
  split; [exact J|]. split; [now apply K|]. split; [exact N|].
  intros k Hk. rewrite C; [now apply C1|]. intros ->. discriminate.
Qed.

Lemma duringLoad_3_inv :
  graphInv (duringLoad 3 c g sc st) /\ noClass Mesh (duringLoad 3 c g sc st) /\
  noClass LineSegments (duringLoad 3 c g sc st) /\
  noClass VertexNormalsHelper (duringLoad 3 c g sc st) /\
  fixedCounts (duringLoad 3 c g sc st).
Proof.
  destruct duringLoad_2_inv as (J2 & M2 & W2 & C2).
  destruct (clear_step VertexNormalsHelper (duringLoad 2 c g sc st)
              (duringLoad 3 c g sc st)
              eq_refl eq_refl (fun _ => eq_refl) eq_refl J2) as (J & N & K & C).
  split; [exact J|]. split; [now apply K|]. split; [now apply K|].
  split; [exact N|].
  intros k Hk. rewrite C; [now apply C2|]. intros ->. discriminate.
Qed.

Lemma duringLoad_4_inv :
  graphInv (duringLoad 4 c g sc st) /\
  noClass LineSegments (duringLoad 4 c g sc st) /\
  noClass VertexNormalsHelper (duringLoad 4 c g sc st) /\
  fixedCounts (duringLoad 4 c g sc st).
Proof.
  destruct duringLoad_3_inv as (J3 & M3 & W3 & N3 & C3).
  assert (Hs : forall k', k' <> Mesh ->
                 slotRef k' (duringLoad 4 c g sc st) = slotRef k' (duringLoad 3 c g sc st))
    by slots_but.
  destruct (install_step Mesh (meshObject c g) (length (heap st))
              (duringLoad 3 c g sc st) (duringLoad 4 c g sc st)
              eq_refl eq_refl eq_refl eq_refl Hs (or_introl eq_refl) J3 M3)
    as (J & K & C).
  split; [exact J|]. split; [now apply K|]. split; [now apply K|].
  intros k Hk. rewrite C, C3 by exact Hk. destruct k; try discriminate; cbn; lia.
Qed.

Lemma duringLoad_5_inv :
  graphInv (duringLoad 5 c g sc st) /\
  noClass VertexNormalsHelper (duringLoad 5 c g sc st) /\
  fixedCounts (duringLoad 5 c g sc st).
Proof.
  destruct duringLoad_4_inv as (J4 & W4 & N4 & C4).
  assert (Hs : forall k', k' <> LineSegments ->
                 slotRef k' (duringLoad 5 c g sc st) = slotRef k' (duringLoad 4 c g sc st))
    by slots_but.
  assert (Ha : S (length (heap st)) = length (heap (duringLoad 4 c g sc st)))
    by (cbn; rewrite length_app; cbn; lia).
  destruct (install_step LineSegments (wireframeObject c g) (S (length (heap st)))
              (duringLoad 4 c g sc st) (duringLoad 5 c g sc st)
              eq_refl Ha eq_refl eq_refl Hs (or_introl eq_refl) J4 W4)
    as (J & K & C).
  split; [exact J|]. split; [now apply K|].
  intros k Hk. rewrite C, C4 by exact Hk. destruct k; try discriminate; cbn; lia.
Qed.

Lemma duringLoad_6_inv :
  graphInv (duringLoad 6 c g sc st) /\ fixedCounts (duringLoad 6 c g sc st).
Proof.
  destruct duringLoad_5_inv as (J5 & N5 & C5).
  assert (Hs : forall k', k' <> VertexNormalsHelper ->
                 slotRef k' (duringLoad 6 c g sc st) = slotRef k' (duringLoad 5 c g sc st))
    by slots_but.
  assert (Ha : S (S (length (heap st))) = length (heap (duringLoad 5 c g sc st)))
    by (cbn; rewrite !length_app; cbn; lia).
  destruct (install_step VertexNormalsHelper (normalsObject c g)
              (S (S (length (heap st))))
              (duringLoad 5 c g sc st) (duringLoad 6 c g sc st)
              eq_refl Ha eq_refl eq_refl Hs (or_introl eq_refl) J5 N5)
    as (J & K & C).
  split; [exact J|].
  intros k Hk. rewrite C, C5 by exact Hk. destruct k; try discriminate; cbn; lia.
Qed.

(** Every intermediate state of a load is well formed and holds the lights,
    the grid and the axes it held before. *)
Lemma duringLoad_inv (i : nat) :
  i <= 6 ->
  graphInv (duringLoad i c g sc st) /\
  forall k, replaced k = false ->
            countClass k (duringLoad i c g sc st) = countClass k st.
Proof.
  intros Hi.
  destruct i as [|[|[|[|[|[|[|i]]]]]]]; try lia.
  - apply duringLoad_0_inv.
  - destruct duringLoad_1_inv as (J & _ & C). now split.
  - destruct duringLoad_2_inv as (J & _ & _ & C). now split.
  - destruct duringLoad_3_inv as (J & _ & _ & _ & C). now split.
  - destruct duringLoad_4_inv as (J & _ & _ & C). now split.
  - destruct duringLoad_5_inv as (J & _ & C). now split.
  - apply duringLoad_6_inv.
Qed.

Lemma afterLoad_shape :
  sameShape (duringLoad 6 c g sc st) (afterLoad c g sc st).
Proof.
  repeat split; try reflexivity.
  - cbn. now rewrite <- !app_assoc.
  - intros a. unfold classAt. cbn. now rewrite <- !app_assoc.
Qed.

End DuringLoadFacts.

Section InitFacts.

Lemma fresh_scene (st' : State) (h : list Object3D) (o0 o1 o2 o3 : Object3D)
      (m w n : option nat) :
  heap st' = (((h ++ [o0]) ++ [o1]) ++ [o2]) ++ [o3] ->
  sceneChildren st' = [length h; length (h ++ [o0]); length ((h ++ [o0]) ++ [o1]);
                       length (((h ++ [o0]) ++ [o1]) ++ [o2])] ->
  cls o0 = AmbientLight -> cls o1 = DirectionalLight ->
  cls o2 = GridHelper -> cls o3 = AxesHelper ->
  meshRef st' = m -> wireframeRef st' = w -> normalsHelperRef st' = n ->
  gridHelperRef st' = Some (length ((h ++ [o0]) ++ [o1])) ->
  axesHelperRef st' = Some (length (((h ++ [o0]) ++ [o1]) ++ [o2])) ->
  (forall a, m = Some a -> cls <$> h !! a = Some Mesh) ->
  (forall a, w = Some a -> cls <$> h !! a = Some LineSegments) ->
  (forall a, n = Some a -> cls <$> h !! a = Some VertexNormalsHelper) ->
  graphInv st' /\ fixedOnce st'.
Proof.
  intros Hh Hc C0 C1 C2 C3 Hm Hw Hn Hg Hx Rm Rw Rn.
  repeat rewrite length_app in Hc. repeat rewrite length_app in Hg.
  repeat rewrite length_app in Hx. cbn [length] in Hc, Hg, Hx.
  rewrite <- !app_assoc in Hh. cbn [app] in Hh.
  set (a := length h) in *.
  assert (L : forall i o, [o0; o1; o2; o3] !! i = Some o ->
                          classAt st' (a + i) = Some (cls o)).
  { intros i o Hi. unfold classAt. rewrite Hh, lookup_app_r by (unfold a; lia).
    replace (a + i - length h) with i by (unfold a; lia). now rewrite Hi. }
  assert (L0 : classAt st' a = Some AmbientLight)
    by (rewrite <- C0, <- (L 0 o0 eq_refl); f_equal; lia).
  assert (L1 : classAt st' (a + 1) = Some DirectionalLight)
    by (rewrite <- C1; apply (L 1 o1 eq_refl)).
  assert (L2 : classAt st' (a + 1 + 1) = Some GridHelper)
    by (rewrite <- C2, <- (L 2 o2 eq_refl); f_equal; lia).
  assert (L3 : classAt st' (a + 1 + 1 + 1) = Some AxesHelper)
    by (rewrite <- C3, <- (L 3 o3 eq_refl); f_equal; lia).
  assert (Old : forall b k, cls <$> h !! b = Some k -> classAt st' b = Some k).
  { intros b k Hb. unfold classAt. rewrite Hh.
    destruct (h !! b) as [o|] eqn:E; [|discriminate].
    now rewrite (lookup_app_l_Some _ _ _ _ E). }
  split.
  - split; [|split].
    + rewrite Hc. repeat (apply NoDup_cons; split);
        rewrite ?not_elem_of_cons;
        repeat match goal with |- _ /\ _ => split end;
        try lia; try apply not_elem_of_nil. apply NoDup_nil_2.
    + intros x. rewrite Hc, !elem_of_cons, elem_of_nil.
      intros [->|[->|[->|[->|[]]]]];
        [exists AmbientLight|exists DirectionalLight|exists GridHelper|exists AxesHelper];
        (split; [assumption|discriminate]).
    + intros k b. destruct k; cbn [slotRef]; try discriminate.
      * rewrite Hm. intros E. apply Old, Rm, E.
      * rewrite Hw. intros E. apply Old, Rw, E.
      * rewrite Hn. intros E. apply Old, Rn, E.
      * rewrite Hg. intros E. injection E as <-. exact L2.
      * rewrite Hx. intros E. injection E as <-. exact L3.
  - unfold fixedOnce, countClass. rewrite Hc. cbn [List.filter].
    rewrite L0, L1, L2, L3. cbn. now repeat split.
Qed.

Lemma graphInv_refs (st : State) :
  graphInv st ->
  (forall a, meshRef st = Some a -> cls <$> heap st !! a = Some Mesh) /\
  (forall a, wireframeRef st = Some a -> cls <$> heap st !! a = Some LineSegments) /\
  (forall a, normalsHelperRef st = Some a ->
             cls <$> heap st !! a = Some VertexNormalsHelper).
Proof.
  intros (_ & _ & Hr). repeat split; intros a Ha.
  - apply (Hr Mesh a Ha).
  - apply (Hr LineSegments a Ha).
  - apply (Hr VertexNormalsHelper a Ha).
Qed.

Lemma sameShape_set_isInitialized (v : bool) (st : State) :
  sameShape st (set_isInitialized v st).
Proof. now repeat split. Qed.

(** [initThreeJS] leaves a well-formed scene with one of each fixed
    object, whether it builds a scene or returns at its guard. *)
Lemma initThreeJS_inv (r : Env) (st : State) :
  graphInv st ->
  (fixedOnce st \/ (negb (canvasRef st) || envInitialized r) = false) ->
  graphInv (initThreeJS r st) /\ fixedOnce (initThreeJS r st).
Proof.
  intros Hinv Hf. unfold initThreeJS.
  destruct (negb (canvasRef st) || envInitialized r) eqn:G.
  - split; [exact Hinv|]. destruct Hf as [Hf|Hf]; [exact Hf|discriminate].
  - clear Hf. destruct (graphInv_refs st Hinv) as (Rm & Rw & Rn).
    lazy beta iota zeta delta [newObject].
    match goal with
    | |- graphInv (set_isInitialized true (animate ?c ?s)) /\ _ =>
        assert (F : graphInv s /\ fixedOnce s)
    end.
    { eapply (fresh_scene _ (heap st) _ _ _ _ (meshRef st) (wireframeRef st)
                (normalsHelperRef st)); try reflexivity; assumption. }
    match goal with
    | |- graphInv (set_isInitialized true (animate ?c ?s)) /\ _ =>
        assert (S : sameShape s (set_isInitialized true (animate c s)))
          by (eapply sameShape_trans;
              [apply sameShape_animate|apply sameShape_set_isInitialized])
    end.
    destruct F as [F1 (F2 & F3 & F4 & F5)].
    split; [exact (sameShape_graphInv _ _ S F1)|].
    unfold fixedOnce.
    rewrite (sameShape_countClass AmbientLight _ _ S),
      (sameShape_countClass DirectionalLight _ _ S),
      (sameShape_countClass GridHelper _ _ S),
      (sameShape_countClass AxesHelper _ _ S).
    exact (conj F2 (conj F3 (conj F4 F5))).
Qed.

End InitFacts.

Section LifeFacts.
Variable parse : list byte -> option BufferGeometry.

Lemma completedAt_le (s : Step) : completedAt s <= 6.
Proof. destruct s; cbn; lia. Qed.

Lemma loadEffect_inv (throws : Step -> bool) (r : Env) (st : State) :
  graphInv st -> fixedOnce st ->
  graphInv (loadEffect parse throws r st) /\ fixedOnce (loadEffect parse throws r st).
Proof.
  intros Hinv (F1 & F2 & F3 & F4).
  destruct (loadEffect_cases parse throws r st)
    as [E|[(sc & s & g & Hsc & _ & _ & E)|(sc & f & g & Hsc & _ & _ & _ & E)]];
    rewrite E.
  - split; [exact Hinv|]. now repeat split.
  - destruct (duringLoad_inv (envControls r) g sc st Hsc Hinv (completedAt s)
                (completedAt_le s)) as (J & C).
    assert (S : sameShape (duringLoad (completedAt s) (envControls r) g sc st)
                  (emit (OnError errorMessage)
                     (emit ConsoleError
                        (duringLoad (completedAt s) (envControls r) g sc st))))
      by now repeat split.
    split; [exact (sameShape_graphInv _ _ S J)|].
    unfold fixedOnce.
    rewrite (sameShape_countClass AmbientLight _ _ S),
      (sameShape_countClass DirectionalLight _ _ S),
      (sameShape_countClass GridHelper _ _ S),
      (sameShape_countClass AxesHelper _ _ S), !C by reflexivity.
    now repeat split.
  - destruct (duringLoad_inv (envControls r) (normalizeGeometry g) sc st Hsc Hinv 6)
      as (J & C); [lia|].
    pose proof (afterLoad_shape (envControls r) (normalizeGeometry g) sc st) as S.
    split; [exact (sameShape_graphInv _ _ S J)|].
    unfold fixedOnce.
    rewrite (sameShape_countClass AmbientLight _ _ S),
      (sameShape_countClass DirectionalLight _ _ S),
      (sameShape_countClass GridHelper _ _ S),
      (sameShape_countClass AxesHelper _ _ S), !C by reflexivity.
    now repeat split.
Qed.

Lemma sameShape_fixedOnce (st st' : State) :
  sameShape st st' -> fixedOnce st -> fixedOnce st'.
Proof.
  intros S (F1 & F2 & F3 & F4). unfold fixedOnce.
  rewrite (sameShape_countClass AmbientLight _ _ S),
    (sameShape_countClass DirectionalLight _ _ S),
    (sameShape_countClass GridHelper _ _ S),
    (sameShape_countClass AxesHelper _ _ S).
  exact (conj F1 (conj F2 (conj F3 F4))).
Qed.

Lemma sameShape_initEffect_tail (st : State) :
  sameShape st (emit AddResizeListener
                  (set_resizeListeners (S (resizeListeners st)) st)).
Proof. now repeat split. Qed.

Lemma initEffect_inv (r : Env) (st : State) :
  graphInv st ->
  (fixedOnce st \/ (negb (canvasRef st) || envInitialized r) = false) ->
  graphInv (initEffect r st) /\ fixedOnce (initEffect r st).
Proof.
  intros Hinv Hf. unfold initEffect.
  destruct (initThreeJS_inv r st Hinv Hf) as (J & F).
  pose proof (sameShape_initEffect_tail (initThreeJS r st)) as S.
  split; [exact (sameShape_graphInv _ _ S J)|exact (sameShape_fixedOnce _ _ S F)].
Qed.

Lemma perform_inv (a : Action) (st : State) :
  graphInv st -> fixedOnce st ->
  graphInv (perform parse a st) /\ fixedOnce (perform parse a st).
Proof.
  intros Hinv Hf. destruct a as [r|throws r|r|]; cbn [perform].
  - unfold rerunInitEffect. pose proof (sameShape_cleanup st) as S.
    apply initEffect_inv.
    + exact (sameShape_graphInv _ _ S Hinv).
    + left. exact (sameShape_fixedOnce _ _ S Hf).
  - now apply loadEffect_inv.
  - pose proof (sameShape_controlsEffect r st) as S.
    split; [exact (sameShape_graphInv _ _ S Hinv)|exact (sameShape_fixedOnce _ _ S Hf)].
  - pose proof (sameShape_runFrame st) as S.
    split; [exact (sameShape_graphInv _ _ S Hinv)|exact (sameShape_fixedOnce _ _ S Hf)].
Qed.

Lemma graphInv_mounted : graphInv mounted.
Proof.
  split; [apply NoDup_nil_2|]. split.
  - intros x Hx. now apply elem_of_nil in Hx.
  - intros [] a; discriminate.
Qed.

Lemma life_inv (c : ViewerControls) (f : option STLFile) (acts : list Action) :
  graphInv (life parse c f acts) /\ fixedOnce (life parse c f acts).
Proof.
  unfold life.
  assert (H0 : graphInv (initEffect (renderEnv c f mounted) mounted) /\
               fixedOnce (initEffect (renderEnv c f mounted) mounted)).
  { apply initEffect_inv; [apply graphInv_mounted|now right]. }
  revert H0. generalize (initEffect (renderEnv c f mounted) mounted).
  induction acts as [|a acts IH]; intros st H0; cbn [fold_left]; [exact H0|].
  apply IH. destruct H0 as [J F]. now apply perform_inv.
Qed.

(** X17. The scene graph stays well formed through the whole life of a
    mounted viewer, whatever effects run, in whatever order, with whatever
    props, and wherever a load fails: no child twice, every mesh, wireframe
    and normals child the one its ref holds, every ref that is set on an
    object of its kind, at most one mesh, one wireframe and one normals
    helper in the scene, and exactly one of each light and helper that
    [initThreeJS] installs. *)
Theorem scene_graph_is_well_formed_throughout :
  forall (c : ViewerControls) (f : option STLFile) (acts : list Action),
    sceneInv (life parse c f acts) = true /\
    refsInv (life parse c f acts) = true /\
    countClass Mesh (life parse c f acts) <= 1 /\
    countClass LineSegments (life parse c f acts) <= 1 /\
    countClass VertexNormalsHelper (life parse c f acts) <= 1 /\
    countClass AmbientLight (life parse c f acts) = 1 /\
    countClass DirectionalLight (life parse c f acts) = 1 /\
    countClass GridHelper (life parse c f acts) = 1 /\
    countClass AxesHelper (life parse c f acts) = 1.
Proof.
  intros c f acts. destruct (life_inv c f acts) as (J & F1 & F2 & F3 & F4).
  pose proof (proj1 (graphInv_iff _) J) as [S R].
  split; [exact S|]. split; [exact R|].
  split; [now apply graphInv_at_most_one|].
  split; [now apply graphInv_at_most_one|].
  split; [now apply graphInv_at_most_one|].
  now repeat split.
Qed.

End LifeFacts.

(* ===================================================================== *)
(** * The frame loop and the resize listener through the life of the viewer *)
(* ===================================================================== *)

Section LoopFacts.
Variable parse : list byte -> option BufferGeometry.

Lemma sameLoop_refl (st : State) : sameLoop st st.
Proof. now repeat split. Qed.

Lemma sameLoop_loopInv (st st' : State) :
  sameLoop st st' -> loopInv st' = loopInv st.
Proof. intros (A & B & _). unfold loopInv. now rewrite A, B. Qed.

Lemma sameLoop_loadEffect (throws : Step -> bool) (r : Env) (st : State) :
  sameLoop st (loadEffect parse throws r st).
Proof.
  destruct (loadEffect_cases parse throws r st)
    as [E|[(sc & s & g & _ & _ & _ & E)|(sc & f & g & _ & _ & _ & _ & E)]];
    rewrite E; now repeat split.
Qed.

Lemma sameLoop_controlsEffect (r : Env) (st : State) :
  sameLoop st (controlsEffect r st).
Proof.
  destruct (controlsApply r st) eqn:G.
  - unfold controlsApply in G. apply andb_true_iff in G as [Gs Gr].
    destruct (sceneRef st) as [sc|] eqn:Hsc; [|discriminate].
    rewrite (controlsEffect_shape r st sc Hsc Gr). now repeat split.
  - rewrite (controlsEffect_guard r st G). apply sameLoop_refl.
Qed.

Lemma resizeListeners_animate (c : ViewerControls) (st : State) :
  resizeListeners (animate c st) = resizeListeners st.
Proof.
  destruct st as [i cv sc cam ren ctl m w n g x af h q nf rl t].
  unfold animate.
  destruct m; [destruct (Qlt_le_dec 0 (rotationSpeed c))|];
    destruct ctl, ren, cam, sc; reflexivity.
Qed.

Lemma resizeListeners_runFrame (st : State) :
  resizeListeners (runFrame st) = resizeListeners st.
Proof.
  unfold runFrame.
  transitivity (resizeListeners (set_frameQueue [] st)); [|reflexivity].
  generalize (set_frameQueue [] st). generalize (frameQueue st).
  induction l as [|cb l IH]; intros s; cbn [fold_left]; [reflexivity|].
  now rewrite IH, resizeListeners_animate.
Qed.

Lemma resizeListeners_set_isInitialized (v : bool) (st : State) :
  resizeListeners (set_isInitialized v st) = resizeListeners st.
Proof. reflexivity. Qed.

Lemma resizeListeners_initThreeJS (r : Env) (st : State) :
  resizeListeners (initThreeJS r st) = resizeListeners st.
Proof.
  unfold initThreeJS. destruct (negb (canvasRef st) || envInitialized r); [reflexivity|].
  lazy beta iota zeta delta [newObject].
  rewrite resizeListeners_set_isInitialized, resizeListeners_animate.
  reflexivity.
Qed.

(** The loop and the listener after the init effect has run on a component
    that has no frame pending. *)
Lemma initEffect_loop (r : Env) (st : State) :
  frameQueue st = [] ->
  loopInv (initEffect r st) = true /\
  resizeListeners (initEffect r st) = S (resizeListeners st).
Proof.
  intros Hq. unfold initEffect. split.
  - rewrite <- (loopInv_initThreeJS r st Hq). reflexivity.
  - cbn [resizeListeners emit set_trace set_resizeListeners].
    now rewrite resizeListeners_initThreeJS.
Qed.

Lemma cleanup_loop (st : State) :
  loopInv st = true ->
  frameQueue (cleanup st) = [] /\
  resizeListeners (cleanup st) = pred (resizeListeners st).
Proof.
  intros H. rewrite cleanup_shape. split; [|reflexivity].
  cbn [frameQueue set_trace set_frameQueue]. now apply loopInv_filter.
Qed.

Lemma perform_loop (a : Action) (st : State) :
  loopInv st = true -> resizeListeners st = 1 ->
  loopInv (perform parse a st) = true /\ resizeListeners (perform parse a st) = 1.
Proof.
  intros Hl Hr. destruct a as [r|throws r|r|]; cbn [perform].
  - unfold rerunInitEffect. destruct (cleanup_loop st Hl) as (Hq & Hn).
    destruct (initEffect_loop r (cleanup st) Hq) as (L & N).
    split; [exact L|]. rewrite N, Hn, Hr. reflexivity.
  - pose proof (sameLoop_loadEffect throws r st) as S.
    rewrite (sameLoop_loopInv _ _ S). destruct S as (_ & _ & _ & ->). now split.
  - pose proof (sameLoop_controlsEffect r st) as S.
    rewrite (sameLoop_loopInv _ _ S). destruct S as (_ & _ & _ & ->). now split.
  - split; [now apply loopInv_runFrame|]. now rewrite resizeListeners_runFrame.
Qed.

Lemma life_loop (c : ViewerControls) (f : option STLFile) (acts : list Action) :
  loopInv (life parse c f acts) = true /\ resizeListeners (life parse c f acts) = 1.
Proof.
  unfold life.
  assert (H0 : loopInv (initEffect (renderEnv c f mounted) mounted) = true /\
               resizeListeners (initEffect (renderEnv c f mounted) mounted) = 1)
    by (apply (initEffect_loop _ mounted); reflexivity).
  revert H0. generalize (initEffect (renderEnv c f mounted) mounted).
  induction acts as [|a acts IH]; intros st H0; cbn [fold_left]; [exact H0|].
  apply IH. destruct H0 as [L R]. now apply perform_loop.
Qed.

(** X18. Through the whole life of a mounted viewer at most one frame
    callback is pending, its handle is the one in [animationFrameRef], and
    exactly one resize listener is registered; the teardown then leaves no
    callback and no listener, and no later display refresh changes
    anything. *)
Theorem one_frame_loop_and_one_listener_throughout :
  forall (c : ViewerControls) (f : option STLFile) (acts : list Action),
    length (frameQueue (life parse c f acts)) <= 1 /\
    (forall cb, In cb (frameQueue (life parse c f acts)) ->
                fst cb = animationFrameRef (life parse c f acts)) /\
    resizeListeners (life parse c f acts) = 1 /\
    frameQueue (cleanup (life parse c f acts)) = [] /\
    resizeListeners (cleanup (life parse c f acts)) = 0 /\
    (forall n, runFrames n (cleanup (life parse c f acts))
               = cleanup (life parse c f acts)).
Proof.
  intros c f acts. destruct (life_loop c f acts) as (L & R).
  destruct (cleanup_loop _ L) as (Q & N).
  assert (HL := L). unfold loopInv in HL.
  split; [|split; [|split; [|split; [|split]]]].
  - destruct (frameQueue (life parse c f acts)) as [|cb [|cb' q]];
      cbn [length]; try lia; discriminate.
  - intros cb Hin.
    destruct (frameQueue (life parse c f acts)) as [|cb0 [|cb' q]];
      [destruct Hin| |discriminate].
    destruct Hin as [<-|[]]. now apply Nat.eqb_eq.
  - exact R.
  - exact Q.
  - now rewrite N, R.
  - intros n. now apply runFrames_idle.
Qed.


End LoopFacts.

(* ===================================================================== *)
(** * Properties of fullscreen mode and of the App *)
(* ===================================================================== *)

Section FullscreenFacts.
Import Fullscreen.

Lemma settle_order (v : bool) (s : State) :
  settle true v s = settle false v s.
Proof. reflexivity. Qed.

Lemma perform_sync (a : Action) (s : State) :
  isFullscreen s = fullscreenElement s ->
  isFullscreen (perform a s) = fullscreenElement (perform a s) /\
  containerRef (perform a s) = containerRef s.
Proof.
  intros H. destruct s as [c i e l]. cbn in H. subst i.
  destruct a as [granted eventFirst|key|]; cbn [perform].
  - unfold toggleFullscreen. cbn [containerRef fullscreenElement].
    destruct c, e, granted, eventFirst; split; reflexivity.
  - unfold handleKeyDown. cbn [fullscreenElement].
    destruct (String.eqb key "Escape"), e; split; reflexivity.
  - split; reflexivity.
Qed.

(** X10. The [isFullscreen] state cell agrees with
    [document.fullscreenElement] after every sequence of clicks, keys and
    exits made by the browser, in whichever order the [fullscreenchange]
    event and the promise of a granted request arrive; a refused request
    changes neither. *)
Theorem fullscreen_flag_follows_document :
  forall acts : list Action,
    isFullscreen (performAll acts initial)
    = fullscreenElement (performAll acts initial) /\
    containerRef (performAll acts initial) = true /\
    (forall granted s, toggleFullscreen granted true s
                       = toggleFullscreen granted false s) /\
    (forall eventFirst s,
        fullscreenElement s = false ->
        isFullscreen (toggleFullscreen false eventFirst s) = isFullscreen s /\
        fullscreenElement (toggleFullscreen false eventFirst s) = false) /\
    (forall eventFirst s,
        containerRef s = true ->
        fullscreenElement (toggleFullscreen true eventFirst s)
        = negb (fullscreenElement s)).
Proof.
  intros acts. unfold performAll.
  assert (H : isFullscreen initial = fullscreenElement initial /\
              containerRef initial = true) by (split; reflexivity).
  revert H. generalize initial.
  induction acts as [|a acts IH]; intros s [H C]; cbn [fold_left].
  - split; [exact H|]. split; [exact C|]. split; [|split].
    + intros granted s'. unfold toggleFullscreen.
      now rewrite !settle_order.
    + intros eventFirst [c i e l] He. cbn in He. subst e.
      unfold toggleFullscreen. cbn [containerRef fullscreenElement].
      destruct c; split; reflexivity.
    + intros eventFirst [c i e l] Hc. cbn in Hc. subst c.
      unfold toggleFullscreen. cbn [containerRef fullscreenElement negb].
      destruct e, eventFirst; reflexivity.
  - apply IH. destruct (perform_sync a s H) as [H' C']. split; [exact H'|].
    now rewrite C'.
Qed.

(** X11. What each action sends out. A click asks to leave fullscreen mode
    when the document is in it and asks to enter it otherwise; a refused
    request is logged and reported to [onError] once, with the fixed
    message; Escape leaves fullscreen mode only when the document is in it,
    and no other key does anything. Nothing else ever reaches [onError]. *)
Theorem fullscreen_calls_per_action :
  forall (a : Action) (s : State),
    containerRef s = true ->
    calls (perform a s)
    = calls s ++
      match a with
      | Click granted _ =>
          if fullscreenElement s then [ExitFullscreen]
          else if granted then [RequestFullscreen]
               else [RequestFullscreen; ConsoleError; OnError deniedMessage]
      | Key key =>
          if String.eqb key "Escape" && fullscreenElement s
          then [ExitFullscreen] else []
      | BrowserExit => []
      end /\
    List.filter isOnError (calls (perform a s))
    = List.filter isOnError (calls s)
      ++ (if refused s a then [OnError deniedMessage] else []).
Proof.
  intros a [c i e l] Hc. cbn in Hc. subst c.
  destruct a as [granted eventFirst|key|]; cbn [perform refused].
  - unfold toggleFullscreen. cbn [containerRef fullscreenElement negb andb].
    destruct e, granted, eventFirst; cbn;
      rewrite <- ?app_assoc, ?List.filter_app; cbn;
      rewrite ?app_nil_r; split; reflexivity.
  - unfold handleKeyDown. cbn [fullscreenElement].
    destruct (String.eqb key "Escape"), e; cbn;
      rewrite ?List.filter_app; cbn; rewrite ?app_nil_r; split; reflexivity.
  - cbn. rewrite !app_nil_r. split; reflexivity.
Qed.

Lemma fullscreen_calls_per_action_witness :
  calls (perform (Click false true) initial)
  = [RequestFullscreen; ConsoleError; OnError deniedMessage].
Proof.
  exact (proj1 (fullscreen_calls_per_action (Click false true) initial eq_refl)).
Defined.

End FullscreenFacts.

Section AppFacts.
Import Stl Three STLViewer App.

Variable parse : list byte -> option BufferGeometry.


(** X13. Two uploads whose reads overlap. The spinner goes off, and Reset
    is enabled again, as soon as the first read settles, while the second
    is still pending; the file that is set in the end is the one whose
    read settled last, whichever was picked first; a read that fails
    after another succeeded leaves that file displayed under the load
    error, and a read that succeeds after another failed leaves the error
    displayed over the new file. *)
Theorem overlapping_uploads_last_settled_wins :
  forall (f1 f2 : Picked) (b1 b2 : list byte) (a : AppState),
    isLoading (uploadStarted (uploadStarted a)) = true /\
    resetDisabled (uploadSettled f1 (Some b1) (uploadStarted (uploadStarted a)))
    = false /\
    stlFile (uploadSettled f2 (Some b2)
               (uploadSettled f1 (Some b1) (uploadStarted (uploadStarted a))))
    = Some (pickedFile f2 b2) /\
    stlFile (uploadSettled f1 (Some b1)
               (uploadSettled f2 (Some b2) (uploadStarted (uploadStarted a))))
    = Some (pickedFile f1 b1) /\
    (stlFile (uploadSettled f2 None
                (uploadSettled f1 (Some b1) (uploadStarted (uploadStarted a))))
     = Some (pickedFile f1 b1) /\
     error (uploadSettled f2 None
              (uploadSettled f1 (Some b1) (uploadStarted (uploadStarted a))))
     = Some loadFailed) /\
    (stlFile (uploadSettled f2 (Some b2)
                (uploadSettled f1 None (uploadStarted (uploadStarted a))))
     = Some (pickedFile f2 b2) /\
     showsError (uploadSettled f2 (Some b2)
                   (uploadSettled f1 None (uploadStarted (uploadStarted a))))
     = true).
Proof. intros. repeat split. Qed.

(** X14. Reset clears the file, the error and the controls of the App, but
    not the scene: with [stlFile] null the load effect returns at its
    guard, and the control-state effect changes no scene child, so the
    mesh of the file that was displayed stays in the scene, beside the
    welcome card. *)
Theorem reset_leaves_the_mesh_displayed :
  forall (throws : Step -> bool) (a : AppState) (st : State),
    stlFile (handleReset a) = None /\ error (handleReset a) = None /\
    controls (handleReset a) = initialControls /\
    showsPanels (handleReset a) = false /\
    showsWelcome (handleReset a) = negb (isLoading a) /\
    loadEffect parse throws (viewerEnv (handleReset a) st) st = st /\
    sceneChildren (controlsEffect (viewerEnv (handleReset a) st)
                     (loadEffect parse throws (viewerEnv (handleReset a) st) st))
    = sceneChildren st /\
    meshRef (controlsEffect (viewerEnv (handleReset a) st)
               (loadEffect parse throws (viewerEnv (handleReset a) st) st))
    = meshRef st /\
    countClass Mesh (controlsEffect (viewerEnv (handleReset a) st)
                       (loadEffect parse throws (viewerEnv (handleReset a) st) st))
    = countClass Mesh st.
Proof.
  intros throws a st.
  assert (E : loadEffect parse throws (viewerEnv (handleReset a) st) st = st).
  { unfold loadEffect, viewerEnv, renderEnv. cbn [envFile handleReset stlFile].
    now destruct (sceneRef st). }
  rewrite E.
  pose proof (sameShape_controlsEffect (viewerEnv (handleReset a) st) st) as S.
  pose proof (sameShape_countClass Mesh _ _ S) as C.
  destruct S as (S1 & _ & _ & S2 & _).
  repeat split; assumption.
Qed.

(** X15. A file that is read but cannot be parsed: the App sets it, the
    load effect of the viewer fails at the parse and reports the parse
    error, and the App then shows the error together with the controls
    panel and the statistics of the unparsed file, over a scene that is as
    it was. *)
Theorem unparsable_file_gets_banner_and_stats :
  forall (throws : Step -> bool) (file : Picked) (buffer : list byte)
         (a : AppState) (st : State),
    parse buffer = None ->
    present (sceneRef st) = true -> isInitialized st = true ->
    loadEffect parse throws
      (viewerEnv (handleFileUpload file (Some buffer) a) st) st
    = emit (OnError errorMessage) (emit ConsoleError st) /\
    trace (loadEffect parse throws
             (viewerEnv (handleFileUpload file (Some buffer) a) st) st)
    = trace st ++ [ConsoleError; OnError errorMessage] /\
    sceneChildren (loadEffect parse throws
                     (viewerEnv (handleFileUpload file (Some buffer) a) st) st)
    = sceneChildren st /\
    error (reported [ConsoleError; OnError errorMessage]
             (handleFileUpload file (Some buffer) a)) = Some errorMessage /\
    showsError (reported [ConsoleError; OnError errorMessage]
                  (handleFileUpload file (Some buffer) a)) = true /\
    showsPanels (reported [ConsoleError; OnError errorMessage]
                   (handleFileUpload file (Some buffer) a)) = true /\
    StatsOverlay.render
      (stlFile (reported [ConsoleError; OnError errorMessage]
                  (handleFileUpload file (Some buffer) a)))
    = Some {| StatsOverlay.trianglesCard := byteLength buffer / 50;
              StatsOverlay.formatCard :=
                if 84 <? byteLength buffer then "Binary STL" else "ASCII STL" |}.
Proof.
  intros throws file buffer a st Hp Hsc Hi.
  assert (E : loadEffect parse throws
                (viewerEnv (handleFileUpload file (Some buffer) a) st) st
              = emit (OnError errorMessage) (emit ConsoleError st)).
  { unfold loadEffect, loadSTL, tryCatch, viewerEnv, renderEnv.
    cbn [envFile envInitialized envControls handleFileUpload uploadSettled
         uploadStarted stlFile controls].
    destruct (sceneRef st); [|discriminate Hsc]. rewrite Hi.
    rewrite (early_failure_body parse throws _ _ st); [reflexivity|].
    right; left. exact Hp. }
  rewrite E. split; [reflexivity|]. split.
  { cbn [trace emit set_trace]. now rewrite <- app_assoc. }
  repeat split.
Qed.

End AppFacts.

Section AppExamples.
Import Stl Three STLViewer App Samples.

Lemma unparsable_file_gets_banner_and_stats_witness :
  parseSample (list_byte_of_string "sol") = None /\
  present (sceneRef initialized) = true /\ isInitialized initialized = true /\
  showsError
    (reported [ConsoleError; OnError errorMessage]
       (handleFileUpload
          {| picked := {| FileUpload.fileName := "broken.stl";
                          FileUpload.fileBytes := list_byte_of_string "sol" |};
             pickedSize := 3; pickedLastModified := 0 |}
          (Some (list_byte_of_string "sol")) App.initial)) = true.
Proof.
  split; [reflexivity|]. split; [vm_compute; reflexivity|].
  split; [vm_compute; reflexivity|].
  destruct (unparsable_file_gets_banner_and_stats parseSample noThrow
              {| picked := {| FileUpload.fileName := "broken.stl";
                              FileUpload.fileBytes := list_byte_of_string "sol" |};
                 pickedSize := 3; pickedLastModified := 0 |}
              (list_byte_of_string "sol") App.initial initialized)
    as (_ & _ & _ & _ & H & _); [reflexivity|vm_compute; reflexivity
                                 |vm_compute; reflexivity|exact H].
Defined.

(** After the sample is uploaded, displayed and reset, one mesh is still in
    the scene while the App shows the welcome card. *)
Example reset_after_a_load :
  countClass Mesh
    (controlsEffect (viewerEnv (handleReset App.initial) populated)
       (loadEffect parseSample noThrow
          (viewerEnv (handleReset App.initial) populated) populated)) = 1 /\
  showsWelcome (handleReset App.initial) = true.
Proof. split; vm_compute; reflexivity. Qed.

End AppExamples.

(* ===================================================================== *)
(** * Meshes with a vertex that is not finite *)
(* ===================================================================== *)

Section NonFiniteFacts.
Import Samples Bounds.

Lemma nmul_NaN_r (a : num) : nmul a NaN = NaN.
Proof. now destruct a. Qed.

Lemma nadd_NaN_r (a : num) : nadd a NaN = NaN.
Proof. now destruct a. Qed.

Lemma ndiv_NaN_r (a : num) : ndiv a NaN = NaN.
Proof. now destruct a. Qed.

Lemma nmul_zero_nonfinite (a : num) : isFinite a = false -> nmul (Fin 0) a = NaN.
Proof. destruct a; [discriminate| | |]; reflexivity. Qed.

(** The divisor of an affine matrix at a vertex that is not finite. *)
Lemma affine_w_nonfinite (p : Vector3) :
  vecFinite p = false ->
  ndiv (Fin 1) (row (Fin 0) (Fin 0) (Fin 0) (Fin 1) p) = NaN.
Proof.
  intros H. unfold row. destruct p as [x y z]. cbn [vx vy vz].
  unfold vecFinite in H. cbn [vx vy vz] in H.
  destruct (isFinite x) eqn:Ex.
  - destruct (isFinite y) eqn:Ey.
    + cbn [andb] in H. rewrite (nmul_zero_nonfinite z H).
      now rewrite nadd_NaN_r.
    + rewrite (nmul_zero_nonfinite y Ey). now rewrite nadd_NaN_r.
  - rewrite (nmul_zero_nonfinite x Ex). reflexivity.
Qed.

Lemma translate_nonfinite (t p : Vector3) :
  vecFinite p = false -> setXYZ (applyMatrix4 (makeTranslation t) p) = allNaN.
Proof.
  intros H. unfold applyMatrix4, makeTranslation.
  cbn [n11 n12 n13 n14 n21 n22 n23 n24 n31 n32 n33 n34 n41 n42 n43 n44].
  rewrite (affine_w_nonfinite p H), !nmul_NaN_r. reflexivity.
Qed.

Lemma nmul_NaN_l (a : num) : nmul NaN a = NaN.
Proof. reflexivity. Qed.

Lemma nadd_NaN_l (a : num) : nadd NaN a = NaN.
Proof. reflexivity. Qed.

Lemma scale_NaN (p : Vector3) :
  setXYZ (applyMatrix4 (makeScale allNaN) p) = allNaN.
Proof.
  unfold applyMatrix4, makeScale, allNaN, row.
  cbn [n11 n12 n13 n14 n21 n22 n23 n24 n31 n32 n33 n34 n41 n42 n43 n44 vx vy vz].
  repeat rewrite ?nmul_NaN_l, ?nadd_NaN_l, ?nadd_NaN_r.
  reflexivity.
Qed.

Lemma fold_nmin_NaN (l : list num) : fold_left nmin l NaN = NaN.
Proof. induction l as [|a l IH]; cbn [fold_left]; [reflexivity|exact IH]. Qed.

Lemma fold_nmax_NaN (l : list num) : fold_left nmax l NaN = NaN.
Proof. induction l as [|a l IH]; cbn [fold_left]; [reflexivity|exact IH]. Qed.

Lemma fold_nmin_has_NaN (l : list num) (a : num) :
  In NaN l -> fold_left nmin l a = NaN.
Proof.
  revert a. induction l as [|x l IH]; intros a H; [destruct H|].
  cbn [fold_left]. destruct H as [H|H].
  - subst x. replace (nmin a NaN) with NaN by now destruct a.
    apply fold_nmin_NaN.
  - now apply IH.
Qed.

Lemma fold_nmax_has_NaN (l : list num) (a : num) :
  In NaN l -> fold_left nmax l a = NaN.
Proof.
  revert a. induction l as [|x l IH]; intros a H; [destruct H|].
  cbn [fold_left]. destruct H as [H|H].
  - subst x. replace (nmax a NaN) with NaN by now destruct a.
    apply fold_nmax_NaN.
  - now apply IH.
Qed.

(** The box of a vertex list that holds an all-NaN vertex. *)
Lemma box_with_NaN (ps : list Vector3) :
  In allNaN ps ->
  setFromPoints ps = {| bmin := allNaN; bmax := allNaN |}.
Proof.
  intros H. unfold setFromPoints. rewrite fold_expand.
  assert (Hx : In NaN (map vx ps)) by exact (in_map vx _ _ H).
  assert (Hy : In NaN (map vy ps)) by exact (in_map vy _ _ H).
  assert (Hz : In NaN (map vz ps)) by exact (in_map vz _ _ H).
  now rewrite !fold_nmin_has_NaN, !fold_nmax_has_NaN.
Qed.

(** X19. One vertex with a coordinate that is not finite spoils the whole
    mesh: the perspective divide of [applyMatrix4] multiplies that
    coordinate by 0, so the vertex becomes NaN on every axis when the mesh
    is centred; the bounding box, its size and the scale factor are then
    NaN, and after scaling every coordinate of every vertex is NaN, as are
    the centre and the size of the final box. *)
Theorem nonfinite_vertex_spoils_the_mesh :
  forall (g : BufferGeometry) (p : Vector3),
    In p (positions g) -> vecFinite p = false ->
    positions (normalizeGeometry g)
    = map (fun _ => vec NaN NaN NaN) (positions g) /\
    boundingBox (normalizeGeometry g)
    = Some {| bmin := vec NaN NaN NaN; bmax := vec NaN NaN NaN |} /\
    (forall b, boundingBox (normalizeGeometry g) = Some b ->
               getCenter b = vec NaN NaN NaN /\
               maxComponent (getSize b) = NaN).
Proof.
  intros g p Hin Hp. fold allNaN.
  set (t := match boundingBox (computeBoundingBox g) with
            | Some b => getCenter b
            | None => vzero
            end).
  set (G1 := fun q => setXYZ (applyMatrix4
               (makeTranslation (vec (nneg (vx t)) (nneg (vy t)) (nneg (vz t)))) q)).
  assert (E1 : centerGeometry g =
               {| positions := map G1 (positions g);
                  boundingBox := Some (setFromPoints (map G1 (positions g))) |})
    by reflexivity.
  assert (Hin1 : In allNaN (map G1 (positions g))).
  { apply in_map_iff. exists p. split; [|exact Hin].
    unfold G1. now apply translate_nonfinite. }
  assert (B1 : setFromPoints (map G1 (positions g))
               = {| bmin := allNaN; bmax := allNaN |})
    by now apply box_with_NaN.
  assert (E2 : normalizeGeometry g =
               {| positions := map (fun q => setXYZ (applyMatrix4 (makeScale allNaN) q))
                                   (map G1 (positions g));
                  boundingBox :=
                    Some (setFromPoints
                            (map (fun q => setXYZ (applyMatrix4 (makeScale allNaN) q))
                                 (map G1 (positions g)))) |}).
  { unfold normalizeGeometry. rewrite E1.
    unfold scaleToFit, scale, geometryApplyMatrix4, attributeApplyMatrix4.
    cbn [boundingBox positions]. rewrite B1. reflexivity. }
  assert (P2 : map (fun q => setXYZ (applyMatrix4 (makeScale allNaN) q))
                   (map G1 (positions g))
               = map (fun _ => allNaN) (positions g)).
  { rewrite map_map. apply map_ext. intros q. apply scale_NaN. }
  rewrite E2. cbn [positions boundingBox]. rewrite P2.
  assert (B2 : setFromPoints (map (fun _ => allNaN) (positions g))
               = {| bmin := allNaN; bmax := allNaN |}).
  { apply box_with_NaN. apply in_map_iff. now exists p. }
  rewrite B2. split; [reflexivity|]. split; [reflexivity|].
  intros b Hb. injection Hb as <-. split; reflexivity.
Qed.

Lemma nonfinite_vertex_spoils_the_mesh_witness :
  In (vec PInf (Fin 0) (Fin 0)) (positions infiniteGeometry) /\
  vecFinite (vec PInf (Fin 0) (Fin 0)) = false /\
  positions (normalizeGeometry infiniteGeometry)
  = [vec NaN NaN NaN; vec NaN NaN NaN; vec NaN NaN NaN].
Proof.
  assert (Hin : In (vec PInf (Fin 0) (Fin 0)) (positions infiniteGeometry))
    by (right; left; reflexivity).
  split; [exact Hin|]. split; [reflexivity|].
  exact (proj1 (nonfinite_vertex_spoils_the_mesh infiniteGeometry _ Hin eq_refl)).
Defined.

End NonFiniteFacts.

(* ===================================================================== *)
(** * What the control-state effect leaves on display *)
(* ===================================================================== *)

Section AppliedControlsFacts.
Import Samples.
Variable parse : list byte -> option BufferGeometry.

Lemma refersTo_true (ref : option addr) (a : addr) :
  refersTo ref a = true <-> ref = Some a.
Proof.
  destruct ref as [b|]; cbn [refersTo]; [|split; discriminate].
  rewrite Nat.eqb_eq. split; [now intros ->|now intros [= ->]].
Qed.

(** In a well-formed scene graph the ref of one class does not hold the
    object of another. *)
Lemma slot_refersTo (st : State) (k k' : Class) (a : addr) :
  graphInv st -> classAt st a = Some k -> k' <> k ->
  refersTo (slotRef k' st) a = false.
Proof.
  intros (_ & _ & Hr) Hc Hne.
  destruct (refersTo (slotRef k' st) a) eqn:E; [|reflexivity].
  apply refersTo_true in E. apply Hr in E. congruence.
Qed.

(** What the control-state effect leaves in the store, object by
    object. *)
Lemma controlsEffect_cell (r : Env) (st : State) (a : addr) :
  controlsApply r st = true ->
  heap (controlsEffect r st) !! a
  = appliedCell (envControls r) (meshRef st) (wireframeRef st)
      (normalsHelperRef st) (gridHelperRef st) (axesHelperRef st)
      (sceneChildren st) a <$> heap st !! a.
Proof.
  intros G. unfold controlsApply in G. apply andb_true_iff in G as [Gs Gr].
  destruct (sceneRef st) as [sc|] eqn:Hsc; [|discriminate].
  rewrite (controlsEffect_shape r st sc Hsc Gr).
  unfold sceneChildren. rewrite Hsc.
  destruct st as [i cv sc' cam ren ctl m w n g x af h q nf rl t].
  cbn [heap set_trace set_sceneRef set_heap meshRef wireframeRef normalsHelperRef
       gridHelperRef axesHelperRef].
  apply lookup_appliedHeap.
Qed.

(** X20. In a well-formed scene graph, and so at every moment of the life
    of a mounted viewer, a run of the control-state effect that passes its
    guard leaves every displayed object as the controls say: the mesh has
    the model colour, the wireframe, the normals helper, the grid and the
    axes are visible exactly when their flag is set, every light in the
    scene has the lighting intensity, and the background is the background
    colour; no object changes its class. *)
Theorem applied_controls_are_displayed :
  forall (c0 : ViewerControls) (f : option STLFile) (acts : list Action)
         (r : Env),
    controlsApply r (life parse c0 f acts) = true ->
    background <$> sceneRef (controlsEffect r (life parse c0 f acts))
    = Some (Some (backgroundColor (envControls r))) /\
    forall a o,
      heap (controlsEffect r (life parse c0 f acts)) !! a = Some o ->
      classAt (life parse c0 f acts) a = Some (cls o) /\
      (meshRef (life parse c0 f acts) = Some a ->
       color o = modelColor (envControls r)) /\
      (wireframeRef (life parse c0 f acts) = Some a ->
       visible o = showWireframe (envControls r)) /\
      (normalsHelperRef (life parse c0 f acts) = Some a ->
       visible o = showNormals (envControls r)) /\
      (gridHelperRef (life parse c0 f acts) = Some a ->
       visible o = showGrid (envControls r)) /\
      (axesHelperRef (life parse c0 f acts) = Some a ->
       visible o = showAxes (envControls r)) /\
      (In a (sceneChildren (life parse c0 f acts)) -> isLight (cls o) = true ->
       intensity o = lightingIntensity (envControls r)).
Proof.
  intros c0 f acts r G.
  destruct (life_inv parse c0 f acts) as [J _].
  set (st := life parse c0 f acts) in *.
  split.
  { unfold controlsApply in G. apply andb_true_iff in G as [Gs Gr].
    destruct (sceneRef st) as [sc|] eqn:Hsc; [|discriminate].
    rewrite (controlsEffect_shape r st sc Hsc Gr).
    destruct st as [i cv sc' cam ren ctl m w n g x af h q nf rl t]. reflexivity. }
  intros a o Ho. rewrite (controlsEffect_cell r st a G) in Ho.
  destruct (heap st !! a) as [o0|] eqn:H0; [|discriminate].
  cbn in Ho. injection Ho as <-.
  assert (Hc : classAt st a = Some (cls o0)) by (unfold classAt; now rewrite H0).
  assert (Hcls : cls (appliedCell (envControls r) (meshRef st) (wireframeRef st)
                        (normalsHelperRef st) (gridHelperRef st) (axesHelperRef st)
                        (sceneChildren st) a o0) = cls o0).
  { unfold appliedCell, lightCell.
    destruct (refersTo (meshRef st) a), (refersTo (wireframeRef st) a),
      (refersTo (normalsHelperRef st) a), (refersTo (gridHelperRef st) a),
      (refersTo (axesHelperRef st) a); cbn [cls set_color set_visible];
      match goal with |- context [if ?b then _ else _] => destruct b end;
      reflexivity. }
  rewrite Hcls. split; [exact Hc|].
  pose proof (fun k' => slot_refersTo st (cls o0) k' a J Hc) as Other.
  assert (Slot : forall k, slotRef k st = Some a -> cls o0 = k).
  { intros k Hk. destruct J as (_ & _ & Hr). apply Hr in Hk. congruence. }
  unfold appliedCell, lightCell.
  change (wireframeRef st) with (slotRef LineSegments st).
  change (meshRef st) with (slotRef Mesh st).
  change (normalsHelperRef st) with (slotRef VertexNormalsHelper st).
  change (gridHelperRef st) with (slotRef GridHelper st).
  change (axesHelperRef st) with (slotRef AxesHelper st).
  repeat split.
  - intros Hm. pose proof (Slot Mesh Hm) as E.
    rewrite (proj2 (refersTo_true _ _) Hm).
    rewrite (Other LineSegments), (Other VertexNormalsHelper),
      (Other GridHelper), (Other AxesHelper) by (rewrite E; discriminate).
    cbn [cls set_color]. rewrite E. reflexivity.
  - intros Hw. pose proof (Slot LineSegments Hw) as E.
    rewrite (proj2 (refersTo_true _ _) Hw).
    rewrite (Other Mesh), (Other VertexNormalsHelper),
      (Other GridHelper), (Other AxesHelper) by (rewrite E; discriminate).
    cbn [cls set_visible]. rewrite E. reflexivity.
  - intros Hn. pose proof (Slot VertexNormalsHelper Hn) as E.
    rewrite (proj2 (refersTo_true _ _) Hn).
    rewrite (Other Mesh), (Other LineSegments),
      (Other GridHelper), (Other AxesHelper) by (rewrite E; discriminate).
    cbn [cls set_visible]. rewrite E. reflexivity.
  - intros Hg. pose proof (Slot GridHelper Hg) as E.
    rewrite (proj2 (refersTo_true _ _) Hg).
    rewrite (Other Mesh), (Other LineSegments),
      (Other VertexNormalsHelper), (Other AxesHelper) by (rewrite E; discriminate).
    cbn [cls set_visible]. rewrite E. reflexivity.
  - intros Hx. pose proof (Slot AxesHelper Hx) as E.
    rewrite (proj2 (refersTo_true _ _) Hx).
    rewrite (Other Mesh), (Other LineSegments),
      (Other VertexNormalsHelper), (Other GridHelper) by (rewrite E; discriminate).
    cbn [cls set_visible]. rewrite E. reflexivity.
  - intros Hin Hl.
    rewrite (Other Mesh), (Other LineSegments), (Other VertexNormalsHelper),
      (Other GridHelper), (Other AxesHelper)
      by (intros E; rewrite <- E in Hl; discriminate Hl).
    rewrite Hl. cbn [andb].
    assert (Hit : existsb (Nat.eqb a) (sceneChildren st) = true).
    { apply existsb_exists. exists a. split; [exact Hin|apply Nat.eqb_refl]. }
    rewrite Hit. reflexivity.
Qed.

End AppliedControlsFacts.

Section AppliedControlsExamples.
Import Samples.

Lemma applied_controls_are_displayed_witness :
  controlsApply spinEnv
    (life parseSample defaultControls None
       [RerunInit readyEnv; RunLoad noThrow fileEnv]) = true /\
  background <$>
    sceneRef (controlsEffect spinEnv
                (life parseSample defaultControls None
                   [RerunInit readyEnv; RunLoad noThrow fileEnv]))
  = Some (Some "#0f172a").
Proof.
  assert (G : controlsApply spinEnv
                (life parseSample defaultControls None
                   [RerunInit readyEnv; RunLoad noThrow fileEnv]) = true)
    by (vm_compute; reflexivity).
  split; [exact G|].
  exact (proj1 (applied_controls_are_displayed parseSample defaultControls None
                  [RerunInit readyEnv; RunLoad noThrow fileEnv] spinEnv G)).
Defined.

End AppliedControlsExamples.
